(** * MusicCat: catalog ingestion and fuzzy song lookup

    A shallow embedding of the two source files of the repository,

    - [src/musiccat/__init__.py]: the package ([MusicCat._import_metadata],
      [MusicCat.refresh_song_list], [MusicCat.search], playback), and
    - [src/musiccat.py]: the older single-file module, whose [MusicCat.search]
      resolves one song id with auto-correction (module [Legacy] below),

    together with the properties of them that the specification states.

    Conventions of the embedding.

    - A Python [str] is a [string], one character for one code point; the
      text that can be written so has its code points below 256, and [lower]
      and [split] are those of Python on such text.  [len] is [String.length].
    - A Python [float] is a binary64 number.  The ranked search is embedded
      twice.  Module [Rounded] has it with the arithmetic of binary64
      ([Binary64], over the standard library's [spec_float]); the scoring of
      a song is stated there, because at the floor 0.7 the rounded product
      decides ([0.875 * 0.8 > 0.7] holds in binary64 and not in the
      rationals).  The top-level [search] has it in exact rational arithmetic
      ([Q]); it is used for what no rounding changes: when the search raises
      and what, that its result is ordered and bounded, and that it ignores
      the case of the keywords ([searches_raise_alike] relates the two).
      The id lookup of the older module compares similarities with each other
      and with thresholds, in [Q].
    - A Python [dict] is an association list in insertion order (CPython 3.7+):
      assigning to an existing key keeps the key's position.
    - A raised exception is a value of [exn]; a function that may raise returns
      [result].  Functions that mutate [self] return the new [self] as well, also
      when they raise, because the mutation done before the [raise] stays.
    - The log of [logging.getLogger("musicCat")] is a list of records, newest
      last. *)

From Stdlib Require Import String Ascii List ZArith QArith Qminmax Lia Bool Arith.
From Stdlib Require Import Sorted SpecFloat.
Import ListNotations.

Local Open Scope string_scope.
Local Open Scope list_scope.

(* ------------------------------------------------------------------------- *)
(** * Python's [float] *)
(* ------------------------------------------------------------------------- *)

(** A Python [float] is an IEEE 754 binary64 number.  [spec_float] and the
    operations [SFadd], [SFmul], [SFdiv] and [SFltb] of the standard library
    are the specification of that arithmetic (round to nearest, ties to even)
    for a mantissa of [prec] bits and the exponent bound [emax]. *)
Module Binary64.

Definition float : Type := spec_float.

Definition prec : Z := 53.

Definition emax : Z := 1024.

(** [x + y], [x * y], [x / y] for a [y] that is not zero *)
Definition add : float -> float -> float := SFadd prec emax.

Definition mul : float -> float -> float := SFmul prec emax.

Definition div : float -> float -> float := SFdiv prec emax.

(** [x < y] and [x > y]: false when one of the two is not a number. *)
Definition ltb (x y : float) : bool := SFltb x y.

Definition gtb (x y : float) : bool := SFltb y x.

(** [float(n)] for an [int] that is not negative, as the arithmetic converts
    the [int] operand of a mixed operation. *)
Definition of_nat (n : nat) : float := binary_normalize prec emax (Z.of_nat n) 0 false.

(** [0.0], which is also what the [int] 0 converts to, and [1.0]. *)
Definition zero : float := S754_zero false.

Definition one : float := S754_finite false 4503599627370496 (-52).

(** The literals [0.8], [0.7] and [0.3]: the floats nearest to 8/10, 7/10 and
    3/10. *)
Definition eight_tenths : float := S754_finite false 7205759403792794 (-53).

Definition seven_tenths : float := S754_finite false 6305039478318694 (-53).

Definition three_tenths : float := S754_finite false 5404319552844595 (-54).

(** [math.isnan(x)] *)
Definition is_nan (x : float) : bool :=
  match x with
  | S754_nan => true
  | _ => false
  end.

(** The sign bit of [x] is clear: [x] is [0.0], a positive number, the
    positive infinity, or no number. *)
Definition signed_nonneg (x : float) : bool :=
  match x with
  | S754_zero s | S754_infinity s | S754_finite s _ _ => negb s
  | S754_nan => true
  end.

End Binary64.

(* ------------------------------------------------------------------------- *)
(** * The similarity function, [Levenshtein.ratio] *)
(* ------------------------------------------------------------------------- *)

Module Levenshtein.

(** Modelled from the spec: [Levenshtein.ratio] belongs to the package
    python-Levenshtein, which the repository imports and does not contain.
    The spec's section 4.3 describes it as the normalized edit-distance ratio
    [1 - distance / (len(a) + len(b))]; the distance of that formula counts an
    insertion or a deletion as 1 (a replacement is a deletion and an insertion),
    and two empty strings have ratio 1.0. *)
Fixpoint distance (a b : list ascii) {struct a} : nat :=
  match a with
  | [] => length b
  | x :: a' =>
      (fix distance_row (b : list ascii) : nat :=
         match b with
         | [] => S (length a')
         | y :: b' =>
             if Ascii.eqb x y then distance a' b'
             else S (Nat.min (distance a' b) (distance_row b'))
         end) b
  end.

(** The same distance by the textbook recurrence with weights: insertion 1,
    deletion 1, replacement 2. *)
Fixpoint weighted_distance (a b : list ascii) {struct a} : nat :=
  match a with
  | [] => length b
  | x :: a' =>
      (fix weighted_row (b : list ascii) : nat :=
         match b with
         | [] => S (length a')
         | y :: b' =>
             Nat.min (Nat.min (S (weighted_distance a' b)) (S (weighted_row b')))
                     ((if Ascii.eqb x y then 0 else 2) + weighted_distance a' b')
         end) b
  end.

Definition lensum (a b : string) : nat := String.length a + String.length b.

Definition ratio (a b : string) : Q :=
  if Nat.eqb (lensum a b) 0 then 1
  else Qred (Z.of_nat (lensum a b
                       - distance (list_ascii_of_string a) (list_ascii_of_string b))
             # Pos.of_nat (lensum a b)).

(** Modelled from the spec: the float the function returns for that ratio.
    Of the equivalent formulas that section 4.3 allows, this is the one
    python-Levenshtein computes: one division of the two integers,
    [len(a) + len(b) - distance] by [len(a) + len(b)], in binary64; and [1.0]
    for two empty strings. *)
Definition ratio64 (a b : string) : Binary64.float :=
  if Nat.eqb (lensum a b) 0 then Binary64.one
  else Binary64.div
         (Binary64.of_nat (lensum a b
                           - distance (list_ascii_of_string a) (list_ascii_of_string b)))
         (Binary64.of_nat (lensum a b)).

End Levenshtein.

(* ------------------------------------------------------------------------- *)
(** * Python values, exceptions and dictionaries *)
(* ------------------------------------------------------------------------- *)

(** The values a loaded metadata document holds in its fields. *)
#[warnings="-register-all"]
Inductive pyval : Type :=
| PNone
| PStr (s : string)
| PInt (z : Z)
| PList (l : list pyval).

(** The hashable values, which are the ones a [dict] accepts as keys. *)
Inductive pykey : Type :=
| KNone
| KStr (s : string)
| KInt (z : Z).

Definition key_value (k : pykey) : pyval :=
  match k with
  | KNone => PNone
  | KStr s => PStr s
  | KInt z => PInt z
  end.

(** [hash(v)]: a list is unhashable. *)
Definition hash_key (v : pyval) : option pykey :=
  match v with
  | PNone => Some KNone
  | PStr s => Some (KStr s)
  | PInt z => Some (KInt z)
  | PList _ => None
  end.

Definition pykey_eqb (j k : pykey) : bool :=
  match j, k with
  | KNone, KNone => true
  | KStr s, KStr t => String.eqb s t
  | KInt m, KInt n => Z.eqb m n
  | _, _ => false
  end.

Inductive exn : Type :=
| SongIdConflictError (song_id : pyval)
| FileNotFoundError (fullpath : string)
| NoMatchError (song_id : string)
| NameError (name : string)
| KeyError (key : pyval)
| TypeError
| AttributeError
| ValueError
| ZeroDivisionError
| LoadError.

Inductive result (A : Type) : Type :=
| Ok (a : A)
| Raise (e : exn).

Arguments Ok {A} a.
Arguments Raise {A} e.

Definition bind {A B : Type} (r : result A) (k : A -> result B) : result B :=
  match r with
  | Ok a => k a
  | Raise e => Raise e
  end.

Notation "'do' x <- r ; k" := (bind r (fun x => k))
  (at level 10, x name, r at level 100, k at level 200).

Section Dict.

Context {K V : Type}.
Variable eqb : K -> K -> bool.

(** [d.get(k)] *)
Fixpoint dict_get (d : list (K * V)) (k : K) : option V :=
  match d with
  | [] => None
  | (k', v) :: d' => if eqb k' k then Some v else dict_get d' k
  end.

(** [k in d] *)
Definition dict_contains (d : list (K * V)) (k : K) : bool :=
  match dict_get d k with
  | Some _ => true
  | None => false
  end.

(** [d[k] = v] *)
Fixpoint dict_set (d : list (K * V)) (k : K) (v : V) : list (K * V) :=
  match d with
  | [] => [(k, v)]
  | (k', v') :: d' =>
      if eqb k' k then (k', v) :: d' else (k', v') :: dict_set d' k v
  end.

(** [del d[k]], for a [k] that may be absent *)
Fixpoint dict_remove (d : list (K * V)) (k : K) : list (K * V) :=
  match d with
  | [] => []
  | (k', v') :: d' =>
      if eqb k' k then dict_remove d' k else (k', v') :: dict_remove d' k
  end.

Definition dict_keys (d : list (K * V)) : list K := map fst d.

Definition dict_values (d : list (K * V)) : list V := map snd d.

End Dict.

(** Rational comparisons as booleans: [x < y] and [x > y]. *)
Definition Qltb (x y : Q) : bool := negb (Qle_bool y x).

Definition Qgtb (x y : Q) : bool := Qltb y x.

(** [max(a, b)] returns [a] unless [b > a]. *)
Definition py_max2 (a b : Q) : Q := if Qgtb b a then b else a.

(** [max(iterable)]: the first largest item; an empty iterable raises. *)
Definition py_max (xs : list Q) : result Q :=
  match xs with
  | [] => Raise ValueError
  | x :: rest => Ok (fold_left py_max2 rest x)
  end.

(** [str.lower()], one character at a time.  Below 256 the capital letters
    are those of ASCII (65 to 90) and those of Latin-1 (192 to 222, without
    the multiplication sign 215); the small letter of each stands 32 further. *)
Definition lower_char (c : ascii) : ascii :=
  let n := nat_of_ascii c in
  if ((65 <=? n)%nat && (n <=? 90)%nat)
     || ((192 <=? n)%nat && (n <=? 222)%nat && negb (n =? 215)%nat)
  then ascii_of_nat (n + 32) else c.

Fixpoint lower (s : string) : string :=
  match s with
  | EmptyString => EmptyString
  | String c s' => String (lower_char c) (lower s')
  end.

(** The characters [str.split()] splits at, which are the white space of
    Unicode.  Below 256: tab, line feed, vertical tab, form feed, carriage
    return (9 to 13), the four separators 28 to 31, the space (32), the next
    line control (133) and the no-break space (160). *)
Definition is_space (c : ascii) : bool :=
  let n := nat_of_ascii c in
  ((9 <=? n)%nat && (n <=? 13)%nat) || ((28 <=? n)%nat && (n <=? 32)%nat)
  || (n =? 133)%nat || (n =? 160)%nat.

(** [str.split()]: the maximal runs of characters that are not whitespace.
    [word] is the run being read. *)
Fixpoint split_from (word : string) (s : string) : list string :=
  match s with
  | EmptyString => if String.eqb word "" then [] else [word]
  | String c s' =>
      if is_space c then
        if String.eqb word "" then split_from "" s' else word :: split_from "" s'
      else split_from (word ++ String c "") s'
  end.

Definition split (s : string) : list string := split_from "" s.

(** [set(words)]: the order a set is iterated in is unspecified; only its
    largest ratio is used, and that does not depend on the order. *)
Definition py_set (words : list string) : list string := nodup string_dec words.

(** [sorted(results, key=lambda s: s[1], reverse=True)]: a stable sort, largest
    ratio first; items of equal ratio keep the order they had. *)
Fixpoint insert_desc {A : Type} (x : A * Q) (l : list (A * Q)) : list (A * Q) :=
  match l with
  | [] => [x]
  | y :: l' => if Qle_bool (snd y) (snd x) then x :: l else y :: insert_desc x l'
  end.

Definition sorted_desc {A : Type} (l : list (A * Q)) : list (A * Q) :=
  fold_right insert_desc [] l.

(* ------------------------------------------------------------------------- *)
(** * [src/musiccat.py]: resolving one song id *)
(* ------------------------------------------------------------------------- *)

Module Legacy.

Section Search.

(** The songs of this module are the dictionaries of the metadata file. *)
Context {Song : Type}.

(** [Levenshtein.ratio] *)
Variable ratio : string -> string -> Q.

(** [self.minimum_autocorrect_ratio] and [self.minimum_match_ratio]: the module
    reads both attributes and never assigns them.  [Some v] is an attribute
    that the user of the object has set to [v]; [None] is an attribute that
    was never set, as the module leaves it. *)
Variables minimum_autocorrect_ratio minimum_match_ratio : option Q.

(** The value of an attribute of [self]; an attribute that was never set
    raises. *)
Definition getattr (attribute : option Q) : result Q :=
  match attribute with
  | Some v => Ok v
  | None => Raise AttributeError
  end.

(** The loop [for s in self.songs] of [search], from the state
    [(best_ratio, best_match)]. *)
Fixpoint best_of (keys : list string) (songid : string)
    (best_ratio : Q) (best_match : option string) : Q * option string :=
  match keys with
  | [] => (best_ratio, best_match)
  | s :: keys' =>
      let ratio := ratio songid s in
      if Qgtb ratio best_ratio then best_of keys' songid ratio (Some s)
      else best_of keys' songid best_ratio best_match
  end.

(** [self.songs[best_match]] *)
Definition getitem (songs : list (string * Song)) (key : option string) : result Song :=
  match key with
  | None => Raise (KeyError PNone)
  | Some k =>
      match dict_get String.eqb songs k with
      | Some song => Ok song
      | None => Raise (KeyError (PStr k))
      end
  end.

(** [MusicCat.search(self, songid)].  The statement of line 123,
    [raise BadMatchError(songid, best_match)], names a class that the module
    neither defines nor imports: evaluating the name raises [NameError], and
    [best_match] is not delivered. *)
Definition search (songs : list (string * Song)) (songid : string) : result Song :=
  match dict_get String.eqb songs songid with
  | Some song => Ok song
  | None =>
      let '(best_ratio, best_match) :=
        best_of (dict_keys songs) songid 0 None in
      do autocorrect_ratio <- getattr minimum_autocorrect_ratio;
      if Qltb best_ratio autocorrect_ratio then
        Raise (NameError "BadMatchError")
      else
        do match_ratio <- getattr minimum_match_ratio;
        if Qltb best_ratio match_ratio then
          Raise (NoMatchError songid)
        else getitem songs best_match
  end.

End Search.

End Legacy.

(* ------------------------------------------------------------------------- *)
(** * [src/musiccat/__init__.py]: the catalog *)
(* ------------------------------------------------------------------------- *)

(** [Game = namedtuple("Game", ("id", "title", "platform", "year", "series", "path"))] *)
Module Game.
Record t : Type := mk
  { id : pyval; title : pyval; platform : pyval; year : pyval;
    series : pyval; path : pyval }.
End Game.

(** [Song = namedtuple("Song", ("id", "title", "path", "types", "game", "fullpath"))] *)
Module Song.
Record t : Type := mk
  { id : pyval; title : pyval; path : pyval; types : pyval;
    game : Game.t; fullpath : string }.
End Song.

(** What [self.log] receives. *)
Inductive log_record : Type :=
| Error_conflict (song_id : pyval) (old_game_id : pyval) (game_id : pyval)
| Error_conflict_same_game (song_id : pyval) (game_id : pyval)
| Error_no_brstm (song_id : pyval) (fullpath : string)
| Error_loading_file (metafilename : string) (e : exn)
| Warn_no_metadata (library_path : string).

(** The fields of [MusicCat] that the catalog uses. *)
Record MusicCat : Type := mkMusicCat
  { library_path : string;
    disable_nobrstm_exception : bool;
    disable_id_conflict_exception : bool;
    songs : list (pykey * Song.t);
    log : list log_record }.

Definition set_songs (self : MusicCat) (songs' : list (pykey * Song.t)) : MusicCat :=
  mkMusicCat (library_path self) (disable_nobrstm_exception self)
    (disable_id_conflict_exception self) songs' (log self).

Definition log_add (self : MusicCat) (r : log_record) : MusicCat :=
  mkMusicCat (library_path self) (disable_nobrstm_exception self)
    (disable_id_conflict_exception self) (songs self) (log self ++ [r]).

(** A mapping of a document, as [yaml.load] returns it. *)
Definition pydict : Type := list (string * pyval).

(** What [yaml.load] returns for a metadata file: a mapping whose value under
    ["songs"], when the key is there, is a sequence of mappings.  [fields] are
    the other keys. *)
Record document : Type := mkDocument
  { fields : pydict;
    doc_songs : option (list pydict) }.

(** The operating system and the files, as the catalog sees them. *)
Record os : Type := mkOs
  { (** [os.walk(top)]: the directories and the file names of each *)
    walk : string -> list (string * list string);
    (** [os.path.join], [os.path.dirname], [os.path.isfile] *)
    path_join : string -> string -> string;
    path_dirname : string -> string;
    path_isfile : string -> bool;
    (** [open(metafilename)] followed by [yaml.load(metafile)] *)
    yaml_load : string -> result document }.

(** [filename.endswith(suffix)] *)
Definition endswith (filename suffix : string) : bool :=
  let n := String.length filename in
  let m := String.length suffix in
  (m <=? n)%nat && String.eqb (substring (n - m) m filename) suffix.

Definition game_fields : list string :=
  ["id"; "title"; "platform"; "year"; "series"; "path"].

Definition song_fields : list string :=
  ["id"; "title"; "path"; "types"].

(** Every key of the keyword arguments names a field. *)
Definition only_fields (names : list string) (kwargs : pydict) : bool :=
  forallb (fun k => existsb (String.eqb k) names) (dict_keys kwargs).

(** [Game] called with the keywords of [gamedata]: a missing or an unexpected
    keyword is a [TypeError]. *)
Definition make_game (gamedata : pydict) : result Game.t :=
  let get := dict_get String.eqb gamedata in
  match get "id", get "title", get "platform", get "year", get "series", get "path" with
  | Some i, Some t, Some p, Some y, Some s, Some d =>
      if only_fields game_fields gamedata then Ok (Game.mk i t p y s d)
      else Raise TypeError
  | _, _, _, _, _, _ => Raise TypeError
  end.

(** Lines 103 to 110 of [_import_metadata]: the entry [song] of the document
    becomes a [Song].  The assignments to [song["fullpath"]] and [song["game"]]
    replace whatever the entry had under these keys, so the keyword arguments of
    the call of [Song] are the two assigned values and the entry's other keys. *)
Definition make_song (sys : os) (path : string) (game : Game.t) (song : pydict)
  : result Song.t :=
  match dict_get String.eqb song "path" with
  | None => Raise (KeyError (PStr "path"))
  | Some (PStr p) =>
      let fullpath := path_join sys path p in
      let song := dict_remove String.eqb (dict_remove String.eqb song "fullpath") "game" in
      let song :=
        match dict_get String.eqb song "type" with
        | Some ty => dict_set String.eqb (dict_remove String.eqb song "type") "types" (PList [ty])
        | None => song
        end in
      let get := dict_get String.eqb song in
      match get "id", get "title", get "path", get "types" with
      | Some i, Some t, Some p', Some ts =>
          if only_fields song_fields song then Ok (Song.mk i t p' ts game fullpath)
          else Raise TypeError
      | _, _, _, _ => Raise TypeError
      end
  | Some _ => Raise TypeError
  end.

(** Lines 112 to 129: the sanity checks and the insertion of [newsong].
    [newsongs] is the local dictionary of [_import_metadata]. *)
Definition add_song (sys : os) (self : MusicCat) (newsongs : list (pykey * Song.t))
    (game : Game.t) (newsong : Song.t) : MusicCat * option exn :=
  match hash_key (Song.id newsong) with
  | None => (self, Some TypeError)
  | Some key =>
      let conflict1 := dict_get pykey_eqb (songs self) key in
      let self :=
        match conflict1 with
        | Some old => log_add self (Error_conflict (Song.id newsong)
                                      (Game.id (Song.game old)) (Game.id game))
        | None => self
        end in
      if match conflict1 with Some _ => negb (disable_id_conflict_exception self) | None => false end
      then (self, Some (SongIdConflictError (Song.id newsong)))
      else
        let conflict2 := dict_contains pykey_eqb newsongs key in
        let self :=
          if conflict2
          then log_add self (Error_conflict_same_game (Song.id newsong) (Game.id game))
          else self in
        if conflict2 && negb (disable_id_conflict_exception self)
        then (self, Some (SongIdConflictError (Song.id newsong)))
        else
          let missing := negb (path_isfile sys (Song.fullpath newsong)) in
          let self :=
            if missing
            then log_add self (Error_no_brstm (Song.id newsong) (Song.fullpath newsong))
            else self in
          if missing && negb (disable_nobrstm_exception self)
          then (self, Some (FileNotFoundError (Song.fullpath newsong)))
          else (set_songs self (dict_set pykey_eqb (songs self) key newsong), None)
  end.

(** The loop [for song in songs] of [_import_metadata]. *)
Fixpoint import_songs (sys : os) (self : MusicCat) (newsongs : list (pykey * Song.t))
    (path : string) (game : Game.t) (entries : list pydict) : MusicCat * option exn :=
  match entries with
  | [] => (self, None)
  | song :: entries' =>
      match make_song sys path game song with
      | Raise e => (self, Some e)
      | Ok newsong =>
          match add_song sys self newsongs game newsong with
          | (self', Some e) => (self', Some e)
          | (self', None) => import_songs sys self' newsongs path game entries'
          end
      end
  end.

(** [MusicCat._import_metadata(self, metafilename)]: the catalog it leaves and
    the exception it raised, if any. *)
Definition _import_metadata (sys : os) (self : MusicCat) (metafilename : string)
  : MusicCat * option exn :=
  match yaml_load sys metafilename with
  | Raise e => (self, Some e)
  | Ok gamedata =>
      let path := path_dirname sys metafilename in
      let newsongs : list (pykey * Song.t) := [] in
      match doc_songs gamedata with
      | None => (self, Some (KeyError (PStr "songs")))
      | Some entries =>
          let gamedata :=
            if dict_contains String.eqb (fields gamedata) "series" then fields gamedata
            else dict_set String.eqb (fields gamedata) "series" PNone in
          match make_game gamedata with
          | Raise e => (self, Some e)
          | Ok game => import_songs sys self newsongs path game entries
          end
      end
  end.

(** The metadata files of the library, in the order [refresh_song_list] meets
    them. *)
Definition metafiles (sys : os) (top : string) : list string :=
  flat_map (fun '(root, files) =>
              map (path_join sys root) (filter (fun filename => endswith filename ".yaml") files))
           (walk sys top).

(** The body of the two loops of [refresh_song_list]: one import, with its
    [try] and [except Exception]. *)
Definition try_import (sys : os) (self : MusicCat) (metafilename : string) : MusicCat :=
  match _import_metadata sys self metafilename with
  | (self', Some e) => log_add self' (Error_loading_file metafilename e)
  | (self', None) => self'
  end.

Definition import_all (sys : os) (self : MusicCat) (files : list string) : MusicCat :=
  fold_left (try_import sys) files self.

(** [MusicCat.refresh_song_list(self)] *)
Definition refresh_song_list (sys : os) (self : MusicCat) : MusicCat :=
  let self := set_songs self [] in
  let self := import_all sys self (metafiles sys (library_path self)) in
  if Nat.eqb (length (songs self)) 0
  then log_add self (Warn_no_metadata (library_path self))
  else self.

(** [MusicCat.__init__] *)
Definition init (sys : os) (library_path : string)
    (disable_nobrstm_exception disable_id_conflict_exception disable_auto_load : bool)
  : MusicCat :=
  let self := mkMusicCat library_path disable_nobrstm_exception
                disable_id_conflict_exception [] [] in
  if disable_auto_load then self else refresh_song_list sys self.

Section Search.

(** [Levenshtein.ratio] *)
Variable ratio : string -> string -> Q.

(** [set(title.lower().split())]; a title that is no [str] has no [lower]. *)
Definition haystack (title : pyval) : result (list string) :=
  match title with
  | PStr s => Ok (py_set (split (lower s)))
  | _ => Raise AttributeError
  end.

(** Lines 153 to 157 of [search]: the best match of one keyword, in exact
    arithmetic ([Rounded.subratio] has the rounded product). *)
Definition subratio (haystack1 haystack2 : list string) (keyword : string) : result Q :=
  let keyword := lower keyword in
  do subratio1 <- py_max (map (ratio keyword) haystack1);
  do subratio2 <- py_max (map (ratio keyword) haystack2);
  Ok (py_max2 subratio1 (subratio2 * (8 # 10))).

(** The loop [for keyword in keywords], from the running sum [ratio], in
    exact arithmetic ([Rounded.add_keywords] has the floats). *)
Fixpoint add_keywords (haystack1 haystack2 : list string) (keywords : list string)
    (ratio : Q) : result Q :=
  match keywords with
  | [] => Ok ratio
  | keyword :: keywords' =>
      do subratio <- subratio haystack1 haystack2 keyword;
      add_keywords haystack1 haystack2 keywords'
        (if Qgtb subratio (7 # 10) then ratio + subratio else ratio)
  end.

(** [ratio /= num_keywords] *)
Definition divide (ratio : Q) (num_keywords : nat) : result Q :=
  if Nat.eqb num_keywords 0 then Raise ZeroDivisionError
  else Ok (ratio / inject_Z (Z.of_nat num_keywords)).

(** Lines 149 to 161: the match ratio of one song. *)
Definition song_ratio (keywords : list string) (song : Song.t) : result Q :=
  do haystack1 <- haystack (Song.title song);
  do haystack2 <- haystack (Game.title (Song.game song));
  do ratio <- add_keywords haystack1 haystack2 keywords 0;
  divide ratio (length keywords).

(** The loop [for song in self.songs.values()], from the list [results]. *)
Fixpoint collect (keywords : list string) (cutoff : Q) (all : list Song.t)
    (results : list (Song.t * Q)) : result (list (Song.t * Q)) :=
  match all with
  | [] => Ok results
  | song :: all' =>
      do ratio <- song_ratio keywords song;
      collect keywords cutoff all'
        (if Qgtb ratio cutoff then results ++ [(song, ratio)] else results)
  end.

(** [MusicCat.search(self, keywords, cutoff)] *)
Definition search (self : MusicCat) (keywords : list string) (cutoff : Q)
  : result (list (Song.t * Q)) :=
  do results <- collect keywords cutoff (dict_values (songs self)) [];
  Ok (sorted_desc results).

End Search.

(** The words of the titles of a song, when both titles are strings. *)
Definition title_words (title : pyval) : list string :=
  match title with
  | PStr s => py_set (split (lower s))
  | _ => []
  end.

(** The default of [cutoff]. *)
Definition default_cutoff : Q := 3 # 10.

(* ------------------------------------------------------------------------- *)
(** * [MusicCat.search] in binary64 *)
(* ------------------------------------------------------------------------- *)

(** The same lines of [search] with the arithmetic Python performs: the
    similarity is a [float], and so are the product with [0.8], the comparison
    with [0.7], the running sum, the quotient and the comparison with the
    cutoff.  Whether a sub-score passes the floor [0.7] is decided by the
    rounded product. *)
Module Rounded.

Import Binary64.

Section Search.

(** [Levenshtein.ratio] *)
Variable ratio : string -> string -> float.

(** [max(a, b)] returns [a] unless [b > a]. *)
Definition py_max2 (a b : float) : float := if gtb b a then b else a.

(** [max(iterable)]: an empty iterable raises. *)
Definition py_max (xs : list float) : result float :=
  match xs with
  | [] => Raise ValueError
  | x :: rest => Ok (fold_left py_max2 rest x)
  end.

(** Lines 153 to 157 of [search]: the best match of one keyword. *)
Definition subratio (haystack1 haystack2 : list string) (keyword : string)
  : result float :=
  let keyword := lower keyword in
  do subratio1 <- py_max (map (ratio keyword) haystack1);
  do subratio2 <- py_max (map (ratio keyword) haystack2);
  Ok (py_max2 subratio1 (mul subratio2 eight_tenths)).

(** The loop [for keyword in keywords], from the running sum [ratio].  The
    sum starts as the [int] 0, which the first addition converts to [0.0]. *)
Fixpoint add_keywords (haystack1 haystack2 : list string) (keywords : list string)
    (ratio : float) : result float :=
  match keywords with
  | [] => Ok ratio
  | keyword :: keywords' =>
      do subratio <- subratio haystack1 haystack2 keyword;
      add_keywords haystack1 haystack2 keywords'
        (if gtb subratio seven_tenths then add ratio subratio else ratio)
  end.

(** [ratio /= num_keywords] *)
Definition divide (ratio : float) (num_keywords : nat) : result float :=
  if Nat.eqb num_keywords 0 then Raise ZeroDivisionError
  else Ok (div ratio (of_nat num_keywords)).

(** Lines 149 to 161: the match ratio of one song. *)
Definition song_ratio (keywords : list string) (song : Song.t) : result float :=
  do haystack1 <- haystack (Song.title song);
  do haystack2 <- haystack (Game.title (Song.game song));
  do ratio <- add_keywords haystack1 haystack2 keywords zero;
  divide ratio (length keywords).

(** The loop [for song in self.songs.values()], from the list [results]. *)
Fixpoint collect (keywords : list string) (cutoff : float) (all : list Song.t)
    (results : list (Song.t * float)) : result (list (Song.t * float)) :=
  match all with
  | [] => Ok results
  | song :: all' =>
      do ratio <- song_ratio keywords song;
      collect keywords cutoff all'
        (if gtb ratio cutoff then results ++ [(song, ratio)] else results)
  end.

(** [sorted(results, key=lambda s: s[1], reverse=True)]: every ratio in
    [results] is above the cutoff, so none is a NaN, and the stable sort puts
    an item before the items of a smaller or equal ratio that follow it. *)
Fixpoint insert_desc {A : Type} (x : A * float) (l : list (A * float))
  : list (A * float) :=
  match l with
  | [] => [x]
  | y :: l' => if ltb (snd x) (snd y) then y :: insert_desc x l' else x :: l
  end.

Definition sorted_desc {A : Type} (l : list (A * float)) : list (A * float) :=
  fold_right insert_desc [] l.

(** [MusicCat.search(self, keywords, cutoff)] *)
Definition search (self : MusicCat) (keywords : list string) (cutoff : float)
  : result (list (Song.t * float)) :=
  do results <- collect keywords cutoff (dict_values (songs self)) [];
  Ok (sorted_desc results).

(** The score of a song as the specification words it.  The maximum
    similarity of a keyword against the words of a title; per keyword the
    larger of that for the song title and 0.8 times that for the game title;
    what a sub-score contributes, through [contribution]; the sum of the
    contributions, added up in the order of the keywords, divided by the
    number of keywords. *)
Fixpoint maximum (x : float) (xs : list float) : float :=
  match xs with
  | [] => x
  | y :: ys => let m := maximum y ys in if ltb x m then m else x
  end.

Definition best_match (keyword : string) (words : list string) : float :=
  match map (ratio (lower keyword)) words with
  | [] => zero
  | x :: xs => maximum x xs
  end.

Definition sub_score (song_words game_words : list string) (keyword : string) : float :=
  let subratio1 := best_match keyword song_words in
  let subratio2 := mul (best_match keyword game_words) eight_tenths in
  if ltb subratio1 subratio2 then subratio2 else subratio1.

Definition sum (l : list float) : float := fold_left add l zero.

Definition spec_score (contribution : float -> float) (keywords : list string)
    (song_words game_words : list string) : float :=
  div (sum (map (fun keyword => contribution (sub_score song_words game_words keyword))
                keywords))
      (of_nat (length keywords)).

End Search.

(** "A sub-score that is below 0.7 contributes 0". *)
Definition floor_below (score : float) : float :=
  if ltb score seven_tenths then zero else score.

(** A sub-score that does not exceed 0.7 contributes 0. *)
Definition floor_up_to (score : float) : float :=
  if gtb score seven_tenths then score else zero.

End Rounded.

(** The loader of one document, taken on its own: the keys and the songs a
    document declares when every entry of it can be built. *)
Fixpoint entries_songs (sys : os) (path : string) (game : Game.t)
    (entries : list pydict) : result (list (pykey * Song.t)) :=
  match entries with
  | [] => Ok []
  | song :: entries' =>
      do newsong <- make_song sys path game song;
      match hash_key (Song.id newsong) with
      | None => Raise TypeError
      | Some key =>
          do rest <- entries_songs sys path game entries';
          Ok ((key, newsong) :: rest)
      end
  end.

(** The keys the entries of a document can be stored under: those of the
    entries that can be built. *)
Fixpoint entries_keys (sys : os) (path : string) (game : Game.t)
    (entries : list pydict) : list pykey :=
  match entries with
  | [] => []
  | song :: entries' =>
      match make_song sys path game song with
      | Ok newsong =>
          match hash_key (Song.id newsong) with
          | Some key => key :: entries_keys sys path game entries'
          | None => entries_keys sys path game entries'
          end
      | Raise _ => entries_keys sys path game entries'
      end
  end.

(** The header of a document: its directory, its game and its entries. *)
Definition document_header (sys : os) (metafilename : string)
  : result (string * Game.t * list pydict) :=
  do gamedata <- yaml_load sys metafilename;
  match doc_songs gamedata with
  | None => Raise (KeyError (PStr "songs"))
  | Some entries =>
      do game <- make_game
                   (if dict_contains String.eqb (fields gamedata) "series"
                    then fields gamedata
                    else dict_set String.eqb (fields gamedata) "series" PNone);
      Ok (path_dirname sys metafilename, game, entries)
  end.

Definition document_songs (sys : os) (metafilename : string)
  : result (list (pykey * Song.t)) :=
  do h <- document_header sys metafilename;
  let '(path, game, entries) := h in
  entries_songs sys path game entries.


(** The items of all the documents [files], in the order of the files, a
    document that cannot be loaded whole counting for nothing. *)
Definition declared (sys : os) (files : list string) : list (pykey * Song.t) :=
  flat_map (fun metafilename =>
              match document_songs sys metafilename with
              | Ok items => items
              | Raise _ => []
              end) files.

(** The assignments [self.songs[key] = song] for the items [items] in turn. *)
Definition set_all (d items : list (pykey * Song.t)) : list (pykey * Song.t) :=
  fold_left (fun d item => dict_set pykey_eqb d (fst item) (snd item)) items d.

(** The catalog states the class can be in. *)
Inductive reachable (sys : os) : MusicCat -> Prop :=
| reachable_init (library_path : string) (b1 b2 b3 : bool) :
    reachable sys (init sys library_path b1 b2 b3)
| reachable_refresh (self : MusicCat) :
    reachable sys self -> reachable sys (refresh_song_list sys self)
| reachable_import (self : MusicCat) (metafilename : string) :
    reachable sys self -> reachable sys (fst (_import_metadata sys self metafilename)).

(** The configuration of a catalog: what no import changes. *)
Definition config (self : MusicCat) : string * bool * bool :=
  (library_path self, disable_nobrstm_exception self, disable_id_conflict_exception self).

(** Every key of the song map is the id of the song stored under it. *)
Definition keys_are_ids (d : list (pykey * Song.t)) : Prop :=
  forall key song, In (key, song) d -> key_value key = Song.id song.

(** A title that is a string with at least one word in it. *)
Definition has_words (title : pyval) : Prop :=
  exists s, title = PStr s /\ split (lower s) <> [].

(** What the scoring of one song raises, if anything, in the order the lines
    of [search] come to it: a title or a game title that is no string has no
    [lower]; without a keyword the sum is divided by zero; with a keyword,
    [max] of the words of a title that has no word raises. *)
Definition song_error (keywords : list string) (song : Song.t) : option exn :=
  match Song.title song, Game.title (Song.game song) with
  | PStr title, PStr game_title =>
      match keywords with
      | [] => Some ZeroDivisionError
      | _ :: _ =>
          match split (lower title), split (lower game_title) with
          | _ :: _, _ :: _ => None
          | _, _ => Some ValueError
          end
      end
  | _, _ => Some AttributeError
  end.

(** Every song of the map has a file. *)
Definition files_exist (sys : os) (d : list (pykey * Song.t)) : Prop :=
  forall key song, In (key, song) d -> path_isfile sys (Song.fullpath song) = true.

(** The system [sys] with another [yaml.load]: the same directories and
    files, read by [load]. *)
Definition reloaded (sys : os) (load : string -> result document) : os :=
  mkOs (walk sys) (path_join sys) (path_dirname sys) (path_isfile sys) load.

(** The catalog [self] with another log. *)
Definition relog (self : MusicCat) (l : list log_record) : MusicCat :=
  mkMusicCat (library_path self) (disable_nobrstm_exception self)
    (disable_id_conflict_exception self) (songs self) l.

(** The cases of a comparison of two floats: of their exponents, then of their
    mantissas. *)
Ltac compare_cases :=
  repeat match goal with
  | |- context [Pos.compare_cont Eq ?a ?b] =>
      change (Pos.compare_cont Eq a b) with (Pos.compare a b)
  | |- context [Z.compare ?a ?b] => destruct (Z.compare_spec a b); simpl
  | |- context [Pos.compare ?a ?b] => destruct (Pos.compare_spec a b); simpl
  end.

(** The cases of the checks of one song. *)
Ltac add_song_cases self newsongs key newsong sys :=
  destruct (dict_get pykey_eqb (songs self) key);
  destruct (disable_id_conflict_exception self) eqn:?Ec;
  destruct (dict_contains pykey_eqb newsongs key) eqn:?En2;
  destruct (path_isfile sys (Song.fullpath newsong)) eqn:?Ef;
  destruct (disable_nobrstm_exception self) eqn:?En;
  simpl; rewrite ?Ec, ?En; simpl; rewrite ?Ec, ?En; simpl.

(* ------------------------------------------------------------------------- *)
(** * A small library, for evaluating the definitions *)
(* ------------------------------------------------------------------------- *)

Module Sample.

(** [posixpath.join] of a relative second part, [posixpath.dirname]. *)
Definition join (a b : string) : string :=
  if String.eqb a "" then b else a ++ "/" ++ b.

Fixpoint dirname_from (dir part s : string) : string :=
  match s with
  | EmptyString => dir
  | String c s' =>
      if Ascii.eqb c "/"%char then dirname_from (dir ++ part) "/" s'
      else dirname_from dir (part ++ String c "") s'
  end.

Definition dirname (s : string) : string := dirname_from "" "" s.

Definition game_fields (id title : string) : pydict :=
  [("id", PStr id); ("title", PStr title); ("platform", PStr "gb");
   ("year", PInt 1996); ("path", PStr id)].

Definition entry (id title file : string) (kind : string) : pydict :=
  [("id", PStr id); ("title", PStr title); ("path", PStr file); ("type", PStr kind)].

Definition red : document :=
  mkDocument (game_fields "red" "Pokemon Red")
    (Some [entry "theme01" "Opening Theme" "theme01.brstm" "theme";
           entry "battle" "Wild Battle" "battle.brstm" "battle"]).

Definition gold_entries : list pydict :=
  [entry "theme01" "Title Screen" "theme01.brstm" "theme";
   entry "town" "New Bark Town" "town.brstm" "town"].

Definition gold : document :=
  mkDocument (game_fields "gold" "Pokemon Gold") (Some gold_entries).

(** A third document, which has no songs key. *)
Definition broken : document :=
  mkDocument (game_fields "blue" "Pokemon Blue") None.

Definition crystal : document :=
  mkDocument (game_fields "crystal" "Pokemon Crystal")
    (Some [entry "surf" "Surf" "surf.brstm" "route"]).

Definition tree : list (string * list string) :=
  [("lib/red", ["metadata.yaml"; "cover.png"]);
   ("lib/gold", ["metadata.yaml"])].

Definition tree3 : list (string * list string) :=
  [("lib/red", ["metadata.yaml"; "cover.png"]);
   ("lib/blue", ["metadata.yaml"]);
   ("lib/crystal", ["metadata.yaml"])].

Definition load (metafilename : string) : result document :=
  if String.eqb metafilename "lib/red/metadata.yaml" then Ok red
  else if String.eqb metafilename "lib/gold/metadata.yaml" then Ok gold
  else if String.eqb metafilename "lib/blue/metadata.yaml" then Ok broken
  else if String.eqb metafilename "lib/crystal/metadata.yaml" then Ok crystal
  else Raise LoadError.

(** The system with the directories [dirs] under ["lib"], in which the files
    [present] exist. *)
Definition system (dirs : list (string * list string)) (present : list string) : os :=
  mkOs (fun top => if String.eqb top "lib" then dirs else [])
       join dirname
       (fun f => existsb (String.eqb f) present)
       load.

Definition all_files : list string :=
  ["lib/red/theme01.brstm"; "lib/red/battle.brstm";
   "lib/gold/theme01.brstm"; "lib/gold/town.brstm"; "lib/crystal/surf.brstm"].

(** The library with every song file in place, and the one in which the file
    of ["town"] is missing. *)
Definition complete : os := system tree all_files.

Definition no_town : os :=
  system tree ["lib/red/theme01.brstm"; "lib/red/battle.brstm"; "lib/gold/theme01.brstm"].

(** The library in which the file of the second ["theme01"] is missing. *)
Definition no_theme : os :=
  system tree ["lib/red/theme01.brstm"; "lib/red/battle.brstm"; "lib/gold/town.brstm"].

(** The library in which the file of ["battle"] is missing. *)
Definition no_battle : os :=
  system tree ["lib/red/theme01.brstm"; "lib/gold/theme01.brstm"; "lib/gold/town.brstm"].


(** The library with a third directory, whose [".yaml"] file is no document
    that [yaml.load] can read. *)
Definition with_notes : os :=
  system (tree ++ [("lib/notes", ["todo.yaml"; "todo.txt"])]) all_files.

(** The library of three documents in which the file of ["town"] alone is
    missing. *)
Definition town_missing : os :=
  system tree3 ["lib/red/theme01.brstm"; "lib/red/battle.brstm";
                "lib/gold/theme01.brstm"; "lib/crystal/surf.brstm"].

(** The catalog of the older module in the specification's threshold scenario. *)
Definition themes : list (string * nat) :=
  [("boss_theme", 1%nat); ("town_theme", 2%nat)].

(** One song whose title is the one word ["Victoryparade"]. *)
Definition parade : Song.t :=
  Song.mk (PStr "parade") (PStr "Victoryparade") (PStr "parade.brstm")
    (PList [PStr "theme"])
    (Game.mk (PStr "red") (PStr "Red") (PStr "gb") (PInt 1996) PNone (PStr "red"))
    "lib/red/parade.brstm".

Definition parade_catalog : MusicCat :=
  mkMusicCat "lib" false false [(KStr "parade", parade)] [].

(** One song of a game whose title is one replacement away from the keyword
    ["pokemons"]: a similarity of 14/16. *)
Definition edge : Song.t :=
  Song.mk (PStr "zzz") (PStr "zzz") (PStr "zzz.brstm") (PList [PStr "theme"])
    (Game.mk (PStr "pokemonx") (PStr "pokemonx") (PStr "gb") (PInt 1996) PNone
       (PStr "pokemonx"))
    "lib/pokemonx/zzz.brstm".

Definition edge_catalog : MusicCat :=
  mkMusicCat "lib" false false [(KStr "zzz", edge)] [].

(** Three songs of one game, for a result of more than one item. *)
Definition first : Song.t :=
  Song.mk (PStr "a") (PStr "Opening") (PStr "a.brstm") (PList [PStr "theme"])
    (Game.mk (PStr "red") (PStr "Red") (PStr "gb") (PInt 1996) PNone (PStr "red"))
    "lib/red/a.brstm".

Definition second : Song.t :=
  Song.mk (PStr "b") (PStr "Battles") (PStr "b.brstm") (PList [PStr "battle"])
    (Game.mk (PStr "red") (PStr "Red") (PStr "gb") (PInt 1996) PNone (PStr "red"))
    "lib/red/b.brstm".

Definition third : Song.t :=
  Song.mk (PStr "c") (PStr "Battle") (PStr "c.brstm") (PList [PStr "battle"])
    (Game.mk (PStr "red") (PStr "Red") (PStr "gb") (PInt 1996) PNone (PStr "red"))
    "lib/red/c.brstm".

Definition three_catalog : MusicCat :=
  mkMusicCat "lib" false false
    [(KStr "a", first); (KStr "c", third); (KStr "b", second)] [].

(** A catalog with the given two flags, before any refresh. *)
Definition empty (disable_nobrstm_exception disable_id_conflict_exception : bool)
  : MusicCat :=
  mkMusicCat "lib" disable_nobrstm_exception disable_id_conflict_exception [] [].

(** The catalog after the import of the first document alone. *)
Definition after_red (sys : os) (b1 b2 : bool) : MusicCat :=
  fst (_import_metadata sys (empty b1 b2) "lib/red/metadata.yaml").

(** The catalog after the import of the document of ["surf"] alone. *)
Definition after_crystal (sys : os) (b1 b2 : bool) : MusicCat :=
  fst (_import_metadata sys (empty b1 b2) "lib/crystal/metadata.yaml").

Definition gold_game : Game.t :=
  Game.mk (PStr "gold") (PStr "Pokemon Gold") (PStr "gb") (PInt 1996) PNone (PStr "gold").

Definition gold_theme : Song.t :=
  Song.mk (PStr "theme01") (PStr "Title Screen") (PStr "theme01.brstm")
    (PList [PStr "theme"]) gold_game "lib/gold/theme01.brstm".

Definition gold_town : Song.t :=
  Song.mk (PStr "town") (PStr "New Bark Town") (PStr "town.brstm")
    (PList [PStr "town"]) gold_game "lib/gold/town.brstm".

Definition surf : Song.t :=
  Song.mk (PStr "surf") (PStr "Surf") (PStr "surf.brstm") (PList [PStr "route"])
    (Game.mk (PStr "crystal") (PStr "Pokemon Crystal") (PStr "gb") (PInt 1996) PNone
       (PStr "crystal"))
    "lib/crystal/surf.brstm".

End Sample.

(* ------------------------------------------------------------------------- *)
(** * [src/musiccat/__init__.py]: playback *)
(* ------------------------------------------------------------------------- *)

(** The calls the class makes on [self.winamp] and on [subprocess.Popen].  The
    module [winamp] is imported by the package and is no part of it; the model
    records the calls, oldest first. *)
Inductive command : Type :=
| Stop
| ClearPlaylist
| Popen (args : string)
| SetVolume (level : Binary64.float)
| Pause
| Play.

(** The fields of [MusicCat] that playback uses: [self.winamp_path],
    [self.paused], the calls made so far, and the songs [self.log.info] was
    given. *)
Record Playback : Type := mkPlayback
  { winamp_path : string;
    paused : bool;
    sent : list command;
    now_playing : list Song.t }.

(** [MusicCat.__init__] leaves [self.paused = False]. *)
Definition new_playback (winamp_path : string) : Playback :=
  mkPlayback winamp_path false [] [].

Definition send (self : Playback) (c : command) : Playback :=
  mkPlayback (winamp_path self) (paused self) (sent self ++ [c]) (now_playing self).

(** The character that opens and closes the two parts of the command line. *)
Definition quote : string := String (ascii_of_nat 34) EmptyString.

(** [MusicCat._play_file(self, songfile)] *)
Definition _play_file (self : Playback) (songfile : string) : Playback :=
  let self := send self Stop in
  let self := send self ClearPlaylist in
  send self (Popen (quote ++ winamp_path self ++ quote ++ " " ++ quote ++ songfile ++ quote)).

(** [MusicCat.play_song(self, song_id)], for a [song_id] that is a string. *)
Definition play_song (catalog : MusicCat) (self : Playback) (song_id : string)
  : Playback * option exn :=
  if negb (dict_contains pykey_eqb (songs catalog) (KStr song_id))
  then (self, Some (NoMatchError song_id))
  else
    match dict_get pykey_eqb (songs catalog) (KStr song_id) with
    | None => (self, Some (KeyError (PStr song_id)))
    | Some nextsong =>
        let self := _play_file self (Song.fullpath nextsong) in
        (mkPlayback (winamp_path self) (paused self) (sent self)
           (now_playing self ++ [nextsong]), None)
    end.


(** [MusicCat.pause(self)] *)
Definition pause (self : Playback) : Playback :=
  let self := send self Pause in
  mkPlayback (winamp_path self) true (sent self) (now_playing self).

(** [MusicCat.unpause(self)] *)
Definition unpause (self : Playback) : Playback :=
  if paused self then
    let self := send self Play in
    mkPlayback (winamp_path self) false (sent self) (now_playing self)
  else self.

(** A caller's sequence of [pause] and [unpause] calls. *)
Inductive transport : Type :=
| call_pause
| call_unpause.

Definition call (self : Playback) (t : transport) : Playback :=
  match t with
  | call_pause => pause self
  | call_unpause => unpause self
  end.

Definition calls (self : Playback) (ts : list transport) : Playback :=
  fold_left call ts self.

Definition count_command (c : command) (l : list command) : nat :=
  length (filter (fun c' =>
                    match c, c' with
                    | Pause, Pause => true
                    | Play, Play => true
                    | _, _ => false
                    end) l).

(* ------------------------------------------------------------------------- *)
(** * [src/musiccat.py]: the other methods *)
(* ------------------------------------------------------------------------- *)

Module LegacyCatalog.

(** [s.find(c)] for a one-character [c]: the first index, if any. *)
Fixpoint find (c : ascii) (s : string) : option nat :=
  match s with
  | EmptyString => None
  | String c' s' =>
      if Ascii.eqb c' c then Some 0%nat
      else match find c s' with
           | Some n => Some (S n)
           | None => None
           end
  end.

(** [s.split(c)] for a one-character [c]; [part] is the part being read. *)
Fixpoint split_on (c : ascii) (part : string) (s : string) : list string :=
  match s with
  | EmptyString => [part]
  | String c' s' =>
      if Ascii.eqb c' c then part :: split_on c "" s'
      else split_on c (part ++ String c' "") s'
  end.

Section Info.

Context {Song : Type}.

(** [MusicCat.get_song_info(self, songid)] *)
Definition get_song_info (songs : list (string * Song)) (songid : string) : result Song :=
  do songid <-
    match find "-"%char songid with
    | Some (S _) =>
        match split_on "-"%char "" songid with
        | [gameid; songid] => Ok songid
        | _ => Raise ValueError
        end
    | _ => Ok songid
    end;
  Legacy.getitem songs (Some songid).

End Info.

End LegacyCatalog.

Module LegacyImport.

(** A song of [src/musiccat.py] is the dictionary of its entry, as
    [import_metadata] leaves it: [items] are its keys other than ["game"], and
    [game] is the dictionary stored under ["game"]. *)
Record song : Type := mkSong
  { items : pydict;
    game : pydict }.

(** What the module writes with [self.log.warn] and with [print]. *)
Inductive written : Type :=
| Warn_twice (song_id old_game_id game_id : pyval)
| Warn_twice_same_game (song_id game_id : pyval)
| Print_exception (metafilename : string) (e : exn).

Record MusicCat : Type := mkMusicCat
  { songs : list (pykey * song);
    log : list written }.

(** [d[k]] *)
Definition getitem (d : pydict) (k : string) : result pyval :=
  match dict_get String.eqb d k with
  | Some v => Ok v
  | None => Raise (KeyError (PStr k))
  end.

(** [hash(v)], for a key of a dictionary *)
Definition hashed (v : pyval) : result pykey :=
  match hash_key v with
  | Some k => Ok k
  | None => Raise TypeError
  end.

(** [os.path.join(path, p)] *)
Definition joined (sys : os) (path : string) (p : pyval) : result string :=
  match p with
  | PStr p => Ok (path_join sys path p)
  | _ => Raise TypeError
  end.

(** The body of the loop [for song in songs] of [import_metadata]: the log,
    and the local dictionary [newsongs], after one entry. *)
Definition add_entry (sys : os) (self : MusicCat) (path : string)
    (gamedata : pydict) (gameid : pyval)
    (state : list written * list (pykey * song)) (entry : pydict)
  : list written * result (list (pykey * song)) :=
  let '(out, newsongs) := state in
  match (do id <- getitem entry "id"; do key <- hashed id; Ok (id, key)) with
  | Raise e => (out, Raise e)
  | Ok (id, key) =>
      let warned :=
        match dict_get pykey_eqb (songs self) key with
        | Some old =>
            do old_game_id <- getitem (game old) "id";
            Ok (out ++ [Warn_twice id old_game_id gameid])
        | None => Ok out
        end in
      match warned with
      | Raise e => (out, Raise e)
      | Ok out =>
          let out :=
            if dict_contains pykey_eqb newsongs key
            then out ++ [Warn_twice_same_game id gameid] else out in
          match (do p <- getitem entry "path"; joined sys path p) with
          | Raise e => (out, Raise e)
          | Ok fullpath =>
              let song := dict_set String.eqb entry "fullpath" (PStr fullpath) in
              let song := dict_remove String.eqb song "game" in
              let song :=
                match dict_get String.eqb song "type" with
                | Some ty =>
                    dict_set String.eqb (dict_remove String.eqb song "type")
                      "types" (PList [ty])
                | None => song
                end in
              (out, Ok (dict_set pykey_eqb newsongs key (mkSong song gamedata)))
          end
      end
  end.

Fixpoint add_entries (sys : os) (self : MusicCat) (path : string)
    (gamedata : pydict) (gameid : pyval)
    (state : list written * list (pykey * song)) (entries : list pydict)
  : list written * result (list (pykey * song)) :=
  match entries with
  | [] => (fst state, Ok (snd state))
  | entry :: entries' =>
      match add_entry sys self path gamedata gameid state entry with
      | (out, Raise e) => (out, Raise e)
      | (out, Ok newsongs) =>
          add_entries sys self path gamedata gameid (out, newsongs) entries'
      end
  end.

(** [self.songs.update(newsongs)] *)
Definition update (d newsongs : list (pykey * song)) : list (pykey * song) :=
  fold_left (fun d item => dict_set pykey_eqb d (fst item) (snd item)) newsongs d.

(** [MusicCat.import_metadata(self, metafilename)] *)
Definition import_metadata (sys : os) (self : MusicCat) (metafilename : string)
  : MusicCat * option exn :=
  match yaml_load sys metafilename with
  | Raise e => (self, Some e)
  | Ok gamedata =>
      let path := path_dirname sys metafilename in
      match getitem (fields gamedata) "id" with
      | Raise e => (self, Some e)
      | Ok gameid =>
          match getitem (fields gamedata) "platform" with
          | Raise e => (self, Some e)
          | Ok system =>
              match doc_songs gamedata with
              | None => (self, Some (KeyError (PStr "songs")))
              | Some entries =>
                  match add_entries sys self path (fields gamedata) gameid
                          (log self, []) entries with
                  | (out, Raise e) => (mkMusicCat (songs self) out, Some e)
                  | (out, Ok newsongs) =>
                      (mkMusicCat (update (songs self) newsongs) out, None)
                  end
              end
          end
      end
  end.

(** [MusicCat.refresh_song_list(self, root_path)] *)
Definition refresh_song_list (sys : os) (self : MusicCat) (root_path : string)
  : MusicCat :=
  fold_left
    (fun self metafilename =>
       match import_metadata sys self metafilename with
       | (self', Some e) =>
           mkMusicCat (songs self') (log self' ++ [Print_exception metafilename e])
       | (self', None) => self'
       end)
    (metafiles sys root_path)
    (mkMusicCat [] (log self)).

(** The song under [key] after the documents' songs are stored in turn. *)
Definition last_of (newsongs : list (pykey * song)) (key : pykey) : option song :=
  dict_get pykey_eqb (rev newsongs) key.

End LegacyImport.

(* ------------------------------------------------------------------------- *)
(** * Properties of the similarity function *)
(* ------------------------------------------------------------------------- *)

Section DistanceFacts.

Import Levenshtein.

Lemma distance_nil_r (a : list ascii) : distance a [] = length a.
Proof. destruct a; reflexivity. Qed.

Lemma distance_cons (x y : ascii) (a b : list ascii) :
  distance (x :: a) (y :: b) =
  if Ascii.eqb x y then distance a b
  else S (Nat.min (distance a (y :: b)) (distance (x :: a) b)).
Proof. reflexivity. Qed.

Lemma distance_sym (a b : list ascii) : distance a b = distance b a.
Proof.
  revert b; induction a as [|x a IHa]; intro b.
  - now rewrite distance_nil_r.
  - induction b as [|y b IHb].
    + reflexivity.
    + rewrite !distance_cons, (Ascii.eqb_sym y x).
      destruct (Ascii.eqb x y).
      * apply IHa.
      * now rewrite IHb, (IHa (y :: b)), Nat.min_comm.
Qed.

Lemma distance_le (a b : list ascii) : (distance a b <= length a + length b)%nat.
Proof.
  revert b; induction a as [|x a IHa]; intro b.
  - simpl; lia.
  - induction b as [|y b IHb].
    + simpl; lia.
    + rewrite distance_cons. destruct (Ascii.eqb x y).
      * specialize (IHa b); simpl; lia.
      * specialize (IHa (y :: b)); simpl in *; lia.
Qed.

Lemma distance_refl (a : list ascii) : distance a a = 0%nat.
Proof.
  induction a as [|x a IHa]; [reflexivity|].
  now rewrite distance_cons, Ascii.eqb_refl.
Qed.

(** One character more in either string moves the distance by one at most. *)
Lemma distance_step (n : nat) :
  forall a b : list ascii, (length a + length b <= n)%nat ->
    (forall y, distance a b <= S (distance a (y :: b)))%nat /\
    (forall x, distance (x :: a) b <= S (distance a b))%nat.
Proof.
  induction n as [|n IHn]; intros a b Hn.
  - destruct a, b; simpl in Hn; try lia. split; intros; simpl; lia.
  - split.
    + intro y. destruct a as [|z a].
      * simpl; lia.
      * rewrite distance_cons. destruct (Ascii.eqb z y).
        -- apply (IHn a b); simpl in Hn; lia.
        -- destruct (IHn a b) as [HB HC]; [simpl in Hn; lia|].
           specialize (HB y). specialize (HC z). lia.
    + intro x. destruct b as [|y b].
      * rewrite !distance_nil_r. simpl; lia.
      * rewrite distance_cons. destruct (Ascii.eqb x y).
        -- apply (IHn a b). simpl in Hn; lia.
        -- lia.
Qed.

Lemma distance_more_r (y : ascii) (a b : list ascii) :
  (distance a b <= S (distance a (y :: b)))%nat.
Proof. now apply (distance_step (length a + length b)). Qed.

Lemma distance_cons_le (x : ascii) (a b : list ascii) :
  (distance (x :: a) b <= S (distance a b))%nat.
Proof. now apply (distance_step (length a + length b)). Qed.

Lemma weighted_distance_cons (x y : ascii) (a b : list ascii) :
  weighted_distance (x :: a) (y :: b) =
  Nat.min (Nat.min (S (weighted_distance a (y :: b))) (S (weighted_distance (x :: a) b)))
          ((if Ascii.eqb x y then 0 else 2) + weighted_distance a b).
Proof. reflexivity. Qed.

(** The distance is the edit distance in which a replacement costs 2. *)
Lemma distance_weighted (a b : list ascii) : weighted_distance a b = distance a b.
Proof.
  revert b; induction a as [|x a IHa]; intro b; [reflexivity|].
  induction b as [|y b IHb]; [reflexivity|].
  rewrite weighted_distance_cons, distance_cons, IHb, !IHa.
  pose proof (distance_more_r y a b) as H1.
  pose proof (distance_more_r x b a) as H2.
  rewrite (distance_sym b a), (distance_sym b (x :: a)) in H2.
  pose proof (distance_cons_le y b a) as H3.
  rewrite (distance_sym (y :: b) a), (distance_sym b a) in H3.
  destruct (Ascii.eqb x y); lia.
Qed.

End DistanceFacts.

Section RatioFacts.

Import Levenshtein.

Lemma length_list_ascii (s : string) :
  length (list_ascii_of_string s) = String.length s.
Proof. induction s as [|c s IH]; simpl; congruence. Qed.

Lemma Zpos_of_nat (n : nat) : n <> 0%nat -> Z.pos (Pos.of_nat n) = Z.of_nat n.
Proof.
  destruct n as [|n]; [contradiction|]. intros _.
  rewrite <- Pos.of_nat_succ, Zpos_P_of_succ_nat. lia.
Qed.

Lemma ratio_nonempty (a b : string) :
  lensum a b <> 0%nat ->
  ratio a b ==
  Z.of_nat (lensum a b - distance (list_ascii_of_string a) (list_ascii_of_string b))
  # Pos.of_nat (lensum a b).
Proof.
  intro H. unfold ratio. destruct (Nat.eqb_spec (lensum a b) 0); [contradiction|].
  apply Qred_correct.
Qed.

Lemma ratio_range (a b : string) : 0 <= ratio a b /\ ratio a b <= 1.
Proof.
  destruct (Nat.eq_dec (lensum a b) 0) as [E|E].
  - unfold ratio. rewrite E. simpl. split; discriminate.
  - rewrite (ratio_nonempty a b E). unfold Qle; simpl. split.
    + lia.
    + rewrite (Zpos_of_nat _ E). lia.
Qed.

Lemma ratio_sym (a b : string) : ratio a b = ratio b a.
Proof.
  unfold ratio, lensum. rewrite (Nat.add_comm (String.length b)).
  now rewrite (distance_sym (list_ascii_of_string b)).
Qed.

Lemma ratio_self (s : string) : ratio s s = 1.
Proof.
  unfold ratio. destruct (Nat.eqb_spec (lensum s s) 0) as [E|E]; [reflexivity|].
  rewrite distance_refl, Nat.sub_0_r.
  change 1 with (Qred 1). apply Qred_complete.
  unfold Qeq; simpl. rewrite (Zpos_of_nat _ E). lia.
Qed.

End RatioFacts.

(** C9. The similarity function [Levenshtein.ratio] returns a ratio between 0
    and 1; a non-empty string has similarity 1 with itself; and the similarity
    of [a] and [b] is that of [b] and [a]. *)
Theorem similarity_range_self_sym (a b : string) :
  (0 <= Levenshtein.ratio a b /\ Levenshtein.ratio a b <= 1)
  /\ (a <> "" -> Levenshtein.ratio a a = 1)
  /\ Levenshtein.ratio a b = Levenshtein.ratio b a.
Proof.
  split; [apply ratio_range|]. split; [intros _; apply ratio_self|apply ratio_sym].
Qed.

Lemma similarity_range_self_sym_witness :
  (0 <= Levenshtein.ratio "boss_them" "boss_theme"
   /\ Levenshtein.ratio "boss_them" "boss_theme" <= 1)
  /\ Levenshtein.ratio "boss_them" "boss_them" = 1
  /\ Levenshtein.ratio "boss_them" "boss_theme" = Levenshtein.ratio "boss_theme" "boss_them".
Proof.
  destruct (similarity_range_self_sym "boss_them" "boss_theme") as [Hr [Hs Hc]].
  split; [exact Hr|]. split; [|exact Hc].
  apply Hs. discriminate.
Defined.

(* ------------------------------------------------------------------------- *)
(** * Resolving one song id ([src/musiccat.py]) *)
(* ------------------------------------------------------------------------- *)

Section LegacyFacts.

Context {Song : Type}.
Variable ratio : string -> string -> Q.
Variables minimum_autocorrect_ratio minimum_match_ratio : option Q.

Lemma dict_get_of_key (songs : list (string * Song)) (k : string) :
  In k (dict_keys songs) -> exists song, dict_get String.eqb songs k = Some song.
Proof.
  induction songs as [|[k' v] songs IH]; simpl; [contradiction|].
  intros [E|H].
  - subst. rewrite String.eqb_refl. now exists v.
  - destruct (String.eqb k' k); [now exists v|auto].
Qed.

(** The loop leaves the largest ratio of the keys in [best_ratio]. *)
Lemma best_of_ratio (keys : list string) (songid : string) (r : Q) (m : option string) :
  fst (Legacy.best_of ratio keys songid r m) =
  fold_left py_max2 (map (ratio songid) keys) r.
Proof.
  revert r m; induction keys as [|s keys IH]; intros r m; [reflexivity|].
  simpl. unfold py_max2 at 2. destruct (Qgtb (ratio songid s) r); apply IH.
Qed.

(** What [search] does with an id that is no key, by the best ratio. *)
Lemma search_miss (songs : list (string * Song)) (songid : string) :
  dict_get String.eqb songs songid = None ->
  Legacy.search ratio minimum_autocorrect_ratio minimum_match_ratio songs songid =
  let best := Legacy.best_of ratio (dict_keys songs) songid 0 None in
  do autocorrect_ratio <- Legacy.getattr minimum_autocorrect_ratio;
  if Qltb (fst best) autocorrect_ratio
  then Raise (NameError "BadMatchError")
  else
    do match_ratio <- Legacy.getattr minimum_match_ratio;
    if Qltb (fst best) match_ratio
    then Raise (NoMatchError songid)
    else Legacy.getitem songs (snd best).
Proof.
  intro H. unfold Legacy.search. rewrite H.
  now destruct (Legacy.best_of ratio (dict_keys songs) songid 0 None).
Qed.

End LegacyFacts.

(** C5. An id that is a key of the catalog is answered with the song stored
    under it, whatever the similarity function and the two thresholds are,
    and whether the thresholds were ever set or not: the exact path reads
    neither. *)
Theorem exact_id_returns_its_song {Song : Type} (songs : list (string * Song))
    (songid : string) :
  In songid (dict_keys songs) ->
  exists song,
    dict_get String.eqb songs songid = Some song /\
    forall (ratio : string -> string -> Q)
           (minimum_autocorrect_ratio minimum_match_ratio : option Q),
      Legacy.search ratio minimum_autocorrect_ratio minimum_match_ratio songs songid
      = Ok song.
Proof.
  intro H. destruct (dict_get_of_key songs songid H) as [song E].
  exists song. split; [exact E|]. intros. unfold Legacy.search. now rewrite E.
Qed.

Lemma exact_id_returns_its_song_witness :
  exists song,
    dict_get String.eqb Sample.themes "town_theme" = Some song /\
    forall (ratio : string -> string -> Q)
           (minimum_autocorrect_ratio minimum_match_ratio : option Q),
      Legacy.search ratio minimum_autocorrect_ratio minimum_match_ratio
        Sample.themes "town_theme" = Ok song.
Proof.
  apply (exact_id_returns_its_song Sample.themes "town_theme").
  simpl. right. left. reflexivity.
Defined.

(** C1, evaluated.  With the thresholds set to 0.3 and 0.8 and the keys
    ["boss_theme"] and ["town_theme"], an id that resembles no key (best ratio
    0) reaches the statement that was to raise the error with the suggestion,
    [raise BadMatchError(songid, best_match)], which raises [NameError]
    because the module has no [BadMatchError]; and an id whose best ratio 4/7
    lies between the thresholds raises [NoMatchError]: the two errors stand in
    each other's tier, and no suggestion is ever delivered.  Only an id whose
    best ratio reaches the higher threshold is answered as claimed.  With the
    thresholds as the module leaves them, never set, an id that is no key
    raises [AttributeError]. *)
Theorem search_tiers_swapped :
  Legacy.search Levenshtein.ratio (Some (3 # 10)) (Some (8 # 10)) Sample.themes "xyz123"
  = Raise (NameError "BadMatchError")
  /\ Levenshtein.ratio "boss" "boss_theme" = 4 # 7
  /\ Legacy.search Levenshtein.ratio (Some (3 # 10)) (Some (8 # 10)) Sample.themes "boss"
     = Raise (NoMatchError "boss")
  /\ Legacy.search Levenshtein.ratio (Some (3 # 10)) (Some (8 # 10)) Sample.themes
       "boss_them"
     = Ok 1%nat
  /\ Legacy.search Levenshtein.ratio None None Sample.themes "xyz123"
     = Raise AttributeError.
Proof. repeat split; vm_compute; reflexivity. Qed.

(* ------------------------------------------------------------------------- *)
(** * Dictionaries keyed by song ids *)
(* ------------------------------------------------------------------------- *)

Lemma pykey_eqb_eq (j k : pykey) : pykey_eqb j k = true <-> j = k.
Proof.
  destruct j, k; simpl; split; intro H; try discriminate; try reflexivity.
  - apply String.eqb_eq in H. now subst.
  - injection H as ->. apply String.eqb_refl.
  - apply Z.eqb_eq in H. now subst.
  - injection H as ->. apply Z.eqb_refl.
Qed.

Lemma pykey_eqb_refl (k : pykey) : pykey_eqb k k = true.
Proof. now apply pykey_eqb_eq. Qed.

Lemma pykey_eqb_neq (j k : pykey) : pykey_eqb j k = false <-> j <> k.
Proof.
  split.
  - intros H E. apply pykey_eqb_eq in E. congruence.
  - intro H. destruct (pykey_eqb j k) eqn:E; [|reflexivity].
    apply pykey_eqb_eq in E. contradiction.
Qed.

Lemma hash_key_value (v : pyval) (k : pykey) : hash_key v = Some k -> key_value k = v.
Proof. destruct v; simpl; intro H; inversion H; reflexivity. Qed.

Section CatalogDict.

Context {V : Type}.
Implicit Types (d : list (pykey * V)) (k : pykey) (v : V).

Lemma get_set_same d k v : dict_get pykey_eqb (dict_set pykey_eqb d k v) k = Some v.
Proof.
  induction d as [|[k' v'] d IH]; simpl.
  - now rewrite pykey_eqb_refl.
  - destruct (pykey_eqb k' k) eqn:E; simpl; rewrite E; auto.
Qed.

Lemma get_set_other d j k v :
  j <> k -> dict_get pykey_eqb (dict_set pykey_eqb d k v) j = dict_get pykey_eqb d j.
Proof.
  intro H. induction d as [|[k' v'] d IH]; simpl.
  - apply not_eq_sym in H. apply pykey_eqb_neq in H. now rewrite H.
  - destruct (pykey_eqb k' k) eqn:E; simpl.
    + apply pykey_eqb_eq in E. subst k'. apply not_eq_sym in H.
      apply pykey_eqb_neq in H. now rewrite H.
    + destruct (pykey_eqb k' j); auto.
Qed.

Lemma in_dict_set d k v (e : pykey * V) :
  In e (dict_set pykey_eqb d k v) -> e = (k, v) \/ In e d.
Proof.
  induction d as [|[k' v'] d IH]; simpl.
  - intros [H|[]]; auto.
  - destruct (pykey_eqb k' k) eqn:E; simpl.
    + apply pykey_eqb_eq in E. subst k'. intros [H|H]; auto.
    + intros [H|H]; auto. destruct (IH H); auto.
Qed.

(** Assigning to a key that is not there appends the item. *)
Lemma dict_set_fresh d k v :
  dict_get pykey_eqb d k = None -> dict_set pykey_eqb d k v = d ++ [(k, v)].
Proof.
  induction d as [|[k' v'] d IH]; simpl; [reflexivity|].
  destruct (pykey_eqb k' k); [discriminate|]. intro H. now rewrite IH.
Qed.

Lemma dict_get_app d d' k :
  dict_get pykey_eqb (d ++ d') k =
  match dict_get pykey_eqb d k with
  | Some v => Some v
  | None => dict_get pykey_eqb d' k
  end.
Proof.
  induction d as [|[k' v'] d IH]; simpl; [reflexivity|].
  destruct (pykey_eqb k' k); auto.
Qed.

Lemma dict_get_in d k v : dict_get pykey_eqb d k = Some v -> In (k, v) d.
Proof.
  induction d as [|[k' v'] d IH]; simpl; [discriminate|].
  destruct (pykey_eqb k' k) eqn:E.
  - apply pykey_eqb_eq in E. subst. intro H. inversion H. now left.
  - auto.
Qed.

Lemma dict_get_none d k :
  dict_get pykey_eqb d k = None <-> ~ In k (dict_keys d).
Proof.
  induction d as [|[k' v'] d IH]; simpl.
  - tauto.
  - destruct (pykey_eqb k' k) eqn:E.
    + apply pykey_eqb_eq in E. split; [discriminate|]. intro H. exfalso. auto.
    + apply pykey_eqb_neq in E. rewrite IH. tauto.
Qed.

End CatalogDict.

(* ------------------------------------------------------------------------- *)
(** * What an import changes *)
(* ------------------------------------------------------------------------- *)

Section ImportFacts.

Variable sys : os.

Lemma add_song_songs self newsongs game newsong :
  songs (fst (add_song sys self newsongs game newsong)) = songs self
  \/ exists key,
       hash_key (Song.id newsong) = Some key /\
       snd (add_song sys self newsongs game newsong) = None /\
       songs (fst (add_song sys self newsongs game newsong))
       = dict_set pykey_eqb (songs self) key newsong.
Proof.
  unfold add_song. destruct (hash_key (Song.id newsong)) as [key|]; [|now left].
  destruct (dict_get pykey_eqb (songs self) key) as [old|];
    destruct (disable_id_conflict_exception self) eqn:Ec;
    destruct (dict_contains pykey_eqb newsongs key);
    destruct (path_isfile sys (Song.fullpath newsong));
    destruct (disable_nobrstm_exception self) eqn:En;
    simpl; rewrite ?Ec, ?En; simpl; rewrite ?Ec, ?En; simpl;
    first [now left | right; exists key; auto].
Qed.

Lemma add_song_config self newsongs game newsong :
  config (fst (add_song sys self newsongs game newsong)) = config self.
Proof.
  unfold add_song. destruct (hash_key (Song.id newsong)) as [key|]; [|reflexivity].
  destruct (dict_get pykey_eqb (songs self) key) as [old|];
    destruct (disable_id_conflict_exception self) eqn:Ec;
    destruct (dict_contains pykey_eqb newsongs key);
    destruct (path_isfile sys (Song.fullpath newsong));
    destruct (disable_nobrstm_exception self) eqn:En;
    simpl; rewrite ?Ec, ?En; simpl; rewrite ?Ec, ?En; reflexivity.
Qed.

Lemma import_songs_config self newsongs path game entries :
  config (fst (import_songs sys self newsongs path game entries)) = config self.
Proof.
  revert self; induction entries as [|song entries IH]; intro self; [reflexivity|].
  simpl. destruct (make_song sys path game song) as [newsong|e]; [|reflexivity].
  pose proof (add_song_config self newsongs game newsong) as H.
  destruct (add_song sys self newsongs game newsong) as [self' [e|]]; [exact H|].
  rewrite IH. exact H.
Qed.

Lemma import_metadata_config self metafilename :
  config (fst (_import_metadata sys self metafilename)) = config self.
Proof.
  unfold _import_metadata. destruct (yaml_load sys metafilename) as [doc|e]; [|reflexivity].
  destruct (doc_songs doc) as [entries|]; [|reflexivity].
  destruct (make_game _) as [game|e]; [|reflexivity].
  apply import_songs_config.
Qed.

Lemma try_import_config self metafilename :
  config (try_import sys self metafilename) = config self.
Proof.
  unfold try_import. pose proof (import_metadata_config self metafilename) as H.
  destruct (_import_metadata sys self metafilename) as [self' [e|]]; exact H.
Qed.

Lemma import_all_config files self :
  config (import_all sys self files) = config self.
Proof.
  unfold import_all.
  revert self; induction files as [|m files IH]; intro self; [reflexivity|].
  simpl. rewrite IH. apply try_import_config.
Qed.

End ImportFacts.

(** Every song an import stores is stored under its own id: a property of the
    catalog that these assignments keep is kept by every import. *)
Section Preservation.

Variable sys : os.
Variable P : list (pykey * Song.t) -> Prop.
Hypothesis P_set : forall d key newsong,
  hash_key (Song.id newsong) = Some key -> P d -> P (dict_set pykey_eqb d key newsong).

Lemma add_song_keeps self newsongs game newsong :
  P (songs self) -> P (songs (fst (add_song sys self newsongs game newsong))).
Proof.
  intro H. destruct (add_song_songs sys self newsongs game newsong) as [E|[key [Hk [_ E]]]];
    rewrite E; auto.
Qed.

Lemma import_songs_keeps self newsongs path game entries :
  P (songs self) -> P (songs (fst (import_songs sys self newsongs path game entries))).
Proof.
  revert self; induction entries as [|song entries IH]; intros self H; [exact H|].
  simpl. destruct (make_song sys path game song) as [newsong|e]; [|exact H].
  pose proof (add_song_keeps self newsongs game newsong H) as H'.
  destruct (add_song sys self newsongs game newsong) as [self' [e|]]; [exact H'|].
  apply IH. exact H'.
Qed.

Lemma import_metadata_keeps self metafilename :
  P (songs self) -> P (songs (fst (_import_metadata sys self metafilename))).
Proof.
  intro H. unfold _import_metadata.
  destruct (yaml_load sys metafilename) as [doc|e]; [|exact H].
  destruct (doc_songs doc) as [entries|]; [|exact H].
  destruct (make_game _) as [game|e]; [|exact H].
  now apply import_songs_keeps.
Qed.

Lemma try_import_songs self metafilename :
  songs (try_import sys self metafilename)
  = songs (fst (_import_metadata sys self metafilename)).
Proof.
  unfold try_import.
  now destruct (_import_metadata sys self metafilename) as [self' [e|]].
Qed.

Lemma import_all_keeps files self :
  P (songs self) -> P (songs (import_all sys self files)).
Proof.
  unfold import_all.
  revert self; induction files as [|m files IH]; intros self H; [exact H|].
  simpl. apply IH. rewrite try_import_songs. now apply import_metadata_keeps.
Qed.

Lemma refresh_keeps self :
  P [] -> P (songs (refresh_song_list sys self)).
Proof.
  intro H. unfold refresh_song_list.
  assert (P (songs (import_all sys (set_songs self [])
                      (metafiles sys (library_path (set_songs self [])))))) as H'
    by now apply import_all_keeps.
  now destruct (Nat.eqb _ 0).
Qed.

End Preservation.

Lemma keys_are_ids_set d key newsong :
  hash_key (Song.id newsong) = Some key ->
  keys_are_ids d -> keys_are_ids (dict_set pykey_eqb d key newsong).
Proof.
  intros Hk Hd k v Hin. apply in_dict_set in Hin. destruct Hin as [E|Hin].
  - inversion E; subst. now apply hash_key_value.
  - now apply Hd.
Qed.

(** C8. In every catalog reached through construction, refresh and document
    import (also an import or a refresh that met errors), every key of the
    song map is the [id] field of the song stored under that key. *)
Theorem song_keys_are_song_ids (sys : os) (self : MusicCat) :
  reachable sys self ->
  forall key song, In (key, song) (songs self) -> key_value key = Song.id song.
Proof.
  intro H. change (keys_are_ids (songs self)).
  induction H as [library_path b1 b2 b3|self H IH|self metafilename H IH].
  - unfold init. destruct b3.
    + intros k v [].
    + apply refresh_keeps; [apply keys_are_ids_set|intros k v []].
  - apply refresh_keeps; [apply keys_are_ids_set|intros k v []].
  - apply import_metadata_keeps; [apply keys_are_ids_set|exact IH].
Qed.

Lemma song_keys_are_song_ids_witness :
  Forall (fun item => key_value (fst item) = Song.id (snd item))
    (songs (refresh_song_list Sample.no_town (init Sample.no_town "lib" true true false))).
Proof.
  apply Forall_forall. intros [key song] Hin.
  apply (song_keys_are_song_ids Sample.no_town
           (refresh_song_list Sample.no_town (init Sample.no_town "lib" true true false))
           (reachable_refresh Sample.no_town _
              (reachable_init Sample.no_town "lib" true true false))).
  exact Hin.
Defined.

(* ------------------------------------------------------------------------- *)
(** * The checks of one song entry *)
(* ------------------------------------------------------------------------- *)

Section CheckFacts.

Variable sys : os.

(** The outcome of the checks of a song whose id is hashable: what is raised,
    and what the song map is afterwards. *)
Lemma add_song_outcome self game newsong key :
  hash_key (Song.id newsong) = Some key ->
  let conflict := dict_contains pykey_eqb (songs self) key in
  let missing := negb (path_isfile sys (Song.fullpath newsong)) in
  snd (add_song sys self [] game newsong) =
    (if conflict && negb (disable_id_conflict_exception self)
     then Some (SongIdConflictError (Song.id newsong))
     else if missing && negb (disable_nobrstm_exception self)
          then Some (FileNotFoundError (Song.fullpath newsong))
          else None)
  /\ songs (fst (add_song sys self [] game newsong)) =
    (if (conflict && negb (disable_id_conflict_exception self))
        || (missing && negb (disable_nobrstm_exception self))
     then songs self
     else dict_set pykey_eqb (songs self) key newsong).
Proof.
  intro Hk. unfold add_song, dict_contains. rewrite Hk.
  destruct (dict_get pykey_eqb (songs self) key) as [old|];
    destruct (disable_id_conflict_exception self) eqn:Ec;
    destruct (path_isfile sys (Song.fullpath newsong));
    destruct (disable_nobrstm_exception self) eqn:En;
    simpl; rewrite ?Ec, ?En; simpl; rewrite ?Ec, ?En; simpl; auto.
Qed.

(** What the checks of a song write to the log: the conflict, whenever the id
    is taken, and the missing file, whenever that check is reached. *)
Lemma add_song_written self game newsong key :
  hash_key (Song.id newsong) = Some key ->
  log (fst (add_song sys self [] game newsong)) =
    log self
    ++ match dict_get pykey_eqb (songs self) key with
       | Some old =>
           [Error_conflict (Song.id newsong) (Game.id (Song.game old)) (Game.id game)]
       | None => []
       end
    ++ (if dict_contains pykey_eqb (songs self) key
           && negb (disable_id_conflict_exception self)
        then []
        else if negb (path_isfile sys (Song.fullpath newsong))
             then [Error_no_brstm (Song.id newsong) (Song.fullpath newsong)]
             else []).
Proof.
  intro Hk. unfold add_song, dict_contains. rewrite Hk.
  destruct (dict_get pykey_eqb (songs self) key) as [old|];
    destruct (disable_id_conflict_exception self) eqn:Ec;
    destruct (path_isfile sys (Song.fullpath newsong));
    destruct (disable_nobrstm_exception self) eqn:En;
    simpl; rewrite ?Ec, ?En; simpl; rewrite ?Ec, ?En; simpl;
    rewrite ?app_nil_r, <- ?app_assoc; reflexivity.
Qed.

Lemma add_song_ok self newsongs game newsong self' :
  add_song sys self newsongs game newsong = (self', None) ->
  exists key, hash_key (Song.id newsong) = Some key /\
              songs self' = dict_set pykey_eqb (songs self) key newsong.
Proof.
  unfold add_song.
  destruct (hash_key (Song.id newsong)) as [key|]; [|discriminate].
  intro H. exists key. split; [reflexivity|]. revert H.
  destruct (dict_get pykey_eqb (songs self) key) as [old|];
    destruct (disable_id_conflict_exception self) eqn:Ec;
    destruct (dict_contains pykey_eqb newsongs key);
    destruct (path_isfile sys (Song.fullpath newsong));
    destruct (disable_nobrstm_exception self) eqn:En;
    simpl; rewrite ?Ec, ?En; simpl; rewrite ?Ec, ?En; simpl;
    try discriminate; intro H; inversion H; reflexivity.
Qed.

Lemma add_song_raise self newsongs game newsong self' e :
  add_song sys self newsongs game newsong = (self', Some e) ->
  songs self' = songs self.
Proof.
  unfold add_song.
  destruct (hash_key (Song.id newsong)) as [key|];
    [|intro H; inversion H; reflexivity].
  destruct (dict_get pykey_eqb (songs self) key) as [old|];
    destruct (disable_id_conflict_exception self) eqn:Ec;
    destruct (dict_contains pykey_eqb newsongs key);
    destruct (path_isfile sys (Song.fullpath newsong));
    destruct (disable_nobrstm_exception self) eqn:En;
    simpl; rewrite ?Ec, ?En; simpl; rewrite ?Ec, ?En; simpl;
    try discriminate; intro H; inversion H; reflexivity.
Qed.

Lemma import_songs_app self newsongs path game pre rest :
  import_songs sys self newsongs path game (pre ++ rest) =
  match import_songs sys self newsongs path game pre with
  | (mid, None) => import_songs sys mid newsongs path game rest
  | raised => raised
  end.
Proof.
  revert self; induction pre as [|song pre IH]; intro self; [reflexivity|].
  simpl. destruct (make_song sys path game song) as [newsong|e]; [|reflexivity].
  destruct (add_song sys self newsongs game newsong) as [self' [e|]]; [reflexivity|].
  apply IH.
Qed.

Lemma contains_set (d : list (pykey * Song.t)) key newsong k :
  dict_contains pykey_eqb (dict_set pykey_eqb d key newsong) k
  = dict_contains pykey_eqb d k || pykey_eqb key k.
Proof.
  unfold dict_contains. destruct (pykey_eqb key k) eqn:E.
  - apply pykey_eqb_eq in E. subst. rewrite get_set_same. now rewrite orb_true_r.
  - apply pykey_eqb_neq in E. rewrite get_set_other by congruence.
    now rewrite orb_false_r.
Qed.

(** After the entries [pre] have all passed, the catalog holds the keys it had
    and the keys of [pre]. *)
Lemma import_songs_contains self newsongs path game pre mid k :
  import_songs sys self newsongs path game pre = (mid, None) ->
  dict_contains pykey_eqb (songs mid) k
  = dict_contains pykey_eqb (songs self) k
    || existsb (fun key => pykey_eqb key k) (entries_keys sys path game pre).
Proof.
  revert self; induction pre as [|song pre IH]; intros self H.
  - inversion H. simpl. now rewrite orb_false_r.
  - simpl in *. destruct (make_song sys path game song) as [newsong|e]; [|discriminate].
    destruct (add_song sys self newsongs game newsong) as [self' [e|]] eqn:Ea;
      [discriminate|].
    destruct (add_song_ok _ _ _ _ _ Ea) as [key [Hk Hs]].
    rewrite Hk. simpl. rewrite (IH _ H), Hs, contains_set. now rewrite orb_assoc.
Qed.

End CheckFacts.

(* ------------------------------------------------------------------------- *)
(** * When an import raises *)
(* ------------------------------------------------------------------------- *)

(** C6, as the code has it.  An import raises at the first entry that fails a
    check.  For an entry reached after the entries [pre] have passed, the id
    conflicts when it is a key of the catalog as it was before the document or
    the id of one of [pre]; the import raises [SongIdConflictError] exactly
    when the id conflicts and that exception is not disabled; otherwise it
    raises [FileNotFoundError] exactly when the file is missing and that
    exception is not disabled; otherwise it stores the song and goes on with
    the next entry.  A song that fails both checks raises the conflict alone.
    Whether it raises or not, a conflict is logged, with the game of the song
    that holds the id, and a missing file is logged whenever the conflict did
    not raise; nothing else is logged for the entry. *)
Theorem import_raises_at_first_failing_song
    (sys : os) (self mid : MusicCat) (path : string) (game : Game.t)
    (pre post : list pydict) (entry : pydict) (newsong : Song.t) (key : pykey) :
  import_songs sys self [] path game pre = (mid, None) ->
  make_song sys path game entry = Ok newsong ->
  hash_key (Song.id newsong) = Some key ->
  let conflict :=
    dict_contains pykey_eqb (songs self) key
    || existsb (fun k => pykey_eqb k key) (entries_keys sys path game pre) in
  let missing := negb (path_isfile sys (Song.fullpath newsong)) in
  let checked := fst (add_song sys mid [] game newsong) in
  import_songs sys self [] path game (pre ++ entry :: post) =
    (if conflict && negb (disable_id_conflict_exception self)
     then (checked, Some (SongIdConflictError (Song.id newsong)))
     else if missing && negb (disable_nobrstm_exception self)
          then (checked, Some (FileNotFoundError (Song.fullpath newsong)))
          else import_songs sys checked [] path game post)
  /\ (conflict = true <-> exists old, dict_get pykey_eqb (songs mid) key = Some old)
  /\ log checked =
       log mid
       ++ match dict_get pykey_eqb (songs mid) key with
          | Some old =>
              [Error_conflict (Song.id newsong) (Game.id (Song.game old)) (Game.id game)]
          | None => []
          end
       ++ (if conflict && negb (disable_id_conflict_exception self) then []
           else if missing
                then [Error_no_brstm (Song.id newsong) (Song.fullpath newsong)]
                else [])
  /\ songs checked =
       (if (conflict && negb (disable_id_conflict_exception self))
           || (missing && negb (disable_nobrstm_exception self))
        then songs mid
        else dict_set pykey_eqb (songs mid) key newsong).
Proof.
  intros Hpre Hmake Hk conflict missing checked.
  pose proof (import_songs_contains sys self [] path game pre mid key Hpre) as Hcon.
  fold conflict in Hcon.
  pose proof (import_songs_config sys self [] path game pre) as Hc.
  rewrite Hpre in Hc. unfold config in Hc. simpl in Hc. injection Hc as Hl Hn Hi.
  destruct (add_song_outcome sys mid game newsong key Hk) as [Hout Hsongs].
  cbv zeta in Hout, Hsongs. rewrite Hcon, Hn, Hi in Hout, Hsongs.
  fold missing in Hout, Hsongs.
  pose proof (add_song_written sys mid game newsong key Hk) as Hlog.
  rewrite Hcon, Hi in Hlog. fold missing in Hlog.
  split; [|split; [|split]].
  - rewrite import_songs_app, Hpre. simpl. rewrite Hmake.
    unfold checked. destruct (add_song sys mid [] game newsong) as [self' out].
    simpl in Hout |- *. subst out.
    destruct (conflict && negb (disable_id_conflict_exception self)); [reflexivity|].
    destruct (missing && negb (disable_nobrstm_exception self)); reflexivity.
  - rewrite <- Hcon. unfold dict_contains.
    destruct (dict_get pykey_eqb (songs mid) key) as [old|].
    + split; [intros _; now exists old|reflexivity].
    + split; [discriminate|intros [old E]; discriminate].
  - exact Hlog.
  - exact Hsongs.
Qed.

(** Two imports of the second document after the first.  With both exceptions
    enabled, an entry that repeats the id of the entry before it raises the
    conflict, which is logged with the document's own game.  With the conflict
    exception alone disabled, the entry whose id the first document holds is
    logged and stored, and the import goes on to the next entry. *)
Lemma import_raises_at_first_failing_song_witness :
  (import_songs Sample.complete (Sample.after_red Sample.complete false false) []
     "lib/gold" Sample.gold_game
     ([Sample.entry "town" "New Bark Town" "town.brstm" "town"]
      ++ Sample.entry "town" "Route 29" "town.brstm" "route" :: [])
   = (fst (add_song Sample.complete
             (fst (import_songs Sample.complete
                     (Sample.after_red Sample.complete false false) []
                     "lib/gold" Sample.gold_game
                     [Sample.entry "town" "New Bark Town" "town.brstm" "town"]))
             [] Sample.gold_game
             (Song.mk (PStr "town") (PStr "Route 29") (PStr "town.brstm")
                (PList [PStr "route"]) Sample.gold_game "lib/gold/town.brstm")),
      Some (SongIdConflictError (PStr "town")))
   /\ log (fst (add_song Sample.complete
                  (fst (import_songs Sample.complete
                          (Sample.after_red Sample.complete false false) []
                          "lib/gold" Sample.gold_game
                          [Sample.entry "town" "New Bark Town" "town.brstm" "town"]))
                  [] Sample.gold_game
                  (Song.mk (PStr "town") (PStr "Route 29") (PStr "town.brstm")
                     (PList [PStr "route"]) Sample.gold_game "lib/gold/town.brstm")))
      = [Error_conflict (PStr "town") (PStr "gold") (PStr "gold")])
  /\ (import_songs Sample.no_town (Sample.after_red Sample.no_town false true) []
        "lib/gold" Sample.gold_game
        ([] ++ Sample.entry "theme01" "Title Screen" "theme01.brstm" "theme"
            :: [Sample.entry "town" "New Bark Town" "town.brstm" "town"])
      = import_songs Sample.no_town
          (fst (add_song Sample.no_town (Sample.after_red Sample.no_town false true) []
                  Sample.gold_game Sample.gold_theme))
          [] "lib/gold" Sample.gold_game
          [Sample.entry "town" "New Bark Town" "town.brstm" "town"]
      /\ log (fst (add_song Sample.no_town (Sample.after_red Sample.no_town false true) []
                     Sample.gold_game Sample.gold_theme))
         = [Error_conflict (PStr "theme01") (PStr "red") (PStr "gold")]
      /\ dict_get pykey_eqb
           (songs (fst (add_song Sample.no_town (Sample.after_red Sample.no_town false true)
                          [] Sample.gold_game Sample.gold_theme))) (KStr "theme01")
         = Some Sample.gold_theme).
Proof.
  split.
  - destruct (import_raises_at_first_failing_song Sample.complete
                (Sample.after_red Sample.complete false false)
                (fst (import_songs Sample.complete
                        (Sample.after_red Sample.complete false false) []
                        "lib/gold" Sample.gold_game
                        [Sample.entry "town" "New Bark Town" "town.brstm" "town"]))
                "lib/gold" Sample.gold_game
                [Sample.entry "town" "New Bark Town" "town.brstm" "town"] []
                (Sample.entry "town" "Route 29" "town.brstm" "route")
                (Song.mk (PStr "town") (PStr "Route 29") (PStr "town.brstm")
                   (PList [PStr "route"]) Sample.gold_game "lib/gold/town.brstm")
                (KStr "town") eq_refl eq_refl eq_refl) as [H1 [_ [H2 _]]].
    split; [exact H1|]. rewrite H2. vm_compute. reflexivity.
  - destruct (import_raises_at_first_failing_song Sample.no_town
                (Sample.after_red Sample.no_town false true)
                (Sample.after_red Sample.no_town false true)
                "lib/gold" Sample.gold_game
                [] [Sample.entry "town" "New Bark Town" "town.brstm" "town"]
                (Sample.entry "theme01" "Title Screen" "theme01.brstm" "theme")
                Sample.gold_theme
                (KStr "theme01") eq_refl eq_refl eq_refl) as [H1 [_ [H2 H3]]].
    split; [exact H1|]. split.
    + rewrite H2. vm_compute. reflexivity.
    + rewrite H3. vm_compute. reflexivity.
Defined.

(** C6, the claim as stated, fails.  With both exceptions enabled the second
    document declares ["theme01"], whose file does not exist; its id is in the
    catalog already, so the import raises the conflict, and no missing-file
    error is raised although the song's path is no file. *)
Lemma missing_file_hidden_by_conflict :
  path_isfile Sample.no_theme (Song.fullpath Sample.gold_theme) = false
  /\ make_song Sample.no_theme "lib/gold" Sample.gold_game
       (Sample.entry "theme01" "Title Screen" "theme01.brstm" "theme")
     = Ok Sample.gold_theme
  /\ snd (_import_metadata Sample.no_theme (Sample.after_red Sample.no_theme false false)
            "lib/gold/metadata.yaml")
     = Some (SongIdConflictError (PStr "theme01"))
  /\ log (init Sample.no_theme "lib" false false false)
     = [Error_conflict (PStr "theme01") (PStr "red") (PStr "gold");
        Error_loading_file "lib/gold/metadata.yaml" (SongIdConflictError (PStr "theme01"))].
Proof. repeat split; vm_compute; reflexivity. Qed.

(* ------------------------------------------------------------------------- *)
(** * Imports with an exception disabled *)
(* ------------------------------------------------------------------------- *)

Section Permissive.

Variable sys : os.

(** A song that fails no check whose exception is enabled: each check it fails
    is logged, nothing is raised, and the song is stored. *)
Lemma add_song_permissive self game newsong key :
  hash_key (Song.id newsong) = Some key ->
  (dict_contains pykey_eqb (songs self) key = true ->
   disable_id_conflict_exception self = true) ->
  (path_isfile sys (Song.fullpath newsong) = false ->
   disable_nobrstm_exception self = true) ->
  snd (add_song sys self [] game newsong) = None
  /\ songs (fst (add_song sys self [] game newsong))
     = dict_set pykey_eqb (songs self) key newsong
  /\ (forall old, dict_get pykey_eqb (songs self) key = Some old ->
        In (Error_conflict (Song.id newsong) (Game.id (Song.game old)) (Game.id game))
           (log (fst (add_song sys self [] game newsong))))
  /\ (path_isfile sys (Song.fullpath newsong) = false ->
        In (Error_no_brstm (Song.id newsong) (Song.fullpath newsong))
           (log (fst (add_song sys self [] game newsong)))).
Proof.
  intros Hk Hc Hn. unfold add_song. rewrite Hk. unfold dict_contains in Hc.
  destruct (dict_get pykey_eqb (songs self) key) as [old|];
    destruct (path_isfile sys (Song.fullpath newsong));
    try rewrite (Hc eq_refl); try rewrite (Hn eq_refl);
    simpl; try rewrite (Hc eq_refl); try rewrite (Hn eq_refl); simpl;
    (split; [reflexivity|]); (split; [reflexivity|]);
    (split; [intros old' E; try discriminate; inversion E; subst;
             rewrite ?in_app_iff; simpl; tauto
            |intro E; try discriminate; rewrite ?in_app_iff; simpl; tauto]).
Qed.

Lemma import_songs_permissive self path game entries items :
  disable_id_conflict_exception self = true ->
  entries_songs sys path game entries = Ok items ->
  (forall key song, In (key, song) items ->
     path_isfile sys (Song.fullpath song) = false ->
     disable_nobrstm_exception self = true) ->
  snd (import_songs sys self [] path game entries) = None
  /\ songs (fst (import_songs sys self [] path game entries))
     = set_all (songs self) items.
Proof.
  revert self items; induction entries as [|song entries IH]; intros self items Hc H Hn.
  - inversion H. auto.
  - simpl in *. destruct (make_song sys path game song) as [newsong|e]; [|discriminate].
    simpl in H. destruct (hash_key (Song.id newsong)) as [key|] eqn:Hk; [|discriminate].
    destruct (entries_songs sys path game entries) as [rest|e]; [|discriminate].
    simpl in H. inversion H; subst items; clear H.
    destruct (add_song_permissive self game newsong key Hk (fun _ => Hc)
                (Hn key newsong (or_introl eq_refl))) as [Ho [Hs _]].
    pose proof (add_song_config sys self [] game newsong) as Hcfg.
    destruct (add_song sys self [] game newsong) as [self' out]. simpl in *. subst out.
    unfold config in Hcfg. injection Hcfg as _ Hn' Hc'.
    destruct (IH self' rest) as [Ho' Hs']; [congruence|reflexivity| |].
    + intros k s Hin Hf. rewrite Hn'. apply (Hn k s); auto.
    + split; [exact Ho'|]. rewrite Hs', Hs. reflexivity.
Qed.

Lemma import_metadata_permissive self metafilename items :
  disable_id_conflict_exception self = true ->
  document_songs sys metafilename = Ok items ->
  (forall key song, In (key, song) items ->
     path_isfile sys (Song.fullpath song) = false ->
     disable_nobrstm_exception self = true) ->
  snd (_import_metadata sys self metafilename) = None
  /\ songs (fst (_import_metadata sys self metafilename)) = set_all (songs self) items.
Proof.
  intro Hc. unfold document_songs, document_header, _import_metadata.
  destruct (yaml_load sys metafilename) as [doc|e]; [|discriminate]. simpl.
  destruct (doc_songs doc) as [entries|]; [|discriminate].
  destruct (make_game _) as [game|e]; [|discriminate]. simpl.
  now apply import_songs_permissive.
Qed.

Lemma import_all_permissive files self :
  disable_id_conflict_exception self = true ->
  (forall m, In m files -> exists items, document_songs sys m = Ok items) ->
  (forall key song, In (key, song) (declared sys files) ->
     path_isfile sys (Song.fullpath song) = false ->
     disable_nobrstm_exception self = true) ->
  songs (import_all sys self files) = set_all (songs self) (declared sys files).
Proof.
  unfold import_all.
  revert self; induction files as [|m files IH]; intros self Hc Hall Hn; [reflexivity|].
  simpl. destruct (Hall m (or_introl eq_refl)) as [items E]. rewrite E.
  pose proof (try_import_config sys self m) as Hcfg.
  unfold config in Hcfg. injection Hcfg as _ Hn' Hc'.
  rewrite IH; [|congruence|intros m' Hm'; apply Hall; now right|].
  - rewrite try_import_songs.
    destruct (import_metadata_permissive self m items Hc E) as [_ Hs].
    + intros k s Hin. apply (Hn k s). simpl. rewrite E. apply in_or_app. now left.
    + rewrite Hs. unfold set_all. now rewrite fold_left_app.
  - intros k s Hin Hf. rewrite Hn'. apply (Hn k s); [|exact Hf].
    simpl. rewrite E. apply in_or_app. now right.
Qed.

End Permissive.

(** The last assignment to a key wins. *)
Lemma get_set_all (items d : list (pykey * Song.t)) (key : pykey) :
  dict_get pykey_eqb (set_all d items) key =
  match dict_get pykey_eqb (rev items) key with
  | Some song => Some song
  | None => dict_get pykey_eqb d key
  end.
Proof.
  unfold set_all.
  revert d; induction items as [|[k s] items IH]; intro d; [reflexivity|].
  simpl. rewrite IH, dict_get_app.
  destruct (dict_get pykey_eqb (rev items) key) as [song|]; [reflexivity|].
  simpl. destruct (pykey_eqb k key) eqn:E.
  - apply pykey_eqb_eq in E. subst. apply get_set_same.
  - apply pykey_eqb_neq in E. apply get_set_other. congruence.
Qed.

Lemma refresh_songs (sys : os) (self : MusicCat) :
  songs (refresh_song_list sys self)
  = songs (import_all sys (set_songs self []) (metafiles sys (library_path self))).
Proof. unfold refresh_song_list. simpl. now destruct (Nat.eqb _ 0). Qed.

(** C2, as the code has it.  Each of the two flags disables one raise and
    nothing else.  A song that fails a check whose exception is disabled, and
    no check whose exception is enabled, is logged as an error and is stored
    all the same, under its id, in the place of the song that was there, and
    no other id is touched: so with the conflict exception alone disabled for
    a song whose id is taken and whose file exists, and with the missing-file
    exception alone disabled for a song whose id is new and whose file is
    missing.  With the conflict exception disabled, after a refresh over
    documents that all load, in which every song whose file is missing is
    covered by the disabled missing-file exception, every id is mapped to the
    last song declared with it: of two documents declaring the same id the
    catalog keeps the second one's song, and every other song of both
    documents is there. *)
Theorem disabled_exceptions_keep_last_song (sys : os) (self : MusicCat) :
  (forall game newsong key,
      hash_key (Song.id newsong) = Some key ->
      (dict_contains pykey_eqb (songs self) key = true ->
       disable_id_conflict_exception self = true) ->
      (path_isfile sys (Song.fullpath newsong) = false ->
       disable_nobrstm_exception self = true) ->
      snd (add_song sys self [] game newsong) = None
      /\ dict_get pykey_eqb (songs (fst (add_song sys self [] game newsong))) key
         = Some newsong
      /\ (forall other, other <> key ->
            dict_get pykey_eqb (songs (fst (add_song sys self [] game newsong))) other
            = dict_get pykey_eqb (songs self) other)
      /\ (forall old, dict_get pykey_eqb (songs self) key = Some old ->
            In (Error_conflict (Song.id newsong) (Game.id (Song.game old)) (Game.id game))
               (log (fst (add_song sys self [] game newsong))))
      /\ (path_isfile sys (Song.fullpath newsong) = false ->
            In (Error_no_brstm (Song.id newsong) (Song.fullpath newsong))
               (log (fst (add_song sys self [] game newsong)))))
  /\ (disable_id_conflict_exception self = true ->
      (forall m, In m (metafiles sys (library_path self)) ->
         exists items, document_songs sys m = Ok items) ->
      (forall key song,
         In (key, song) (declared sys (metafiles sys (library_path self))) ->
         path_isfile sys (Song.fullpath song) = false ->
         disable_nobrstm_exception self = true) ->
      forall key,
        dict_get pykey_eqb (songs (refresh_song_list sys self)) key
        = dict_get pykey_eqb (rev (declared sys (metafiles sys (library_path self)))) key).
Proof.
  split.
  - intros game newsong key Hk Hc Hn.
    destruct (add_song_permissive sys self game newsong key Hk Hc Hn) as [H1 [H2 [H3 H4]]].
    split; [exact H1|]. split; [rewrite H2; apply get_set_same|].
    split; [|split; [exact H3|exact H4]].
    intros other Ho. rewrite H2. now apply get_set_other.
  - intros Hc Hall Hn key. rewrite refresh_songs.
    rewrite (import_all_permissive sys _ (set_songs self [])); auto.
    rewrite get_set_all. simpl.
    now destruct (dict_get pykey_eqb _ key).
Qed.

(** The library with every file in place and the conflict exception alone
    disabled: the refresh keeps the second document's ["theme01"], and the
    import of the second document stores it over the first's and logs the
    conflict. *)
Lemma disabled_exceptions_keep_last_song_witness :
  (dict_get pykey_eqb (songs (refresh_song_list Sample.complete (Sample.empty false true)))
     (KStr "theme01") = Some Sample.gold_theme
   /\ dict_get pykey_eqb (songs (refresh_song_list Sample.complete (Sample.empty false true)))
        (KStr "town") = Some Sample.gold_town)
  /\ (snd (add_song Sample.complete (Sample.after_red Sample.complete false true) []
             Sample.gold_game Sample.gold_theme) = None
      /\ dict_get pykey_eqb
           (songs (fst (add_song Sample.complete (Sample.after_red Sample.complete false true)
                          [] Sample.gold_game Sample.gold_theme))) (KStr "theme01")
         = Some Sample.gold_theme
      /\ In (Error_conflict (PStr "theme01") (PStr "red") (PStr "gold"))
            (log (fst (add_song Sample.complete
                         (Sample.after_red Sample.complete false true)
                         [] Sample.gold_game Sample.gold_theme))))
  /\ (snd (add_song Sample.no_town (Sample.after_red Sample.no_town true false) []
             Sample.gold_game Sample.gold_town) = None
      /\ dict_get pykey_eqb
           (songs (fst (add_song Sample.no_town (Sample.after_red Sample.no_town true false)
                          [] Sample.gold_game Sample.gold_town))) (KStr "town")
         = Some Sample.gold_town
      /\ In (Error_no_brstm (PStr "town") "lib/gold/town.brstm")
            (log (fst (add_song Sample.no_town
                         (Sample.after_red Sample.no_town true false)
                         [] Sample.gold_game Sample.gold_town)))).
Proof.
  split; [|split].
  - assert (forall m, In m (metafiles Sample.complete
                              (library_path (Sample.empty false true))) ->
                      exists items, document_songs Sample.complete m = Ok items) as Hall.
    { intros m [E|[E|[]]]; subst m; eexists; vm_compute; reflexivity. }
    assert (forall key song,
              In (key, song) (declared Sample.complete
                                (metafiles Sample.complete
                                   (library_path (Sample.empty false true)))) ->
              path_isfile Sample.complete (Song.fullpath song) = false ->
              disable_nobrstm_exception (Sample.empty false true) = true) as Hfiles.
    { intros key song Hin. vm_compute in Hin.
      destruct Hin as [E|[E|[E|[E|[]]]]]; inversion E; subst; vm_compute; discriminate. }
    pose proof (proj2 (disabled_exceptions_keep_last_song Sample.complete
                         (Sample.empty false true)) eq_refl Hall Hfiles) as H.
    split; rewrite H; vm_compute; reflexivity.
  - destruct (proj1 (disabled_exceptions_keep_last_song Sample.complete
                       (Sample.after_red Sample.complete false true))
                Sample.gold_game Sample.gold_theme (KStr "theme01") eq_refl
                (fun _ => eq_refl))
      as [H1 [H2 [_ [H3 _]]]]; [vm_compute; discriminate|].
    split; [exact H1|]. split; [exact H2|].
    apply (H3 (Song.mk (PStr "theme01") (PStr "Opening Theme") (PStr "theme01.brstm")
                 (PList [PStr "theme"])
                 (Game.mk (PStr "red") (PStr "Pokemon Red") (PStr "gb") (PInt 1996) PNone
                    (PStr "red"))
                 "lib/red/theme01.brstm")).
    vm_compute. reflexivity.
  - destruct (proj1 (disabled_exceptions_keep_last_song Sample.no_town
                       (Sample.after_red Sample.no_town true false))
                Sample.gold_game Sample.gold_town (KStr "town") eq_refl)
      as [H1 [H2 [_ [_ H4]]]]; [vm_compute; discriminate|intros _; reflexivity|].
    split; [exact H1|]. split; [exact H2|]. apply H4. vm_compute. reflexivity.
Defined.

(** C2, the claim as stated, fails, for each flag on its own.  With the
    conflict exception alone disabled and every file in place, the catalog
    maps ["theme01"], which two documents declare, to the second document's
    song, not the first's.  With the missing-file exception alone disabled,
    ["battle"], whose file is missing, is in the catalog. *)
Lemma conflicting_song_replaces_first :
  (disable_nobrstm_exception (init Sample.complete "lib" false true false) = false
   /\ disable_id_conflict_exception (init Sample.complete "lib" false true false) = true
   /\ dict_get pykey_eqb (songs (init Sample.complete "lib" false true false))
        (KStr "theme01")
      = Some Sample.gold_theme
   /\ Song.title Sample.gold_theme = PStr "Title Screen"
   /\ log (init Sample.complete "lib" false true false)
      = [Error_conflict (PStr "theme01") (PStr "red") (PStr "gold")])
  /\ (disable_nobrstm_exception (init Sample.no_battle "lib" true false false) = true
      /\ disable_id_conflict_exception (init Sample.no_battle "lib" true false false) = false
      /\ path_isfile Sample.no_battle "lib/red/battle.brstm" = false
      /\ option_map Song.fullpath
           (dict_get pykey_eqb (songs (init Sample.no_battle "lib" true false false))
              (KStr "battle"))
         = Some "lib/red/battle.brstm"
      /\ In (Error_no_brstm (PStr "battle") "lib/red/battle.brstm")
            (log (init Sample.no_battle "lib" true false false))).
Proof.
  split; repeat split; vm_compute; try reflexivity. now left.
Qed.

(* ------------------------------------------------------------------------- *)
(** * An import that raises part of the way *)
(* ------------------------------------------------------------------------- *)

Section PartialImport.

Variable sys : os.

(** An import that raises raised at one entry, after the entries before it
    had passed. *)
Lemma import_songs_raise_split self newsongs path game entries part e :
  import_songs sys self newsongs path game entries = (part, Some e) ->
  exists pre bad post mid,
    entries = pre ++ bad :: post
    /\ import_songs sys self newsongs path game pre = (mid, None)
    /\ import_songs sys mid newsongs path game [bad] = (part, Some e).
Proof.
  revert self; induction entries as [|song entries IH]; intros self H; [discriminate|].
  simpl in H. destruct (make_song sys path game song) as [newsong|e'] eqn:Em.
  - destruct (add_song sys self newsongs game newsong) as [self' [e'|]] eqn:Ea.
    + exists [], song, entries, self. simpl. rewrite Em, Ea. auto.
    + destruct (IH self' H) as [pre [bad [post [mid [E [H1 H2]]]]]].
      exists (song :: pre), bad, post, mid. simpl. rewrite Em, Ea, E. auto.
  - exists [], song, entries, self. simpl. rewrite Em. auto.
Qed.

Lemma import_songs_one_raise self newsongs path game bad part e :
  import_songs sys self newsongs path game [bad] = (part, Some e) ->
  songs part = songs self.
Proof.
  simpl. destruct (make_song sys path game bad) as [newsong|e'].
  - destruct (add_song sys self newsongs game newsong) as [self' [e'|]] eqn:Ea;
      [|discriminate].
    intro H. inversion H; subst. eapply add_song_raise. exact Ea.
  - intro H. now inversion H.
Qed.

(** With the conflict exception enabled, a song that passes was stored under a
    key that was not there. *)
Lemma add_song_strict self game newsong self' :
  disable_id_conflict_exception self = false ->
  add_song sys self [] game newsong = (self', None) ->
  exists key, hash_key (Song.id newsong) = Some key
              /\ songs self' = songs self ++ [(key, newsong)].
Proof.
  intros Hc Ha. destruct (add_song_ok sys _ _ _ _ _ Ha) as [key [Hk Hs]].
  exists key. split; [exact Hk|]. rewrite Hs. apply dict_set_fresh.
  destruct (add_song_outcome sys self game newsong key Hk) as [Hout _].
  rewrite Ha, Hc in Hout. simpl in Hout. unfold dict_contains in Hout.
  destruct (dict_get pykey_eqb (songs self) key); [discriminate|reflexivity].
Qed.

Lemma import_songs_strict self path game pre mid :
  disable_id_conflict_exception self = false ->
  import_songs sys self [] path game pre = (mid, None) ->
  exists added,
    entries_songs sys path game pre = Ok added
    /\ songs mid = songs self ++ added
    /\ forall key song, In (key, song) added ->
         dict_get pykey_eqb (songs mid) key = Some song.
Proof.
  revert self; induction pre as [|song pre IH]; intros self Hc H.
  - inversion H. exists []. simpl. rewrite app_nil_r. repeat split. intros k s [].
  - simpl in H. simpl. destruct (make_song sys path game song) as [newsong|e]; [|discriminate].
    destruct (add_song sys self [] game newsong) as [self' [e|]] eqn:Ea; [discriminate|].
    destruct (add_song_strict self game newsong self' Hc Ea) as [key [Hk Hs]].
    pose proof (add_song_config sys self [] game newsong) as Hcfg.
    rewrite Ea in Hcfg. unfold config in Hcfg. simpl in Hcfg. injection Hcfg as _ _ Hc'.
    destruct (IH self') as [added [He [Hm Hin]]]; [congruence|exact H|].
    exists ((key, newsong) :: added). simpl. rewrite Hk, He. simpl.
    split; [reflexivity|]. split.
    + rewrite Hm, Hs, <- app_assoc. reflexivity.
    + intros k s [E|Hks]; [|now apply Hin]. inversion E; subst k s.
      rewrite Hm, dict_get_app, Hs, dict_get_app.
      destruct (dict_get pykey_eqb (songs self) key) eqn:Eg.
      * exfalso. destruct (add_song_outcome sys self game newsong key Hk) as [Hout _].
        rewrite Ea, Hc in Hout. unfold dict_contains in Hout. rewrite Eg in Hout.
        discriminate.
      * simpl. now rewrite pykey_eqb_refl.
Qed.

(** Entries that all pass were stored one after the other, whatever the
    flags. *)
Lemma import_songs_passed self path game pre mid :
  import_songs sys self [] path game pre = (mid, None) ->
  exists added,
    entries_songs sys path game pre = Ok added
    /\ songs mid = set_all (songs self) added.
Proof.
  revert self; induction pre as [|song pre IH]; intros self H.
  - inversion H. now exists [].
  - simpl in H. simpl. destruct (make_song sys path game song) as [newsong|e]; [|discriminate].
    destruct (add_song sys self [] game newsong) as [self' [e|]] eqn:Ea; [discriminate|].
    destruct (add_song_ok sys _ _ _ _ _ Ea) as [key [Hk Hs]].
    destruct (IH self' H) as [added [He Hm]].
    exists ((key, newsong) :: added). simpl. rewrite Hk, He. simpl.
    split; [reflexivity|]. rewrite Hm, Hs. reflexivity.
Qed.

Lemma import_metadata_header self metafilename path game entries :
  document_header sys metafilename = Ok (path, game, entries) ->
  _import_metadata sys self metafilename = import_songs sys self [] path game entries.
Proof.
  unfold document_header, _import_metadata.
  destruct (yaml_load sys metafilename) as [doc|e]; [|discriminate]. simpl.
  destruct (doc_songs doc) as [entries'|]; [|discriminate].
  destruct (make_game _) as [game'|e]; [|discriminate]. simpl.
  intro H. now inversion H.
Qed.

Lemma try_import_raise self metafilename part e :
  _import_metadata sys self metafilename = (part, Some e) ->
  try_import sys self metafilename = log_add part (Error_loading_file metafilename e).
Proof. intro H. unfold try_import. now rewrite H. Qed.

End PartialImport.

(** C10, as the code has it.  An import is not atomic.  When the import of a
    document raises at an entry, whatever the flags are, the songs of the
    entries before it have been stored one after the other: each of their ids
    holds the song of the last of these entries that declares it, and every
    other id holds what it held before the import.  The refresh logs the error
    and goes on with the remaining documents from that catalog.  With the
    conflict exception enabled (the default) the ids of these entries were all
    new, so their songs stand behind the songs the catalog had, which are all
    still there. *)
Theorem failed_import_keeps_earlier_songs
    (sys : os) (self part : MusicCat) (metafilename path : string) (game : Game.t)
    (entries : list pydict) (e : exn) :
  document_header sys metafilename = Ok (path, game, entries) ->
  _import_metadata sys self metafilename = (part, Some e) ->
  (exists pre bad post added,
      entries = pre ++ bad :: post
      /\ entries_songs sys path game pre = Ok added
      /\ songs part = set_all (songs self) added
      /\ (forall key,
            dict_get pykey_eqb (songs part) key =
            match dict_get pykey_eqb (rev added) key with
            | Some song => Some song
            | None => dict_get pykey_eqb (songs self) key
            end)
      /\ (forall key, In key (dict_keys added) ->
            exists song, In (key, song) added
                         /\ dict_get pykey_eqb (songs part) key = Some song)
      /\ (disable_id_conflict_exception self = false ->
          songs part = songs self ++ added
          /\ (forall key song, In (key, song) added ->
                dict_get pykey_eqb (songs part) key = Some song)
          /\ (forall key song, dict_get pykey_eqb (songs self) key = Some song ->
                dict_get pykey_eqb (songs part) key = Some song)))
  /\ forall rest,
       import_all sys self (metafilename :: rest)
       = import_all sys (log_add part (Error_loading_file metafilename e)) rest.
Proof.
  intros Hh Hi. split.
  - rewrite (import_metadata_header sys self _ _ _ _ Hh) in Hi.
    destruct (import_songs_raise_split sys _ _ _ _ _ _ _ Hi)
      as [pre [bad [post [mid [E [Hpre Hbad]]]]]].
    destruct (import_songs_passed sys self path game pre mid Hpre) as [added [He Hm]].
    pose proof (import_songs_one_raise sys _ _ _ _ _ _ _ Hbad) as Hp.
    exists pre, bad, post, added. rewrite Hp, Hm.
    split; [exact E|]. split; [exact He|]. split; [reflexivity|].
    split; [intro key; apply get_set_all|]. split.
    + intros key Hin. rewrite get_set_all.
      destruct (dict_get pykey_eqb (rev added) key) as [song|] eqn:Eg.
      * exists song. split; [|reflexivity].
        apply dict_get_in in Eg. now apply in_rev.
      * exfalso. apply dict_get_none in Eg. apply Eg.
        unfold dict_keys in *. rewrite map_rev. now apply in_rev in Hin.
    + intro Hc. rewrite <- Hm.
      destruct (import_songs_strict sys self path game pre mid Hc Hpre)
        as [added' [He' [Hm' Hin]]].
      rewrite He in He'. inversion He'; subst added'.
      split; [exact Hm'|]. split; [exact Hin|].
      intros key song Hg. rewrite Hm', dict_get_app. now rewrite Hg.
  - intro rest. unfold import_all. simpl.
    now rewrite (try_import_raise sys self metafilename part e Hi).
Qed.

(** The second document raises at ["town"], whose file is missing, after
    ["theme01"] has passed.  Imported into the catalog that holds ["surf"],
    with both exceptions enabled, it leaves ["surf"] and its own ["theme01"].
    Imported after the first document with the conflict exception disabled,
    it leaves its own ["theme01"] where the first document's was, and
    ["battle"] as it was. *)
Lemma failed_import_keeps_earlier_songs_witness :
  let self := Sample.after_crystal Sample.town_missing false false in
  let part := fst (_import_metadata Sample.town_missing self "lib/gold/metadata.yaml") in
  songs self = [(KStr "surf", Sample.surf)]
  /\ songs part = [(KStr "surf", Sample.surf); (KStr "theme01", Sample.gold_theme)]
  /\ (exists pre bad post added,
         Sample.gold_entries = pre ++ bad :: post
         /\ entries_songs Sample.town_missing "lib/gold" Sample.gold_game pre = Ok added
         /\ songs part = set_all (songs self) added
         /\ (forall key,
               dict_get pykey_eqb (songs part) key =
               match dict_get pykey_eqb (rev added) key with
               | Some song => Some song
               | None => dict_get pykey_eqb (songs self) key
               end)
         /\ (forall key, In key (dict_keys added) ->
               exists song, In (key, song) added
                            /\ dict_get pykey_eqb (songs part) key = Some song)
         /\ (disable_id_conflict_exception self = false ->
             songs part = songs self ++ added
             /\ (forall key song, In (key, song) added ->
                   dict_get pykey_eqb (songs part) key = Some song)
             /\ (forall key song, dict_get pykey_eqb (songs self) key = Some song ->
                   dict_get pykey_eqb (songs part) key = Some song)))
  /\ forall rest,
       import_all Sample.town_missing self ("lib/gold/metadata.yaml" :: rest)
       = import_all Sample.town_missing
           (log_add part
              (Error_loading_file "lib/gold/metadata.yaml"
                 (FileNotFoundError "lib/gold/town.brstm"))) rest.
Proof.
  intros self part.
  split; [vm_compute; reflexivity|]. split; [vm_compute; reflexivity|].
  exact (failed_import_keeps_earlier_songs Sample.town_missing self part
           "lib/gold/metadata.yaml" "lib/gold" Sample.gold_game Sample.gold_entries
           (FileNotFoundError "lib/gold/town.brstm") eq_refl eq_refl).
Defined.

(** C10, the claim as stated, fails.  With the conflict exception disabled and
    the missing-file exception enabled, the second document replaces the first
    document's ["theme01"] and then raises at ["town"], whose file is missing:
    a song of a document processed before is no longer in the catalog. *)
Lemma failed_import_replaced_earlier_song :
  dict_get pykey_eqb (songs (Sample.after_red Sample.no_town false true)) (KStr "theme01")
  = Some (Song.mk (PStr "theme01") (PStr "Opening Theme") (PStr "theme01.brstm")
            (PList [PStr "theme"])
            (Game.mk (PStr "red") (PStr "Pokemon Red") (PStr "gb") (PInt 1996) PNone
               (PStr "red"))
            "lib/red/theme01.brstm")
  /\ snd (_import_metadata Sample.no_town (Sample.after_red Sample.no_town false true)
            "lib/gold/metadata.yaml")
     = Some (FileNotFoundError "lib/gold/town.brstm")
  /\ dict_get pykey_eqb
       (songs (fst (_import_metadata Sample.no_town
                      (Sample.after_red Sample.no_town false true)
                      "lib/gold/metadata.yaml"))) (KStr "theme01")
     = Some Sample.gold_theme.
Proof. repeat split; vm_compute; reflexivity. Qed.

(* ------------------------------------------------------------------------- *)
(** * A refresh over good and bad documents *)
(* ------------------------------------------------------------------------- *)

Section Refresh.

Variable sys : os.

(** An import touches the keys of its own entries only. *)
Lemma import_songs_frame self newsongs path game entries k :
  ~ In k (entries_keys sys path game entries) ->
  dict_get pykey_eqb (songs (fst (import_songs sys self newsongs path game entries))) k
  = dict_get pykey_eqb (songs self) k.
Proof.
  revert self; induction entries as [|song entries IH]; intros self Hk; [reflexivity|].
  simpl in *. destruct (make_song sys path game song) as [newsong|e]; [|reflexivity].
  assert (dict_get pykey_eqb (songs (fst (add_song sys self newsongs game newsong))) k
          = dict_get pykey_eqb (songs self) k
          /\ ~ In k (entries_keys sys path game entries)) as [E Hk'].
  { destruct (add_song_songs sys self newsongs game newsong) as [E|[key [Hh [_ E]]]].
    - rewrite E. split; [reflexivity|].
      destruct (hash_key (Song.id newsong)); simpl in Hk; tauto.
    - rewrite Hh in Hk. simpl in Hk. rewrite E. split; [|tauto].
      apply get_set_other. intro. subst. tauto. }
  destruct (add_song sys self newsongs game newsong) as [self' [e|]]; simpl in *.
  - exact E.
  - now rewrite IH.
Qed.






(** The log only grows. *)
Lemma add_song_log self newsongs game newsong r :
  In r (log self) -> In r (log (fst (add_song sys self newsongs game newsong))).
Proof.
  intro H. unfold add_song. destruct (hash_key (Song.id newsong)) as [key|]; [|exact H].
  destruct (dict_get pykey_eqb (songs self) key) as [old|];
    destruct (disable_id_conflict_exception self) eqn:Ec;
    destruct (dict_contains pykey_eqb newsongs key);
    destruct (path_isfile sys (Song.fullpath newsong));
    destruct (disable_nobrstm_exception self) eqn:En;
    simpl; rewrite ?Ec, ?En; simpl; rewrite ?Ec, ?En; simpl;
    rewrite ?in_app_iff; auto.
Qed.

Lemma import_songs_log self newsongs path game entries r :
  In r (log self) -> In r (log (fst (import_songs sys self newsongs path game entries))).
Proof.
  revert self; induction entries as [|song entries IH]; intros self H; [exact H|].
  simpl. destruct (make_song sys path game song) as [newsong|e]; [|exact H].
  pose proof (add_song_log self newsongs game newsong r H) as H'.
  destruct (add_song sys self newsongs game newsong) as [self' [e|]]; [exact H'|].
  now apply IH.
Qed.

Lemma try_import_log self metafilename r :
  In r (log self) -> In r (log (try_import sys self metafilename)).
Proof.
  intro H. unfold try_import.
  assert (In r (log (fst (_import_metadata sys self metafilename)))) as H'.
  { unfold _import_metadata.
    destruct (yaml_load sys metafilename) as [doc|e]; [|exact H].
    destruct (doc_songs doc) as [entries|]; [|exact H].
    destruct (make_game _) as [game|e]; [|exact H].
    now apply import_songs_log. }
  destruct (_import_metadata sys self metafilename) as [self' [e|]]; simpl in *;
    rewrite ?in_app_iff; auto.
Qed.

Lemma import_all_log files self r :
  In r (log self) -> In r (log (import_all sys self files)).
Proof.
  unfold import_all.
  revert self; induction files as [|m files IH]; intros self H; [exact H|].
  simpl. apply IH. now apply try_import_log.
Qed.

End Refresh.



(* ------------------------------------------------------------------------- *)
(** * The ranked search *)
(* ------------------------------------------------------------------------- *)

Lemma Qltb_lt (x y : Q) : Qltb x y = true <-> x < y.
Proof.
  unfold Qltb. destruct (Qle_bool y x) eqn:E; simpl.
  - apply Qle_bool_iff in E. split; [discriminate|].
    intro H. exfalso. now apply (Qlt_not_le _ _ H).
  - split; [intros _|reflexivity]. apply Qnot_le_lt. intro H.
    apply Qle_bool_iff in H. congruence.
Qed.

Lemma Qgtb_lt (x y : Q) : Qgtb x y = true <-> y < x.
Proof. apply Qltb_lt. Qed.

Lemma py_set_nonempty (words : list string) : words <> [] -> py_set words <> [].
Proof.
  destruct words as [|w words]; [contradiction|]. intros _ H.
  assert (In w (py_set (w :: words))) as Hin by (apply nodup_In; now left).
  rewrite H in Hin. contradiction.
Qed.


Section SearchFacts.

Variable ratio : string -> string -> Q.

Lemma haystack_words (title : pyval) :
  has_words title -> haystack title = Ok (title_words title) /\ title_words title <> [].
Proof.
  intros [s [E H]]. subst. simpl. split; [reflexivity|]. now apply py_set_nonempty.
Qed.

Lemma add_keywords_returns (haystack1 haystack2 keywords : list string) (acc : Q) :
  haystack1 <> [] -> haystack2 <> [] ->
  exists r, add_keywords ratio haystack1 haystack2 keywords acc = Ok r.
Proof.
  intros H1 H2. revert acc; induction keywords as [|keyword keywords IH]; intro acc.
  - now exists acc.
  - simpl. unfold subratio.
    destruct haystack1 as [|w1 h1]; [contradiction|].
    destruct haystack2 as [|w2 h2]; [contradiction|]. simpl. apply IH.
Qed.

(** With a keyword and a word in each title a song is scored. *)
Lemma song_ratio_returns (keywords : list string) (song : Song.t) :
  keywords <> [] ->
  has_words (Song.title song) ->
  has_words (Game.title (Song.game song)) ->
  exists r, song_ratio ratio keywords song = Ok r.
Proof.
  intros Hk H1 H2. unfold song_ratio.
  destruct (haystack_words _ H1) as [E1 N1]. destruct (haystack_words _ H2) as [E2 N2].
  rewrite E1, E2. simpl.
  destruct (add_keywords_returns _ _ keywords 0 N1 N2) as [r Er].
  rewrite Er. simpl. unfold divide.
  destruct keywords as [|k ks]; [contradiction|]. simpl Nat.eqb. cbv iota.
  eexists. reflexivity.
Qed.

Lemma collect_results (keywords : list string) (cutoff : Q) (all : list Song.t)
    (results : list (Song.t * Q)) :
  (forall song, In song all -> exists r, song_ratio ratio keywords song = Ok r) ->
  exists found,
    collect ratio keywords cutoff all results = Ok (results ++ found)
    /\ forall song r, In (song, r) found <->
         In song all /\ song_ratio ratio keywords song = Ok r /\ cutoff < r.
Proof.
  revert results; induction all as [|song all IH]; intros results Hall.
  - exists []. simpl. rewrite app_nil_r. split; [reflexivity|]. intros; tauto.
  - simpl. destruct (Hall song (or_introl eq_refl)) as [r Er]. rewrite Er. simpl.
    destruct (IH (if Qgtb r cutoff then results ++ [(song, r)] else results))
      as [found [Ef Hf]]; [intros s Hs; apply Hall; now right|].
    destruct (Qgtb r cutoff) eqn:Eg.
    + exists ((song, r) :: found). rewrite Ef, <- app_assoc. split; [reflexivity|].
      intros s q. simpl. rewrite Hf. apply Qgtb_lt in Eg. split.
      * intros [E|[Hin [Hr Hc]]]; [inversion E; subst; auto|auto].
      * intros [[E|Hin] [Hr Hc]]; [left; subst; congruence|right; auto].
    + exists found. split; [exact Ef|]. intros s q. rewrite Hf. split.
      * intros [Hin [Hr Hc]]; auto.
      * intros [[E|Hin] [Hr Hc]]; [|auto]. subst s. rewrite Er in Hr. inversion Hr; subst q.
        apply Qgtb_lt in Hc. congruence.
Qed.

End SearchFacts.

(* ------------------------------------------------------------------------- *)
(** * The order and the sums of binary64 *)
(* ------------------------------------------------------------------------- *)

Section FloatFacts.

Import Binary64.

(** The three literals are the rounded quotients of their digits, and [1.0]
    is what the [int] 1 converts to. *)
Lemma literals_rounded :
  div (of_nat 8) (of_nat 10) = eight_tenths
  /\ div (of_nat 7) (of_nat 10) = seven_tenths
  /\ div (of_nat 3) (of_nat 10) = three_tenths
  /\ of_nat 1 = one.
Proof. repeat split; vm_compute; reflexivity. Qed.

(** [<] is transitive, and so is its negation through a number. *)
Lemma ltb_trans (x y z : float) : ltb x y = true -> ltb y z = true -> ltb x z = true.
Proof.
  unfold ltb, SFltb, SFcompare.
  destruct x as [sx|sx| |sx mx ex], y as [sy|sy| |sy my ey], z as [sz|sz| |sz mz ez];
    try destruct sx; try destruct sy; try destruct sz; simpl;
    try discriminate; try reflexivity;
    compare_cases; try discriminate; try reflexivity; intros; subst; try lia.
Qed.

Lemma ltb_negtrans (x y z : float) :
  is_nan y = false -> ltb x y = false -> ltb y z = false -> ltb x z = false.
Proof.
  unfold ltb, SFltb, SFcompare.
  destruct x as [sx|sx| |sx mx ex], y as [sy|sy| |sy my ey], z as [sz|sz| |sz mz ez];
    try destruct sx; try destruct sy; try destruct sz; simpl;
    try discriminate; try reflexivity;
    compare_cases; try discriminate; try reflexivity; intros; subst; try lia.
Qed.

(** Adding [0.0] changes nothing but the negative zero. *)
Lemma add_zero_r (x : float) : x <> S754_zero true -> add x zero = x.
Proof. destruct x as [[|]| | |]; simpl; intro H; try reflexivity. now contradiction H. Qed.

Lemma round_signed (m e : Z) (l : location) :
  signed_nonneg (binary_round_aux prec emax false m e l) = true.
Proof.
  unfold binary_round_aux.
  destruct (shr_fexp prec emax m e l) as [mrs e'].
  destruct (shr_fexp prec emax _ e' loc_Exact) as [mrs' e''].
  destruct (shr_m mrs'); [reflexivity| |reflexivity].
  destruct (Z.leb e'' _); reflexivity.
Qed.

(** The sum of two floats whose sign bit is clear has its sign bit clear. *)
Lemma add_signed (x y : float) :
  signed_nonneg x = true -> signed_nonneg y = true -> signed_nonneg (add x y) = true.
Proof.
  destruct x as [sx|sx| |sx mx ex], y as [sy|sy| |sy my ey];
    try destruct sx; try destruct sy; simpl; try discriminate; try reflexivity.
  intros _ _. unfold add, SFadd. cbv [cond_Zopp].
  change (Z.add (Zpos ?a) (Zpos ?b)) with (Zpos (a + b)).
  unfold binary_normalize. simpl Z.add. unfold binary_round.
  destruct (shl_align _ _ _) as [mz ez]. apply round_signed.
Qed.

(** What is above a float whose sign bit is clear is a number, and its sign
    bit is clear. *)
Lemma gtb_signed (c x : float) :
  signed_nonneg c = true -> gtb x c = true -> signed_nonneg x = true /\ is_nan x = false.
Proof.
  unfold gtb, SFltb, SFcompare.
  destruct c as [sc|sc| |sc mc ec], x as [sx|sx| |sx mx ex];
    try destruct sc; try destruct sx; simpl; try discriminate; auto.
Qed.

Lemma signed_not_negative_zero (x : float) :
  signed_nonneg x = true -> x <> S754_zero true.
Proof. intros H E. subst. discriminate. Qed.

End FloatFacts.

(* ------------------------------------------------------------------------- *)
(** * The score of a song *)
(* ------------------------------------------------------------------------- *)

Section RoundedFacts.

Import Binary64.

Variable ratio : string -> string -> float.

Lemma rounded_max2_assoc (x y w : float) :
  is_nan y = false ->
  Rounded.py_max2 (Rounded.py_max2 x y) w = Rounded.py_max2 x (Rounded.py_max2 y w).
Proof.
  intro Hy. unfold Rounded.py_max2, gtb. fold (ltb x y) (ltb y w).
  destruct (ltb x y) eqn:Exy, (ltb y w) eqn:Eyw;
    fold (ltb x w) (ltb y w) (ltb x y); rewrite ?Exy, ?Eyw; try reflexivity.
  - fold (ltb x w). now rewrite (ltb_trans x y w Exy Eyw).
  - fold (ltb x w). now rewrite (ltb_negtrans x y w Hy Exy Eyw).
Qed.

(** [max] over numbers is the largest of them, in whatever order it meets
    them. *)
Lemma rounded_fold_max (rest : list float) (x : float) :
  (forall y, In y rest -> is_nan y = false) ->
  fold_left Rounded.py_max2 rest x = Rounded.maximum x rest.
Proof.
  revert x; induction rest as [|y ys IH]; intros x Hn; [reflexivity|].
  simpl fold_left. rewrite IH by (intros z Hz; apply Hn; now right).
  destruct ys as [|z zs]; [reflexivity|].
  change (Rounded.maximum (Rounded.py_max2 x y) (z :: zs))
    with (Rounded.py_max2 (Rounded.py_max2 x y) (Rounded.maximum z zs)).
  change (Rounded.maximum x (y :: z :: zs))
    with (Rounded.py_max2 x (Rounded.py_max2 y (Rounded.maximum z zs))).
  apply rounded_max2_assoc. apply Hn. now left.
Qed.

Lemma rounded_max_best (keyword : string) (words : list string) :
  words <> [] ->
  (forall word, In word words -> is_nan (ratio (lower keyword) word) = false) ->
  Rounded.py_max (map (ratio (lower keyword)) words)
  = Ok (Rounded.best_match ratio keyword words).
Proof.
  destruct words as [|w words]; [contradiction|]. intros _ Hn.
  unfold Rounded.best_match. simpl. f_equal. apply rounded_fold_max.
  intros y Hy. apply in_map_iff in Hy. destruct Hy as [word [<- Hin]].
  apply Hn. now right.
Qed.

Lemma rounded_subratio (haystack1 haystack2 : list string) (keyword : string) :
  haystack1 <> [] -> haystack2 <> [] ->
  (forall word, In word haystack1 \/ In word haystack2 ->
     is_nan (ratio (lower keyword) word) = false) ->
  Rounded.subratio ratio haystack1 haystack2 keyword
  = Ok (Rounded.sub_score ratio haystack1 haystack2 keyword).
Proof.
  intros H1 H2 Hn. unfold Rounded.subratio, Rounded.sub_score.
  rewrite (rounded_max_best keyword haystack1 H1) by (intros w Hw; apply Hn; now left).
  rewrite (rounded_max_best keyword haystack2 H2) by (intros w Hw; apply Hn; now right).
  reflexivity.
Qed.

(** The running sum of the loop is the sum of the contributions: a sub-score
    that is not above 0.7 adds nothing, as adding [0.0] would. *)
Lemma rounded_add_keywords (haystack1 haystack2 keywords : list string) (acc : float) :
  haystack1 <> [] -> haystack2 <> [] ->
  (forall keyword word, In keyword keywords ->
     In word haystack1 \/ In word haystack2 ->
     is_nan (ratio (lower keyword) word) = false) ->
  signed_nonneg acc = true ->
  Rounded.add_keywords ratio haystack1 haystack2 keywords acc
  = Ok (fold_left add
          (map (fun keyword =>
                  Rounded.floor_up_to (Rounded.sub_score ratio haystack1 haystack2 keyword))
               keywords)
          acc).
Proof.
  intros H1 H2. revert acc; induction keywords as [|keyword keywords IH]; intros acc Hn Ha.
  - reflexivity.
  - simpl. rewrite (rounded_subratio haystack1 haystack2 keyword H1 H2)
      by (intros w Hw; apply Hn; [now left|exact Hw]).
    simpl. unfold Rounded.floor_up_to at 2.
    set (s := Rounded.sub_score ratio haystack1 haystack2 keyword).
    destruct (gtb s seven_tenths) eqn:Eg.
    + apply IH; [intros k w Hk; apply Hn; now right|].
      apply add_signed; [exact Ha|]. now apply (gtb_signed seven_tenths s).
    + rewrite (add_zero_r acc) by now apply signed_not_negative_zero.
      apply IH; [intros k w Hk; apply Hn; now right|exact Ha].
Qed.

Lemma rounded_song_ratio (keywords : list string) (song : Song.t) :
  keywords <> [] ->
  has_words (Song.title song) ->
  has_words (Game.title (Song.game song)) ->
  (forall keyword word, In keyword keywords ->
     In word (title_words (Song.title song))
     \/ In word (title_words (Game.title (Song.game song))) ->
     is_nan (ratio (lower keyword) word) = false) ->
  Rounded.song_ratio ratio keywords song
  = Ok (Rounded.spec_score ratio Rounded.floor_up_to keywords
          (title_words (Song.title song))
          (title_words (Game.title (Song.game song)))).
Proof.
  intros Hk H1 H2 Hn. unfold Rounded.song_ratio.
  destruct (haystack_words _ H1) as [E1 N1]. destruct (haystack_words _ H2) as [E2 N2].
  rewrite E1, E2. simpl.
  rewrite (rounded_add_keywords _ _ keywords zero N1 N2 Hn eq_refl). simpl.
  unfold Rounded.divide. destruct keywords as [|k ks]; [contradiction|]. reflexivity.
Qed.

Lemma rounded_collect (keywords : list string) (cutoff : float) (all : list Song.t)
    (results : list (Song.t * float)) :
  (forall song, In song all -> exists r, Rounded.song_ratio ratio keywords song = Ok r) ->
  exists found,
    Rounded.collect ratio keywords cutoff all results = Ok (results ++ found)
    /\ forall song r, In (song, r) found <->
         In song all /\ Rounded.song_ratio ratio keywords song = Ok r
         /\ gtb r cutoff = true.
Proof.
  revert results; induction all as [|song all IH]; intros results Hall.
  - exists []. simpl. rewrite app_nil_r. split; [reflexivity|]. intros; tauto.
  - simpl. destruct (Hall song (or_introl eq_refl)) as [r Er]. rewrite Er. simpl.
    destruct (IH (if gtb r cutoff then results ++ [(song, r)] else results))
      as [found [Ef Hf]]; [intros s Hs; apply Hall; now right|].
    destruct (gtb r cutoff) eqn:Eg.
    + exists ((song, r) :: found). rewrite Ef, <- app_assoc. split; [reflexivity|].
      intros s q. simpl. rewrite Hf. split.
      * intros [E|[Hin [Hr Hc]]]; [inversion E; subst; auto|auto].
      * intros [[E|Hin] [Hr Hc]]; [left; subst; congruence|right; auto].
    + exists found. split; [exact Ef|]. intros s q. rewrite Hf. split.
      * intros [Hin [Hr Hc]]; auto.
      * intros [[E|Hin] [Hr Hc]]; [|auto]. subst s. rewrite Er in Hr. inversion Hr; subst q.
        congruence.
Qed.

Lemma rounded_sorted_in {A : Type} (l : list (A * float)) (x : A * float) :
  In x (Rounded.sorted_desc l) <-> In x l.
Proof.
  assert (forall y s, In x (Rounded.insert_desc y s) <-> x = y \/ In x s) as Hins.
  { intros y s. induction s as [|z s IH]; simpl.
    - split; intros [H|H]; auto.
    - destruct (ltb (snd y) (snd z)); simpl.
      + rewrite IH. split; intros [H|[H|H]]; auto.
      + split; intros [H|H]; auto. }
  induction l as [|y l IH]; simpl; [tauto|].
  rewrite Hins, IH. split; intros [H|H]; auto.
Qed.

End RoundedFacts.

(** C4, as the code has it, in the arithmetic of Python's floats.  For a
    catalog in which every song title and game title is a string with at least
    one word, a non-empty keyword list, and a similarity function that returns
    numbers for these keywords and words, the search returns, and the score
    of a song is: per keyword the larger of the largest similarity of the
    lower-cased keyword to a word of the lower-cased song title and the
    rounded product of 0.8 and the largest similarity to a word of the game
    title; a sub-score that does not exceed 0.7 contributes 0, a larger one
    itself; the sum of the contributions, added in the order of the keywords,
    divided by the number of keywords.  A song is in the result, with this
    score, exactly when the score exceeds the cutoff. *)
Theorem search_scores_songs (ratio : string -> string -> Binary64.float)
    (self : MusicCat) (keywords : list string) (cutoff : Binary64.float) :
  keywords <> [] ->
  (forall song, In song (dict_values (songs self)) ->
     has_words (Song.title song) /\ has_words (Game.title (Song.game song))) ->
  (forall song keyword word,
     In song (dict_values (songs self)) -> In keyword keywords ->
     In word (title_words (Song.title song))
     \/ In word (title_words (Game.title (Song.game song))) ->
     Binary64.is_nan (ratio (lower keyword) word) = false) ->
  exists results,
    Rounded.search ratio self keywords cutoff = Ok results
    /\ forall song r,
         In (song, r) results <->
         In song (dict_values (songs self))
         /\ r = Rounded.spec_score ratio Rounded.floor_up_to keywords
                  (title_words (Song.title song))
                  (title_words (Game.title (Song.game song)))
         /\ Binary64.gtb r cutoff = true.
Proof.
  intros Hk Hall Hn.
  assert (forall song, In song (dict_values (songs self)) ->
            Rounded.song_ratio ratio keywords song
            = Ok (Rounded.spec_score ratio Rounded.floor_up_to keywords
                    (title_words (Song.title song))
                    (title_words (Game.title (Song.game song))))) as Hscore.
  { intros song Hin. destruct (Hall song Hin).
    apply rounded_song_ratio; auto. intros k w. now apply Hn. }
  destruct (rounded_collect ratio keywords cutoff (dict_values (songs self)) [])
    as [found [Ef Hf]].
  { intros song Hin. rewrite (Hscore song Hin). now eexists. }
  exists (Rounded.sorted_desc found). unfold Rounded.search. rewrite Ef. simpl.
  split; [reflexivity|].
  intros song r. rewrite rounded_sorted_in, Hf. split.
  - intros [Hin [Er Hc]]. rewrite (Hscore song Hin) in Er. injection Er as Er. subst r. auto.
  - intros [Hin [Er Hc]]. rewrite (Hscore song Hin). subst r. auto.
Qed.

(** The keyword ["pokemons"] has similarity 14/16 to the game title
    ["pokemonx"]; the rounded product with 0.8 is the float next above 0.7,
    so the sub-score passes the floor and the song is in the result.  The
    second keyword is the title itself, in capitals. *)
Lemma search_scores_songs_witness :
  Rounded.search Levenshtein.ratio64 Sample.edge_catalog ["pokemons"]
    Binary64.three_tenths
  = Ok [(Sample.edge, S754_finite false 6305039478318695 (-53))]
  /\ exists results,
       Rounded.search Levenshtein.ratio64 Sample.edge_catalog ["pokemons"; "ZZZ"]
         Binary64.three_tenths = Ok results
       /\ forall song r,
            In (song, r) results <->
            In song (dict_values (songs Sample.edge_catalog))
            /\ r = Rounded.spec_score Levenshtein.ratio64 Rounded.floor_up_to
                     ["pokemons"; "ZZZ"]
                     (title_words (Song.title song))
                     (title_words (Game.title (Song.game song)))
            /\ Binary64.gtb r Binary64.three_tenths = true.
Proof.
  split; [vm_compute; reflexivity|].
  apply (search_scores_songs Levenshtein.ratio64 Sample.edge_catalog
           ["pokemons"; "ZZZ"] Binary64.three_tenths).
  - discriminate.
  - intros song [E|[]]. subst song. split.
    + exists "zzz". split; [reflexivity|]. vm_compute. discriminate.
    + exists "pokemonx". split; [reflexivity|]. vm_compute. discriminate.
  - intros song keyword word [E|[]] Hk Hw. subst song. vm_compute in Hw.
    destruct Hk as [E|[E|[]]]; subst keyword;
      destruct Hw as [[E|[]]|[E|[]]]; subst word; vm_compute; reflexivity.
Defined.

(** C4, the claim as stated, fails.  The keyword ["victory"] has similarity
    14/20 to the word of the title ["Victoryparade"], which in binary64 is the
    float of the literal [0.7], and 0.8 times 2/10 to the game title: a
    sub-score of 0.7 exactly, which is not below 0.7.  With the claim's floor
    the song scores 0.7 and exceeds the cutoff 0.3; the search leaves the song
    out, because it counts a sub-score only above 0.7. *)
Lemma floor_excludes_exactly_seven_tenths :
  Levenshtein.ratio64 "victory" "victoryparade" = Binary64.seven_tenths
  /\ Rounded.sub_score Levenshtein.ratio64 ["victoryparade"] ["red"] "victory"
     = Binary64.seven_tenths
  /\ Rounded.spec_score Levenshtein.ratio64 Rounded.floor_below ["victory"]
       (title_words (Song.title Sample.parade))
       (title_words (Game.title (Song.game Sample.parade))) = Binary64.seven_tenths
  /\ Binary64.gtb Binary64.seven_tenths Binary64.three_tenths = true
  /\ Rounded.search Levenshtein.ratio64 Sample.parade_catalog ["victory"]
       Binary64.three_tenths = Ok [].
Proof. repeat split; vm_compute; reflexivity. Qed.

(** C3, evaluated.  With one song in the catalog and no keyword the search
    divides by the number of keywords and raises; only an empty catalog
    returns the empty result. *)
Theorem search_without_keywords_raises :
  search Levenshtein.ratio Sample.parade_catalog [] default_cutoff
  = Raise ZeroDivisionError
  /\ search Levenshtein.ratio (Sample.empty false false) [] default_cutoff = Ok [].
Proof. split; vm_compute; reflexivity. Qed.

(** Without keywords every song whose titles are strings raises the division
    by zero, whatever the similarity function and the cutoff. *)
Lemma search_no_keywords (ratio : string -> string -> Q) (self : MusicCat)
    (cutoff : Q) (key : pykey) (song : Song.t) (rest : list (pykey * Song.t))
    (t g : string) :
  songs self = (key, song) :: rest ->
  Song.title song = PStr t ->
  Game.title (Song.game song) = PStr g ->
  search ratio self [] cutoff = Raise ZeroDivisionError.
Proof.
  intros Hs Ht Hg. unfold search. rewrite Hs. simpl. unfold song_ratio.
  rewrite Ht, Hg. reflexivity.
Qed.

(* ------------------------------------------------------------------------- *)
(** * Further properties of the search and of the loader *)
(* ------------------------------------------------------------------------- *)



(** A single [type] of an entry is stored as the one-element list [types]; a
    [types] list is stored as it is. *)
Lemma make_song_types (sys : os) (path : string) (game : Game.t) (song : pydict)
    (newsong : Song.t) :
  make_song sys path game song = Ok newsong ->
  match dict_get String.eqb
          (dict_remove String.eqb (dict_remove String.eqb song "fullpath") "game") "type"
  with
  | Some ty => Song.types newsong = PList [ty]
  | None => dict_get String.eqb
              (dict_remove String.eqb (dict_remove String.eqb song "fullpath") "game")
              "types" = Some (Song.types newsong)
  end.
Proof.
  unfold make_song. destruct (dict_get String.eqb song "path") as [[| p | |]|];
    try discriminate.
  set (d := dict_remove String.eqb (dict_remove String.eqb song "fullpath") "game").
  destruct (dict_get String.eqb d "type") as [ty|] eqn:Et.
  - set (d' := dict_set String.eqb (dict_remove String.eqb d "type") "types" (PList [ty])).
    assert (dict_get String.eqb d' "types" = Some (PList [ty])) as Ets.
    { unfold d'. generalize (dict_remove String.eqb d "type") as c.
      induction c as [|[k v] c IHc]; simpl; [reflexivity|].
      destruct (String.eqb k "types") eqn:E; simpl; rewrite E; auto. }
    rewrite Ets.
    destruct (dict_get String.eqb d' "id"), (dict_get String.eqb d' "title"),
      (dict_get String.eqb d' "path"); try discriminate.
    destruct (only_fields song_fields d'); [|discriminate].
    intro H. now inversion H.
  - destruct (dict_get String.eqb d "id"), (dict_get String.eqb d "title"),
      (dict_get String.eqb d "path"), (dict_get String.eqb d "types");
      try discriminate.
    destruct (only_fields song_fields d); [|discriminate].
    intro H. now inversion H.
Qed.

(** A refresh rebuilds the catalog: the songs it leaves do not depend on the
    songs that were there. *)
Lemma refresh_rebuilds (sys : os) (self : MusicCat) (d : list (pykey * Song.t)) :
  songs (refresh_song_list sys (set_songs self d)) = songs (refresh_song_list sys self).
Proof. now rewrite !refresh_songs. Qed.

(* ------------------------------------------------------------------------- *)
(** * More about the catalog *)
(* ------------------------------------------------------------------------- *)

Section CatalogMore.

Variable sys : os.

Lemma refresh_config self : config (refresh_song_list sys self) = config self.
Proof.
  unfold refresh_song_list.
  assert (config (import_all sys (set_songs self [])
                    (metafiles sys (library_path (set_songs self []))))
          = config self) as H by (now rewrite import_all_config).
  now destruct (Nat.eqb _ 0).
Qed.

Lemma init_config library_path b1 b2 b3 :
  config (init sys library_path b1 b2 b3) = (library_path, b1, b2).
Proof. unfold init. destruct b3; [reflexivity|]. now rewrite refresh_config. Qed.

(** With the missing-file exception enabled a song is stored only if its file
    exists. *)
Lemma add_song_file_exists self newsongs game newsong self' :
  disable_nobrstm_exception self = false ->
  add_song sys self newsongs game newsong = (self', None) ->
  path_isfile sys (Song.fullpath newsong) = true.
Proof.
  intro Hn. unfold add_song.
  destruct (hash_key (Song.id newsong)) as [key|]; [|discriminate].
  add_song_cases self newsongs key newsong sys; congruence.
Qed.

Lemma import_songs_files_exist self newsongs path game entries :
  disable_nobrstm_exception self = false ->
  files_exist sys (songs self) ->
  files_exist sys (songs (fst (import_songs sys self newsongs path game entries))).
Proof.
  revert self; induction entries as [|song entries IH]; intros self Hn H; [exact H|].
  simpl. destruct (make_song sys path game song) as [newsong|e]; [|exact H].
  destruct (add_song sys self newsongs game newsong) as [self' [e|]] eqn:Ea.
  - simpl. rewrite (add_song_raise sys _ _ _ _ _ _ Ea). exact H.
  - pose proof (add_song_config sys self newsongs game newsong) as Hc.
    rewrite Ea in Hc. unfold config in Hc. simpl in Hc. injection Hc as _ Hn' _.
    apply IH; [congruence|].
    destruct (add_song_ok sys _ _ _ _ _ Ea) as [key [Hk Hs]]. rewrite Hs.
    intros k s Hin. apply in_dict_set in Hin. destruct Hin as [E|Hin].
    + inversion E; subst. eapply add_song_file_exists; eauto.
    + now apply (H k s).
Qed.

Lemma import_metadata_files_exist self metafilename :
  disable_nobrstm_exception self = false ->
  files_exist sys (songs self) ->
  files_exist sys (songs (fst (_import_metadata sys self metafilename))).
Proof.
  intros Hn H. unfold _import_metadata.
  destruct (yaml_load sys metafilename) as [doc|e]; [|exact H].
  destruct (doc_songs doc) as [entries|]; [|exact H].
  destruct (make_game _) as [game|e]; [|exact H].
  now apply import_songs_files_exist.
Qed.

Lemma import_all_files_exist files self :
  disable_nobrstm_exception self = false ->
  files_exist sys (songs self) ->
  files_exist sys (songs (import_all sys self files)).
Proof.
  unfold import_all.
  revert self; induction files as [|m files IH]; intros self Hn H; [exact H|].
  simpl. apply IH.
  - pose proof (try_import_config sys self m) as Hc. unfold config in Hc.
    injection Hc as _ Hn' _. congruence.
  - rewrite try_import_songs. now apply import_metadata_files_exist.
Qed.

Lemma refresh_files_exist self :
  disable_nobrstm_exception self = false ->
  files_exist sys (songs (refresh_song_list sys self)).
Proof.
  intro Hn. rewrite refresh_songs. apply import_all_files_exist; [exact Hn|].
  intros k s [].
Qed.

Lemma reachable_files_exist self :
  reachable sys self ->
  disable_nobrstm_exception self = false ->
  files_exist sys (songs self).
Proof.
  induction 1 as [library_path b1 b2 b3|self H IH|self metafilename H IH]; intro Hn.
  - unfold init in *. destruct b3.
    + intros k s [].
    + apply refresh_files_exist.
      pose proof (refresh_config (mkMusicCat library_path b1 b2 [] [])) as Hc.
      unfold config in Hc. injection Hc as _ Hn' _. simpl in *. congruence.
  - apply refresh_files_exist.
    pose proof (refresh_config self) as Hc. unfold config in Hc.
    injection Hc as _ Hn' _. congruence.
  - pose proof (import_metadata_config sys self metafilename) as Hc. unfold config in Hc.
    injection Hc as _ Hn' _.
    apply import_metadata_files_exist; [congruence|]. apply IH. congruence.
Qed.

Lemma reachable_keys_are_ids self : reachable sys self -> keys_are_ids (songs self).
Proof.
  induction 1 as [library_path b1 b2 b3|self H IH|self metafilename H IH].
  - unfold init. destruct b3.
    + intros k v [].
    + apply refresh_keeps; [apply keys_are_ids_set|intros k v []].
  - apply refresh_keeps; [apply keys_are_ids_set|intros k v []].
  - apply import_metadata_keeps; [apply keys_are_ids_set|exact IH].
Qed.

End CatalogMore.

(** X1.  With the missing-file exception enabled (the default), every song of
    a catalog reached through construction, refresh and import has a
    [fullpath] that is an existing file: a song whose file is missing is
    never stored. *)
Theorem catalog_files_exist (sys : os) (self : MusicCat) :
  reachable sys self ->
  disable_nobrstm_exception self = false ->
  forall key song, In (key, song) (songs self) ->
    path_isfile sys (Song.fullpath song) = true.
Proof. intros H Hn. now apply reachable_files_exist. Qed.

Lemma catalog_files_exist_witness :
  Forall (fun item => path_isfile Sample.no_town (Song.fullpath (snd item)) = true)
    (songs (init Sample.no_town "lib" false true false)).
Proof.
  apply Forall_forall. intros [key song] Hin.
  exact (catalog_files_exist Sample.no_town (init Sample.no_town "lib" false true false)
           (reachable_init Sample.no_town "lib" false true false) eq_refl key song Hin).
Defined.

(** X2.  An import never removes an id from the catalog, whatever the
    configuration and whether it raises or not; so a walk over any files only
    adds ids to the ones it started from. *)
Theorem import_never_removes_ids (sys : os) (self : MusicCat) (key : pykey)
    (files : list string) :
  dict_contains pykey_eqb (songs self) key = true ->
  (forall metafilename,
      dict_contains pykey_eqb (songs (fst (_import_metadata sys self metafilename))) key
      = true)
  /\ dict_contains pykey_eqb (songs (import_all sys self files)) key = true.
Proof.
  intro H. split.
  - intro m. apply (import_metadata_keeps sys
                      (fun d => dict_contains pykey_eqb d key = true)); [|exact H].
    intros d k s _ Hd. rewrite contains_set, Hd. reflexivity.
  - apply (import_all_keeps sys (fun d => dict_contains pykey_eqb d key = true)); [|exact H].
    intros d k s _ Hd. rewrite contains_set, Hd. reflexivity.
Qed.

Lemma import_never_removes_ids_witness :
  (forall metafilename,
      dict_contains pykey_eqb
        (songs (fst (_import_metadata Sample.no_town
                       (Sample.after_red Sample.no_town false true) metafilename)))
        (KStr "battle") = true)
  /\ dict_contains pykey_eqb
       (songs (import_all Sample.no_town (Sample.after_red Sample.no_town false true)
                 ["lib/gold/metadata.yaml"; "lib/red/metadata.yaml"]))
       (KStr "battle") = true.
Proof.
  exact (import_never_removes_ids Sample.no_town
           (Sample.after_red Sample.no_town false true) (KStr "battle")
           ["lib/gold/metadata.yaml"; "lib/red/metadata.yaml"] eq_refl).
Defined.

(* ------------------------------------------------------------------------- *)
(** * The catalog does not depend on the log *)
(* ------------------------------------------------------------------------- *)

Section LogIrrelevance.

Variable sys : os.

Lemma add_song_relog self l newsongs game newsong :
  exists l',
    add_song sys (relog self l) newsongs game newsong
    = (relog (fst (add_song sys self newsongs game newsong)) l',
       snd (add_song sys self newsongs game newsong)).
Proof.
  destruct self as [lp f1 f2 d lg]. unfold add_song, relog. simpl.
  destruct (hash_key (Song.id newsong)) as [key|]; [|eexists; reflexivity].
  destruct (dict_get pykey_eqb d key), f2, (dict_contains pykey_eqb newsongs key),
    (path_isfile sys (Song.fullpath newsong)), f1; simpl; eexists; reflexivity.
Qed.

Lemma import_songs_relog self l newsongs path game entries :
  exists l',
    import_songs sys (relog self l) newsongs path game entries
    = (relog (fst (import_songs sys self newsongs path game entries)) l',
       snd (import_songs sys self newsongs path game entries)).
Proof.
  revert self l; induction entries as [|song entries IH]; intros self l.
  - exists l. reflexivity.
  - simpl. destruct (make_song sys path game song) as [newsong|e]; [|now exists l].
    destruct (add_song_relog self l newsongs game newsong) as [l' E]. rewrite E.
    destruct (add_song sys self newsongs game newsong) as [self' [e|]]; simpl.
    + now exists l'.
    + apply IH.
Qed.

Lemma import_metadata_relog self l metafilename :
  exists l',
    _import_metadata sys (relog self l) metafilename
    = (relog (fst (_import_metadata sys self metafilename)) l',
       snd (_import_metadata sys self metafilename)).
Proof.
  unfold _import_metadata.
  destruct (yaml_load sys metafilename) as [doc|e]; [|now exists l].
  destruct (doc_songs doc) as [entries|]; [|now exists l].
  destruct (make_game _) as [game|e]; [|now exists l].
  apply import_songs_relog.
Qed.

Lemma try_import_relog self l metafilename :
  exists l',
    try_import sys (relog self l) metafilename
    = relog (try_import sys self metafilename) l'.
Proof.
  unfold try_import. destruct (import_metadata_relog self l metafilename) as [l' E].
  rewrite E.
  destruct (_import_metadata sys self metafilename) as [self' [e|]]; simpl;
    eexists; reflexivity.
Qed.

Lemma import_all_relog files self l :
  exists l', import_all sys (relog self l) files = relog (import_all sys self files) l'.
Proof.
  unfold import_all.
  revert self l; induction files as [|m files IH]; intros self l; [now exists l|].
  simpl. destruct (try_import_relog self l m) as [l' E]. rewrite E. apply IH.
Qed.

End LogIrrelevance.

Lemma refresh_same_config (sys : os) (self other : MusicCat) :
  config self = config other ->
  songs (refresh_song_list sys self) = songs (refresh_song_list sys other).
Proof.
  intro H. rewrite !refresh_songs.
  destruct self as [lp f1 f2 d lg], other as [lp' f1' f2' d' lg'].
  unfold config in H. simpl in H. injection H as -> -> ->. simpl.
  destruct (import_all_relog sys (metafiles sys lp') (mkMusicCat lp' f1' f2' [] lg') lg)
    as [l' E].
  unfold relog in E. simpl in E. unfold set_songs. simpl. now rewrite E.
Qed.

(** X3.  The songs a refresh leaves depend on the configuration of the catalog
    and on the files alone, not on the songs or the log it had: the catalog
    is rebuilt, and over unchanged files a second refresh gives the songs of
    the first. *)
Theorem refresh_depends_on_config_only (sys : os) (self other : MusicCat) :
  config self = config other ->
  songs (refresh_song_list sys self) = songs (refresh_song_list sys other)
  /\ songs (refresh_song_list sys (refresh_song_list sys self))
     = songs (refresh_song_list sys other).
Proof.
  intro H. split; [now apply refresh_same_config|].
  apply refresh_same_config. now rewrite refresh_config.
Qed.

Lemma refresh_depends_on_config_only_witness :
  songs (refresh_song_list Sample.no_town
           (set_songs (Sample.empty false true) [(KStr "old", Sample.surf)]))
  = songs (refresh_song_list Sample.no_town (Sample.empty false true))
  /\ songs (refresh_song_list Sample.no_town
              (refresh_song_list Sample.no_town
                 (set_songs (Sample.empty false true) [(KStr "old", Sample.surf)])))
     = songs (refresh_song_list Sample.no_town (Sample.empty false true)).
Proof.
  exact (refresh_depends_on_config_only Sample.no_town
           (set_songs (Sample.empty false true) [(KStr "old", Sample.surf)])
           (Sample.empty false true) eq_refl).
Defined.

(* ------------------------------------------------------------------------- *)
(** * What an import logs *)
(* ------------------------------------------------------------------------- *)

Section LoggedConflicts.

Variable sys : os.

Lemma make_song_game path game song newsong :
  make_song sys path game song = Ok newsong -> Song.game newsong = game.
Proof.
  unfold make_song.
  destruct (dict_get String.eqb song "path") as [[| p | |]|]; try discriminate.
  set (d := dict_remove String.eqb (dict_remove String.eqb song "fullpath") "game").
  destruct (dict_get String.eqb d "type") as [ty|].
  - set (d' := dict_set String.eqb (dict_remove String.eqb d "type") "types" (PList [ty])).
    destruct (dict_get String.eqb d' "id"), (dict_get String.eqb d' "title"),
      (dict_get String.eqb d' "path"), (dict_get String.eqb d' "types");
      try discriminate.
    destruct (only_fields song_fields d'); [|discriminate].
    intro H. now inversion H.
  - destruct (dict_get String.eqb d "id"), (dict_get String.eqb d "title"),
      (dict_get String.eqb d "path"), (dict_get String.eqb d "types");
      try discriminate.
    destruct (only_fields song_fields d); [|discriminate].
    intro H. now inversion H.
Qed.

(** What the checks of one song add to the log, when the local dictionary
    [newsongs] is empty as [_import_metadata] leaves it. *)
Lemma add_song_new_log self game newsong r :
  In r (log (fst (add_song sys self [] game newsong))) ->
  In r (log self)
  \/ (exists old, dict_get pykey_eqb (songs self)
                    match hash_key (Song.id newsong) with Some k => k | None => KNone end
                  = Some old
                  /\ r = Error_conflict (Song.id newsong) (Game.id (Song.game old))
                           (Game.id game))
  \/ r = Error_no_brstm (Song.id newsong) (Song.fullpath newsong).
Proof.
  unfold add_song. destruct (hash_key (Song.id newsong)) as [key|]; [|auto].
  unfold dict_contains at 1. simpl.
  destruct (dict_get pykey_eqb (songs self) key) as [old|];
    destruct (disable_id_conflict_exception self) eqn:Ec;
    destruct (path_isfile sys (Song.fullpath newsong));
    destruct (disable_nobrstm_exception self) eqn:En;
    simpl; rewrite ?Ec, ?En; simpl; rewrite ?Ec, ?En; simpl;
    rewrite ?in_app_iff; simpl; intro H; intuition eauto.
Qed.

Lemma import_songs_no_same_game self path game entries r :
  In r (log (fst (import_songs sys self [] path game entries))) ->
  (forall i g, r <> Error_conflict_same_game i g) \/ In r (log self).
Proof.
  revert self; induction entries as [|song entries IH]; intros self H; [now right|].
  simpl in H. destruct (make_song sys path game song) as [newsong|e]; [|now right].
  assert (In r (log (fst (add_song sys self [] game newsong))) ->
          (forall i g, r <> Error_conflict_same_game i g) \/ In r (log self)) as Hone.
  { intro Hr. destruct (add_song_new_log self game newsong r Hr) as [Hl|[[old [_ E]]|E]];
      [now right|left; intros; subst; discriminate|left; intros; subst; discriminate]. }
  destruct (add_song sys self [] game newsong) as [self' [e|]]; simpl in *.
  - now apply Hone.
  - destruct (IH self' H) as [Hd|Hl]; [now left|now apply Hone].
Qed.

(** The song under a key of the entries that have passed belongs to the game
    of the document. *)
Lemma import_songs_own_game self path game pre mid key :
  import_songs sys self [] path game pre = (mid, None) ->
  In key (entries_keys sys path game pre) ->
  exists old, dict_get pykey_eqb (songs mid) key = Some old /\ Song.game old = game.
Proof.
  revert self; induction pre as [|song pre IH]; intros self H Hin; [contradiction|].
  simpl in H, Hin. destruct (make_song sys path game song) as [newsong|e] eqn:Em;
    [|discriminate].
  destruct (add_song sys self [] game newsong) as [self' [e|]] eqn:Ea; [discriminate|].
  destruct (add_song_ok sys _ _ _ _ _ Ea) as [k [Hk Hs]]. rewrite Hk in Hin.
  destruct (in_dec (fun a b => Bool.reflect_dec _ _ (iff_reflect _ _ (iff_sym (pykey_eqb_eq a b))))
              key (entries_keys sys path game pre)) as [Hp|Hp].
  - now apply (IH self').
  - destruct Hin as [E|Hin]; [subst k|contradiction].
    exists newsong. split; [|now apply (make_song_game path game song)].
    pose proof (import_songs_frame sys self' [] path game pre key Hp) as Hf.
    rewrite H in Hf. simpl in Hf. rewrite Hf, Hs. apply get_set_same.
Qed.

End LoggedConflicts.

(** X4.  The check "exists twice in the same game" never fires: its local
    dictionary stays empty, so no import logs that record.  An id that an
    earlier entry of the same document had is caught by the first check
    instead, and logged as a conflict of the game with itself. *)
Theorem duplicate_in_document_logged_as_conflict
    (sys : os) (self mid : MusicCat) (path : string) (game : Game.t)
    (pre : list pydict) (entry : pydict) (newsong : Song.t) (key : pykey) :
  import_songs sys self [] path game pre = (mid, None) ->
  make_song sys path game entry = Ok newsong ->
  hash_key (Song.id newsong) = Some key ->
  In key (entries_keys sys path game pre) ->
  In (Error_conflict (Song.id newsong) (Game.id game) (Game.id game))
     (log (fst (import_songs sys self [] path game (pre ++ [entry]))))
  /\ forall metafilename i g,
       In (Error_conflict_same_game i g)
          (log (fst (_import_metadata sys self metafilename))) ->
       In (Error_conflict_same_game i g) (log self).
Proof.
  intros Hpre Hmake Hk Hin. split.
  - rewrite import_songs_app, Hpre. simpl. rewrite Hmake.
    destruct (import_songs_own_game sys self path game pre mid key Hpre Hin)
      as [old [Hg Ho]].
    assert (In (Error_conflict (Song.id newsong) (Game.id game) (Game.id game))
               (log (fst (add_song sys mid [] game newsong)))) as Hlog.
    { unfold add_song. rewrite Hk, Hg, Ho. unfold dict_contains. simpl.
      destruct (disable_id_conflict_exception mid) eqn:Ec;
        destruct (path_isfile sys (Song.fullpath newsong));
        destruct (disable_nobrstm_exception mid) eqn:En;
        simpl; rewrite ?Ec, ?En; simpl; rewrite ?Ec, ?En; simpl;
        rewrite ?in_app_iff; simpl; auto. }
    destruct (add_song sys mid [] game newsong) as [self' [e|]]; exact Hlog.
  - intros m i g H. unfold _import_metadata in H.
    destruct (yaml_load sys m) as [doc|e]; [|exact H].
    destruct (doc_songs doc) as [entries|]; [|exact H].
    destruct (make_game _) as [game'|e]; [|exact H].
    destruct (import_songs_no_same_game sys self _ game' entries _ H) as [Hd|Hl];
      [|exact Hl].
    exfalso. now apply (Hd i g).
Qed.

Lemma duplicate_in_document_logged_as_conflict_witness :
  In (Error_conflict (PStr "town") (PStr "gold") (PStr "gold"))
     (log (fst (import_songs Sample.complete (Sample.empty true true) [] "lib/gold"
                  Sample.gold_game
                  ([Sample.entry "town" "New Bark Town" "town.brstm" "town"]
                   ++ [Sample.entry "town" "Route 29" "town.brstm" "route"]))))
  /\ forall metafilename i g,
       In (Error_conflict_same_game i g)
          (log (fst (_import_metadata Sample.complete (Sample.empty true true)
                       metafilename))) ->
       In (Error_conflict_same_game i g) (log (Sample.empty true true)).
Proof.
  exact (duplicate_in_document_logged_as_conflict Sample.complete
           (Sample.empty true true)
           (fst (import_songs Sample.complete (Sample.empty true true) [] "lib/gold"
                   Sample.gold_game
                   [Sample.entry "town" "New Bark Town" "town.brstm" "town"]))
           "lib/gold" Sample.gold_game
           [Sample.entry "town" "New Bark Town" "town.brstm" "town"]
           (Sample.entry "town" "Route 29" "town.brstm" "route")
           (Song.mk (PStr "town") (PStr "Route 29") (PStr "town.brstm")
              (PList [PStr "route"]) Sample.gold_game "lib/gold/town.brstm")
           (KStr "town") eq_refl eq_refl eq_refl (or_introl eq_refl)).
Defined.

(* ------------------------------------------------------------------------- *)
(** * Which files are loaded, and what a document must hold *)
(* ------------------------------------------------------------------------- *)

Lemma substring_all (s : string) : substring 0 (String.length s) s = s.
Proof. induction s as [|c s IH]; simpl; congruence. Qed.

Lemma substring_append (stem suffix : string) :
  substring (String.length stem) (String.length suffix) (stem ++ suffix) = suffix.
Proof. induction stem as [|c stem IH]; simpl; [apply substring_all|exact IH]. Qed.

Lemma substring_cut (s : string) (k : nat) :
  (k <= String.length s)%nat ->
  s = (substring 0 k s ++ substring k (String.length s - k) s)%string.
Proof.
  revert k; induction s as [|c s IH]; intros k Hk.
  - destruct k; simpl in *; [reflexivity|lia].
  - destruct k as [|k]; simpl.
    + now rewrite substring_all.
    + simpl in Hk. rewrite <- (IH k) by lia. reflexivity.
Qed.

Lemma length_append (a b : string) :
  String.length (a ++ b) = (String.length a + String.length b)%nat.
Proof. induction a as [|c a IH]; simpl; congruence. Qed.

(** [filename.endswith(suffix)] holds of the names that are a stem followed by
    the suffix. *)
Lemma endswith_iff (filename suffix : string) :
  endswith filename suffix = true <-> exists stem, filename = (stem ++ suffix)%string.
Proof.
  unfold endswith. split.
  - intro H. apply andb_true_iff in H. destruct H as [Hle He].
    apply Nat.leb_le in Hle. apply String.eqb_eq in He.
    exists (substring 0 (String.length filename - String.length suffix) filename).
    rewrite (substring_cut filename (String.length filename - String.length suffix))
      at 1 by lia.
    f_equal. rewrite <- He at 3. f_equal. lia.
  - intros [stem E]. subst. rewrite length_append. apply andb_true_iff. split.
    + apply Nat.leb_le. lia.
    + replace (String.length stem + String.length suffix - String.length suffix)%nat
        with (String.length stem) by lia.
      rewrite substring_append. apply String.eqb_refl.
Qed.

Section LoadedFiles.

Variable sys : os.

Lemma import_songs_reloaded load self newsongs path game entries :
  import_songs (reloaded sys load) self newsongs path game entries
  = import_songs sys self newsongs path game entries.
Proof.
  revert self; induction entries as [|song entries IH]; intro self; [reflexivity|].
  simpl.
  change (make_song (reloaded sys load) path game song) with (make_song sys path game song).
  destruct (make_song sys path game song) as [newsong|e]; [|reflexivity].
  change (add_song (reloaded sys load) self newsongs game newsong)
    with (add_song sys self newsongs game newsong).
  destruct (add_song sys self newsongs game newsong) as [self' [e|]]; [reflexivity|].
  apply IH.
Qed.

Lemma import_metadata_reloaded load self metafilename :
  load metafilename = yaml_load sys metafilename ->
  _import_metadata (reloaded sys load) self metafilename
  = _import_metadata sys self metafilename.
Proof.
  intro H. unfold _import_metadata. simpl. rewrite H.
  destruct (yaml_load sys metafilename) as [doc|e]; [|reflexivity].
  destruct (doc_songs doc) as [entries|]; [|reflexivity].
  destruct (make_game _) as [game|e]; [|reflexivity].
  apply import_songs_reloaded.
Qed.

Lemma import_all_reloaded load files self :
  (forall metafilename, In metafilename files ->
     load metafilename = yaml_load sys metafilename) ->
  import_all (reloaded sys load) self files = import_all sys self files.
Proof.
  unfold import_all.
  revert self; induction files as [|m files IH]; intros self H; [reflexivity|].
  simpl. unfold try_import at 2 4.
  rewrite (import_metadata_reloaded load self m (H m (or_introl eq_refl))).
  apply IH. intros m' Hm'. apply H. now right.
Qed.

(** A file of the list whose load raises is in the log. *)
Lemma import_all_logs_load_error files self metafilename e :
  In metafilename files -> yaml_load sys metafilename = Raise e ->
  In (Error_loading_file metafilename e) (log (import_all sys self files)).
Proof.
  unfold import_all.
  revert self; induction files as [|m files IH]; intros self Hin He; [contradiction|].
  simpl. destruct Hin as [<-|Hin]; [|now apply IH].
  fold (import_all sys (try_import sys self m) files). apply import_all_log.
  unfold try_import, _import_metadata. rewrite He. simpl.
  apply in_or_app. right. now left.
Qed.

End LoadedFiles.

(** X5.  A refresh opens the files of the walk whose name is a stem followed
    by [".yaml"], each under the path joined from its directory and its name,
    and no other file.  What loading any other path would give has no effect
    on the refresh: with a loader that agrees with the files on these paths
    the refresh leaves the same catalog and the same log.  And each of these
    paths is loaded: one whose load raises is in the log, with what it
    raised. *)
Theorem refresh_loads_yaml_files_only (sys : os) (self : MusicCat)
    (load : string -> result document) :
  (forall root files stem,
     In (root, files) (walk sys (library_path self)) ->
     In (stem ++ ".yaml")%string files ->
     load (path_join sys root (stem ++ ".yaml")%string)
     = yaml_load sys (path_join sys root (stem ++ ".yaml")%string)) ->
  refresh_song_list (reloaded sys load) self = refresh_song_list sys self
  /\ forall root files stem e,
       In (root, files) (walk sys (library_path self)) ->
       In (stem ++ ".yaml")%string files ->
       yaml_load sys (path_join sys root (stem ++ ".yaml")%string) = Raise e ->
       In (Error_loading_file (path_join sys root (stem ++ ".yaml")%string) e)
          (log (refresh_song_list sys self)).
Proof.
  intro H.
  assert (forall m, In m (metafiles sys (library_path self)) <->
            exists root files stem,
              In (root, files) (walk sys (library_path self))
              /\ In (stem ++ ".yaml")%string files
              /\ m = path_join sys root (stem ++ ".yaml")%string) as Hfiles.
  { intro m. unfold metafiles. rewrite in_flat_map. split.
    - intros [[root files] [Hw Hm]]. apply in_map_iff in Hm.
      destruct Hm as [filename [E Hf]]. apply filter_In in Hf. destruct Hf as [Hf He].
      apply endswith_iff in He. destruct He as [stem ->].
      exists root, files, stem. auto.
    - intros [root [files [stem [Hw [Hf E]]]]]. exists (root, files). split; [exact Hw|].
      apply in_map_iff. exists (stem ++ ".yaml")%string. split; [now symmetry|].
      apply filter_In. split; [exact Hf|]. apply endswith_iff. now exists stem. }
  split.
  - unfold refresh_song_list. simpl library_path.
    change (metafiles (reloaded sys load) (library_path self))
      with (metafiles sys (library_path self)).
    rewrite (import_all_reloaded sys load); [reflexivity|].
    intros m Hm. apply Hfiles in Hm. destruct Hm as [root [files [stem [Hw [Hf ->]]]]].
    now apply (H root files stem).
  - intros root files stem e Hw Hf He.
    assert (In (path_join sys root (stem ++ ".yaml")%string)
              (metafiles sys (library_path self))) as Hm.
    { apply Hfiles. exists root, files, stem. auto. }
    unfold refresh_song_list. simpl library_path.
    pose proof (import_all_logs_load_error sys _ (set_songs self []) _ e Hm He) as Hlog.
    destruct (Nat.eqb _ 0); [|exact Hlog]. simpl. apply in_or_app. now left.
Qed.

(** In the library with the directory of notes, a loader that finds a
    document in the picture ["cover.png"] and in ["todo.txt"] changes nothing;
    and ["todo.yaml"], which cannot be loaded, is in the log. *)
Lemma refresh_loads_yaml_files_only_witness :
  refresh_song_list
    (reloaded Sample.with_notes
       (fun metafilename =>
          if String.eqb metafilename "lib/red/cover.png"
             || String.eqb metafilename "lib/notes/todo.txt"
          then Ok Sample.crystal
          else Sample.load metafilename))
    (Sample.empty false false)
  = refresh_song_list Sample.with_notes (Sample.empty false false)
  /\ In (Error_loading_file "lib/notes/todo.yaml" LoadError)
        (log (refresh_song_list Sample.with_notes (Sample.empty false false))).
Proof.
  assert (forall root files stem,
            In (root, files) (walk Sample.with_notes
                                (library_path (Sample.empty false false))) ->
            In (stem ++ ".yaml")%string files ->
            (fun metafilename =>
               if String.eqb metafilename "lib/red/cover.png"
                  || String.eqb metafilename "lib/notes/todo.txt"
               then Ok Sample.crystal
               else Sample.load metafilename)
              (path_join Sample.with_notes root (stem ++ ".yaml")%string)
            = yaml_load Sample.with_notes
                (path_join Sample.with_notes root (stem ++ ".yaml")%string)) as H.
  { intros root files stem Hw Hf. cbv beta.
    assert (forall other,
              endswith other ".yaml" = false ->
              String.eqb (path_join Sample.with_notes root (stem ++ ".yaml")%string) other
              = false) as E.
    { intros other Ho. apply String.eqb_neq. intro E.
      assert (endswith (path_join Sample.with_notes root (stem ++ ".yaml")%string)
                ".yaml" = true) as Hy.
      { apply endswith_iff.
        destruct Hw as [Hw|[Hw|[Hw|[]]]]; inversion Hw; subst root files;
          [exists ("lib/red/" ++ stem)%string|exists ("lib/gold/" ++ stem)%string
          |exists ("lib/notes/" ++ stem)%string]; reflexivity. }
      rewrite E in Hy. congruence. }
    rewrite (E "lib/red/cover.png" eq_refl), (E "lib/notes/todo.txt" eq_refl).
    reflexivity. }
  pose proof (refresh_loads_yaml_files_only Sample.with_notes (Sample.empty false false)
                _ H) as [H1 H2].
  split; [exact H1|].
  apply (H2 "lib/notes" ["todo.yaml"; "todo.txt"] "todo" LoadError).
  - right. right. now left.
  - now left.
  - reflexivity.
Defined.

Section StringDict.

Context {V : Type}.
Implicit Types (d : list (string * V)) (k : string) (v : V).

Lemma sget_remove_other d j k :
  j <> k -> dict_get String.eqb (dict_remove String.eqb d k) j = dict_get String.eqb d j.
Proof.
  intro H. induction d as [|[k' v'] d IH]; simpl; [reflexivity|].
  destruct (String.eqb k' k) eqn:E; simpl.
  - apply String.eqb_eq in E. subst k'.
    destruct (String.eqb k j) eqn:E'; [|exact IH].
    apply String.eqb_eq in E'. congruence.
  - destruct (String.eqb k' j); auto.
Qed.

Lemma sget_set_other d j k v :
  j <> k -> dict_get String.eqb (dict_set String.eqb d k v) j = dict_get String.eqb d j.
Proof.
  intro H. induction d as [|[k' v'] d IH]; simpl.
  - destruct (String.eqb k j) eqn:E; [|reflexivity].
    apply String.eqb_eq in E. congruence.
  - destruct (String.eqb k' k) eqn:E; simpl.
    + apply String.eqb_eq in E. subst k'.
      destruct (String.eqb k j) eqn:E'; [|reflexivity].
      apply String.eqb_eq in E'. congruence.
    + destruct (String.eqb k' j); auto.
Qed.

Lemma sget_set_same d k v : dict_get String.eqb (dict_set String.eqb d k v) k = Some v.
Proof.
  induction d as [|[k' v'] d IH]; simpl.
  - now rewrite String.eqb_refl.
  - destruct (String.eqb k' k) eqn:E; simpl; rewrite E; auto.
Qed.

Lemma skeys_remove d j k :
  In j (dict_keys d) -> j <> k -> In j (dict_keys (dict_remove String.eqb d k)).
Proof.
  intros Hin H. induction d as [|[k' v'] d IH]; simpl in *; [contradiction|].
  destruct (String.eqb k' k) eqn:E.
  - apply String.eqb_eq in E. subst k'. destruct Hin as [E|Hin]; [congruence|auto].
  - simpl. destruct Hin; auto.
Qed.

Lemma skeys_set d j k v :
  In j (dict_keys d) -> In j (dict_keys (dict_set String.eqb d k v)).
Proof.
  intro Hin. induction d as [|[k' v'] d IH]; simpl in *; [contradiction|].
  destruct (String.eqb k' k); simpl; destruct Hin; auto.
Qed.

Lemma sget_in_keys d k v : dict_get String.eqb d k = Some v -> In k (dict_keys d).
Proof.
  induction d as [|[k' v'] d IH]; simpl; [discriminate|].
  destruct (String.eqb k' k) eqn:E; [|auto].
  apply String.eqb_eq in E. auto.
Qed.

End StringDict.

Lemma only_fields_in (names : list string) (kwargs : pydict) (k : string) :
  only_fields names kwargs = true -> In k (dict_keys kwargs) -> In k names.
Proof.
  unfold only_fields. intros H Hin.
  rewrite forallb_forall in H. specialize (H k Hin).
  apply existsb_exists in H. destruct H as [n [Hn E]].
  apply String.eqb_eq in E. now subst.
Qed.

(** X6.  What a song of a document is made of.  Its [path] is the entry's,
    which is a string, and its [fullpath] is the document's directory joined
    with it; [id] and [title] are the entry's; [game] is the document's game;
    a single [type] is stored as the one-element list [types] (also when the
    entry has [types] besides), and without [type] the entry's [types] is
    stored as it is.  An entry with any other key than these is refused. *)
Theorem song_is_read_off_its_entry (sys : os) (path : string) (game : Game.t)
    (entry : pydict) (newsong : Song.t) :
  make_song sys path game entry = Ok newsong ->
  (exists p, dict_get String.eqb entry "path" = Some (PStr p)
             /\ Song.path newsong = PStr p
             /\ Song.fullpath newsong = path_join sys path p)
  /\ dict_get String.eqb entry "id" = Some (Song.id newsong)
  /\ dict_get String.eqb entry "title" = Some (Song.title newsong)
  /\ Song.game newsong = game
  /\ match dict_get String.eqb entry "type" with
     | Some ty => Song.types newsong = PList [ty]
     | None => dict_get String.eqb entry "types" = Some (Song.types newsong)
     end
  /\ forall k, In k (dict_keys entry) ->
       In k ["id"; "title"; "path"; "types"; "type"; "fullpath"; "game"].
Proof.
  unfold make_song.
  destruct (dict_get String.eqb entry "path") as [[| p | |]|] eqn:Ep; try discriminate.
  set (d := dict_remove String.eqb (dict_remove String.eqb entry "fullpath") "game").
  assert (forall k, k <> "fullpath" -> k <> "game" ->
                    dict_get String.eqb d k = dict_get String.eqb entry k) as Hd.
  { intros k H1 H2. unfold d. now rewrite !sget_remove_other. }
  assert (forall k, In k (dict_keys entry) -> k <> "fullpath" -> k <> "game" ->
                    In k (dict_keys d)) as Hkeys.
  { intros k Hin H1 H2. unfold d. now repeat apply skeys_remove. }
  rewrite (Hd "type") by discriminate.
  destruct (dict_get String.eqb entry "type") as [ty|] eqn:Et.
  - set (d' := dict_set String.eqb (dict_remove String.eqb d "type") "types" (PList [ty])).
    assert (forall k, k <> "types" -> k <> "type" -> k <> "fullpath" -> k <> "game" ->
                      dict_get String.eqb d' k = dict_get String.eqb entry k) as Hd'.
    { intros k H1 H2 H3 H4. unfold d'.
      rewrite sget_set_other, sget_remove_other by assumption. now apply Hd. }
    rewrite (Hd' "id"), (Hd' "title"), (Hd' "path"), Ep by discriminate.
    unfold d' at 1. rewrite sget_set_same.
    destruct (dict_get String.eqb entry "id") as [i|]; [|discriminate].
    destruct (dict_get String.eqb entry "title") as [t|]; [|discriminate].
    destruct (only_fields song_fields d') eqn:Eo; [|discriminate].
    intro H. inversion H; subst; clear H. simpl.
    split; [now exists p|]. repeat split.
    intros k Hin.
    destruct (string_dec k "fullpath") as [->|H1]; [simpl; tauto|].
    destruct (string_dec k "game") as [->|H2]; [simpl; tauto|].
    destruct (string_dec k "type") as [->|H3]; [simpl; tauto|].
    assert (In k song_fields) as Hs.
    { apply (only_fields_in _ d' k Eo). unfold d'. apply skeys_set.
      apply skeys_remove; [|exact H3]. now apply Hkeys. }
    simpl in Hs. simpl. tauto.
  - rewrite (Hd "id"), (Hd "title"), (Hd "path"), (Hd "types"), Ep by discriminate.
    destruct (dict_get String.eqb entry "id") as [i|]; [|discriminate].
    destruct (dict_get String.eqb entry "title") as [t|]; [|discriminate].
    destruct (dict_get String.eqb entry "types") as [ts|]; [|discriminate].
    destruct (only_fields song_fields d) eqn:Eo; [|discriminate].
    intro H. inversion H; subst; clear H. simpl.
    split; [now exists p|]. repeat split.
    intros k Hin.
    destruct (string_dec k "fullpath") as [->|H1]; [simpl; tauto|].
    destruct (string_dec k "game") as [->|H2]; [simpl; tauto|].
    assert (In k song_fields) as Hs.
    { apply (only_fields_in _ d k Eo). now apply Hkeys. }
    simpl in Hs. simpl. tauto.
Qed.

Lemma song_is_read_off_its_entry_witness :
  (exists p, dict_get String.eqb (Sample.entry "town" "New Bark Town" "town.brstm" "town")
               "path" = Some (PStr p)
             /\ Song.path Sample.gold_town = PStr p
             /\ Song.fullpath Sample.gold_town = path_join Sample.complete "lib/gold" p)
  /\ dict_get String.eqb (Sample.entry "town" "New Bark Town" "town.brstm" "town") "id"
     = Some (Song.id Sample.gold_town)
  /\ dict_get String.eqb (Sample.entry "town" "New Bark Town" "town.brstm" "town") "title"
     = Some (Song.title Sample.gold_town)
  /\ Song.game Sample.gold_town = Sample.gold_game
  /\ match dict_get String.eqb (Sample.entry "town" "New Bark Town" "town.brstm" "town")
             "type" with
     | Some ty => Song.types Sample.gold_town = PList [ty]
     | None => dict_get String.eqb
                 (Sample.entry "town" "New Bark Town" "town.brstm" "town") "types"
               = Some (Song.types Sample.gold_town)
     end
  /\ forall k, In k (dict_keys (Sample.entry "town" "New Bark Town" "town.brstm" "town")) ->
       In k ["id"; "title"; "path"; "types"; "type"; "fullpath"; "game"].
Proof.
  exact (song_is_read_off_its_entry Sample.complete "lib/gold" Sample.gold_game
           (Sample.entry "town" "New Bark Town" "town.brstm" "town")
           Sample.gold_town eq_refl).
Defined.

Lemma make_game_fields (gamedata : pydict) (game : Game.t) :
  make_game gamedata = Ok game ->
  dict_get String.eqb gamedata "id" = Some (Game.id game)
  /\ dict_get String.eqb gamedata "title" = Some (Game.title game)
  /\ dict_get String.eqb gamedata "platform" = Some (Game.platform game)
  /\ dict_get String.eqb gamedata "year" = Some (Game.year game)
  /\ dict_get String.eqb gamedata "series" = Some (Game.series game)
  /\ dict_get String.eqb gamedata "path" = Some (Game.path game)
  /\ forall k, In k (dict_keys gamedata) -> In k game_fields.
Proof.
  unfold make_game.
  destruct (dict_get String.eqb gamedata "id"), (dict_get String.eqb gamedata "title"),
    (dict_get String.eqb gamedata "platform"), (dict_get String.eqb gamedata "year"),
    (dict_get String.eqb gamedata "series"), (dict_get String.eqb gamedata "path");
    try discriminate.
  destruct (only_fields game_fields gamedata) eqn:Eo; [|discriminate].
  intro H. inversion H; subst; clear H.
  repeat (split; [reflexivity|]).
  intros k Hin. exact (only_fields_in game_fields gamedata k Eo Hin).
Qed.

(** X7.  An import that does not raise has loaded a document with a [songs]
    key whose other keys hold [id], [title], [platform], [year] and [path] and
    nothing besides these and [series]; the game of its songs has these values,
    and [None] for a [series] the document does not give. *)
Theorem imported_document_has_game_fields (sys : os) (self : MusicCat)
    (metafilename : string) :
  snd (_import_metadata sys self metafilename) = None ->
  exists doc entries game,
    yaml_load sys metafilename = Ok doc
    /\ doc_songs doc = Some entries
    /\ dict_get String.eqb (fields doc) "id" = Some (Game.id game)
    /\ dict_get String.eqb (fields doc) "title" = Some (Game.title game)
    /\ dict_get String.eqb (fields doc) "platform" = Some (Game.platform game)
    /\ dict_get String.eqb (fields doc) "year" = Some (Game.year game)
    /\ dict_get String.eqb (fields doc) "path" = Some (Game.path game)
    /\ Game.series game = match dict_get String.eqb (fields doc) "series" with
                          | Some series => series
                          | None => PNone
                          end
    /\ (forall k, In k (dict_keys (fields doc)) -> In k game_fields)
    /\ _import_metadata sys self metafilename
       = import_songs sys self [] (path_dirname sys metafilename) game entries.
Proof.
  unfold _import_metadata.
  destruct (yaml_load sys metafilename) as [doc|e] eqn:Ey; [|discriminate].
  destruct (doc_songs doc) as [entries|] eqn:Ed; [|discriminate].
  unfold dict_contains.
  destruct (dict_get String.eqb (fields doc) "series") as [series|] eqn:Es.
  - destruct (make_game (fields doc)) as [game|e] eqn:Eg; [|discriminate].
    intros _. exists doc, entries, game.
    destruct (make_game_fields _ _ Eg) as [H1 [H2 [H3 [H4 [H5 [H6 H7]]]]]].
    rewrite Es in H5. inversion H5. rewrite Es. repeat split; auto.
  - destruct (make_game (dict_set String.eqb (fields doc) "series" PNone)) as [game|e] eqn:Eg;
      [|discriminate].
    intros _. exists doc, entries, game.
    destruct (make_game_fields _ _ Eg) as [H1 [H2 [H3 [H4 [H5 [H6 H7]]]]]].
    rewrite sget_set_other in H1, H2, H3, H4, H6 by discriminate.
    rewrite sget_set_same in H5. inversion H5. rewrite Es.
    repeat split; auto.
    intros k Hin. apply H7. now apply skeys_set.
Qed.

Lemma imported_document_has_game_fields_witness :
  exists doc entries game,
    yaml_load Sample.complete "lib/gold/metadata.yaml" = Ok doc
    /\ doc_songs doc = Some entries
    /\ dict_get String.eqb (fields doc) "id" = Some (Game.id game)
    /\ dict_get String.eqb (fields doc) "title" = Some (Game.title game)
    /\ dict_get String.eqb (fields doc) "platform" = Some (Game.platform game)
    /\ dict_get String.eqb (fields doc) "year" = Some (Game.year game)
    /\ dict_get String.eqb (fields doc) "path" = Some (Game.path game)
    /\ Game.series game = match dict_get String.eqb (fields doc) "series" with
                          | Some series => series
                          | None => PNone
                          end
    /\ (forall k, In k (dict_keys (fields doc)) -> In k game_fields)
    /\ _import_metadata Sample.complete (Sample.empty false false) "lib/gold/metadata.yaml"
       = import_songs Sample.complete (Sample.empty false false) []
           (path_dirname Sample.complete "lib/gold/metadata.yaml") game entries.
Proof.
  exact (imported_document_has_game_fields Sample.complete (Sample.empty false false)
           "lib/gold/metadata.yaml" eq_refl).
Defined.

(* ------------------------------------------------------------------------- *)
(** * More about the ranked search *)
(* ------------------------------------------------------------------------- *)



Section SearchBounds.

Variable ratio : string -> string -> Q.
Hypothesis ratio_bounds : forall a b, 0 <= ratio a b /\ ratio a b <= 1.




End SearchBounds.

Section SearchMore.

Variable ratio : string -> string -> Q.

(** Whatever the songs are, the items [collect] adds are songs of the list
    with their ratio, above the cutoff; and every song of the list was
    scored. *)
Lemma collect_ok keywords cutoff all results out :
  collect ratio keywords cutoff all results = Ok out ->
  (forall song, In song all -> exists r, song_ratio ratio keywords song = Ok r)
  /\ forall item, In item out ->
       In item results
       \/ (In (fst item) all /\ song_ratio ratio keywords (fst item) = Ok (snd item)
           /\ cutoff < snd item).
Proof.
  revert results; induction all as [|song all IH]; intros results H.
  - inversion H; subst. split; [intros s []|auto].
  - simpl in H. destruct (song_ratio ratio keywords song) as [r|e] eqn:Er; [|discriminate].
    simpl in H. apply IH in H. destruct H as [Hall Hitems]. split.
    + intros s [E|Hin]; [subst; now exists r|auto].
    + intros item Hin. destruct (Hitems item Hin) as [Hres|[Ha [Hr Hc]]].
      * destruct (Qgtb r cutoff) eqn:Eg; [|auto].
        apply in_app_or in Hres. destruct Hres as [Hres|[E|[]]]; [auto|].
        subst item. right. simpl. apply Qgtb_lt in Eg. auto.
      * right. simpl. auto.
Qed.

Lemma add_keywords_lower haystack1 haystack2 keywords keywords' acc :
  map lower keywords = map lower keywords' ->
  add_keywords ratio haystack1 haystack2 keywords acc
  = add_keywords ratio haystack1 haystack2 keywords' acc.
Proof.
  revert keywords' acc; induction keywords as [|k ks IH]; intros [|k' ks'] acc H;
    try discriminate; [reflexivity|].
  simpl in H. injection H as Hk Hks. simpl. unfold subratio. rewrite Hk.
  destruct (py_max (map (ratio (lower k')) haystack1)) as [s1|e]; [|reflexivity].
  destruct (py_max (map (ratio (lower k')) haystack2)) as [s2|e]; [|reflexivity].
  simpl. now apply IH.
Qed.

Lemma collect_lower keywords keywords' cutoff all results :
  map lower keywords = map lower keywords' ->
  collect ratio keywords cutoff all results = collect ratio keywords' cutoff all results.
Proof.
  intro H. revert results; induction all as [|song all IH]; intro results; [reflexivity|].
  simpl. unfold song_ratio.
  rewrite (add_keywords_lower _ _ keywords keywords' 0 H) || idtac.
  destruct (haystack (Song.title song)) as [h1|e]; [|reflexivity].
  destruct (haystack (Game.title (Song.game song))) as [h2|e]; [|reflexivity].
  simpl. rewrite (add_keywords_lower h1 h2 keywords keywords' 0 H).
  assert (length keywords = length keywords') as El
    by (rewrite <- (length_map lower keywords), H; apply length_map).
  rewrite El.
  destruct (add_keywords ratio h1 h2 keywords' 0) as [s|e]; [|reflexivity].
  simpl. destruct (divide s (length keywords')) as [r|e]; [|reflexivity].
  simpl. apply IH.
Qed.

End SearchMore.



(** X9.  The search compares keywords without regard to case: two keyword
    lists that are equal once lower-cased give the same result, or the same
    exception. *)
Theorem search_ignores_keyword_case (ratio : string -> string -> Q) (self : MusicCat)
    (keywords keywords' : list string) (cutoff : Q) :
  map lower keywords = map lower keywords' ->
  search ratio self keywords cutoff = search ratio self keywords' cutoff.
Proof.
  intro H. unfold search. now rewrite (collect_lower ratio keywords keywords' cutoff _ [] H).
Qed.

Lemma search_ignores_keyword_case_witness :
  search Levenshtein.ratio Sample.parade_catalog ["VictoryP"; "RED"] default_cutoff
  = search Levenshtein.ratio Sample.parade_catalog ["victoryp"; "Red"] default_cutoff.
Proof.
  exact (search_ignores_keyword_case Levenshtein.ratio Sample.parade_catalog
           ["VictoryP"; "RED"] ["victoryp"; "Red"] default_cutoff eq_refl).
Defined.

Lemma py_max_ok_nonempty (xs : list Q) (r : Q) : py_max xs = Ok r -> xs <> [].
Proof. destruct xs; [discriminate|]. intros _ H. discriminate. Qed.

Lemma song_ratio_ok_has_words (ratio : string -> string -> Q) (keywords : list string)
    (song : Song.t) (r : Q) :
  song_ratio ratio keywords song = Ok r ->
  keywords <> []
  /\ has_words (Song.title song) /\ has_words (Game.title (Song.game song)).
Proof.
  unfold song_ratio, haystack.
  destruct (Song.title song) as [| t | |]; try discriminate.
  destruct (Game.title (Song.game song)) as [| g | |]; try discriminate.
  simpl. destruct keywords as [|k ks].
  - simpl. discriminate.
  - simpl. unfold subratio.
    destruct (py_max (map (ratio (lower k)) (py_set (split (lower t))))) as [s1|e] eqn:E1;
      [|discriminate].
    destruct (py_max (map (ratio (lower k)) (py_set (split (lower g))))) as [s2|e] eqn:E2;
      [|discriminate].
    intros _. split; [discriminate|].
    apply py_max_ok_nonempty in E1, E2.
    split; [exists t|exists g]; (split; [reflexivity|]); intro E;
      [apply E1|apply E2]; rewrite E; reflexivity.
Qed.

Section SearchErrors.

Variable ratio : string -> string -> Q.

Lemma py_set_cons (word : string) (words : list string) :
  exists first rest, py_set (word :: words) = first :: rest.
Proof.
  destruct (py_set (word :: words)) as [|first rest] eqn:E.
  - exfalso. apply (py_set_nonempty (word :: words)); [discriminate|exact E].
  - now exists first, rest.
Qed.

(** The scoring of a song raises what [song_error] says, and returns when it
    says nothing. *)
Lemma song_ratio_error (keywords : list string) (song : Song.t) :
  match song_error keywords song with
  | Some e => song_ratio ratio keywords song = Raise e
  | None => exists r, song_ratio ratio keywords song = Ok r
  end.
Proof.
  unfold song_error, song_ratio, haystack.
  destruct (Song.title song) as [|t| |]; try reflexivity.
  destruct (Game.title (Song.game song)) as [|g| |]; try reflexivity.
  simpl. destruct keywords as [|k ks]; [reflexivity|].
  destruct (split (lower t)) as [|w1 ws1] eqn:E1.
  - reflexivity.
  - destruct (py_set_cons w1 ws1) as [f1 [r1 P1]]. rewrite P1.
    destruct (split (lower g)) as [|w2 ws2] eqn:E2.
    + reflexivity.
    + destruct (py_set_cons w2 ws2) as [f2 [r2 P2]]. rewrite P2.
      destruct (add_keywords_returns ratio (f1 :: r1) (f2 :: r2) (k :: ks) 0)
        as [r Er]; try discriminate.
      rewrite Er. simpl. eexists. reflexivity.
Qed.

Lemma collect_error keywords cutoff all results e :
  collect ratio keywords cutoff all results = Raise e <->
  exists before song after,
    all = before ++ song :: after
    /\ (forall s, In s before -> song_error keywords s = None)
    /\ song_error keywords song = Some e.
Proof.
  revert results; induction all as [|song all IH]; intro results.
  - simpl. split; [discriminate|]. intros [[|s before] [s' [after [E _]]]]; discriminate.
  - simpl. pose proof (song_ratio_error keywords song) as Hs.
    destruct (song_error keywords song) as [e'|] eqn:Ee.
    + rewrite Hs. simpl. split.
      * intro H. inversion H; subst e'. exists [], song, all.
        split; [reflexivity|]. split; [intros s []|exact Ee].
      * intros [[|s before] [s' [after [E [Hb He]]]]].
        -- simpl in E. inversion E; subst s'. congruence.
        -- simpl in E. inversion E; subst s.
           rewrite (Hb song (or_introl eq_refl)) in Ee. discriminate.
    + destruct Hs as [r Er]. rewrite Er. simpl. rewrite IH. split.
      * intros [before [s' [after [E [Hb He]]]]].
        exists (song :: before), s', after. subst all.
        split; [reflexivity|]. split; [|exact He].
        intros s [<-|Hin]; auto.
      * intros [[|s before] [s' [after [E [Hb He]]]]].
        -- simpl in E. inversion E; subst s'. congruence.
        -- simpl in E. inversion E; subst s all.
           exists before, s', after. split; [reflexivity|]. split; [|exact He].
           intros s Hin. apply Hb. now right.
Qed.

End SearchErrors.

(** X10.  When the search returns and what it raises.  It returns exactly when
    the catalog is empty, or there is a keyword and every song title and game
    title of the catalog is a string with at least one word.  Otherwise it
    raises at the first song, in the order of the catalog, that cannot be
    scored: [AttributeError] for a title or a game title that is no string,
    else [ZeroDivisionError] when there is no keyword, else [ValueError] for
    a title or a game title without a word. *)
Theorem search_returns_iff (ratio : string -> string -> Q) (self : MusicCat)
    (keywords : list string) (cutoff : Q) :
  ((exists results, search ratio self keywords cutoff = Ok results) <->
   songs self = []
   \/ (keywords <> []
       /\ forall song, In song (dict_values (songs self)) ->
            has_words (Song.title song) /\ has_words (Game.title (Song.game song))))
  /\ forall e,
       search ratio self keywords cutoff = Raise e <->
       exists before song after,
         dict_values (songs self) = before ++ song :: after
         /\ (forall s, In s before -> song_error keywords s = None)
         /\ song_error keywords song = Some e.
Proof.
  split.
  - split.
    + intros [results H]. unfold search in H.
      destruct (collect ratio keywords cutoff (dict_values (songs self)) [])
        as [found|e] eqn:Ec; [|discriminate].
      destruct (collect_ok ratio _ _ _ _ _ Ec) as [Hall _].
      destruct (songs self) as [|[key song] rest] eqn:Es; [now left|]. right.
      destruct (Hall song (or_introl eq_refl)) as [r Hr].
      split; [exact (proj1 (song_ratio_ok_has_words ratio keywords song r Hr))|].
      intros s Hin. destruct (Hall s Hin) as [r' Hr'].
      exact (proj2 (song_ratio_ok_has_words ratio keywords s r' Hr')).
    + intros [Es|[Hk Hall]].
      * exists []. unfold search. now rewrite Es.
      * destruct (collect_results ratio keywords cutoff (dict_values (songs self)) [])
          as [found [Ef _]].
        -- intros song Hin. destruct (Hall song Hin) as [H1 H2].
           exact (song_ratio_returns ratio keywords song Hk H1 H2).
        -- exists (sorted_desc found). unfold search. now rewrite Ef.
  - intro e. rewrite <- (collect_error ratio keywords cutoff _ [] e).
    unfold search.
    destruct (collect ratio keywords cutoff (dict_values (songs self)) []) as [found|e'];
      simpl; split; intro H; try discriminate; exact H.
Qed.

(** A catalog whose second song has the no-break space for a title: the first
    song is scored, the second has no word, and the search raises
    [ValueError]. *)
Lemma search_returns_iff_witness :
  search Levenshtein.ratio
    (mkMusicCat "lib" false false
       [(KStr "parade", Sample.parade);
        (KStr "blank",
         Song.mk (PStr "blank") (PStr (String (ascii_of_nat 160) EmptyString))
           (PStr "blank.brstm") (PList []) Sample.gold_game "lib/gold/blank.brstm")] [])
    ["victory"] default_cutoff
  = Raise ValueError.
Proof.
  apply (proj2 (search_returns_iff Levenshtein.ratio
                  (mkMusicCat "lib" false false
                     [(KStr "parade", Sample.parade);
                      (KStr "blank",
                       Song.mk (PStr "blank")
                         (PStr (String (ascii_of_nat 160) EmptyString))
                         (PStr "blank.brstm") (PList []) Sample.gold_game
                         "lib/gold/blank.brstm")] [])
                  ["victory"] default_cutoff) ValueError).
  exists [Sample.parade],
    (Song.mk (PStr "blank") (PStr (String (ascii_of_nat 160) EmptyString))
       (PStr "blank.brstm") (PList []) Sample.gold_game "lib/gold/blank.brstm"),
    [].
  split; [reflexivity|]. split; [|reflexivity].
  intros s [<-|[]]. reflexivity.
Defined.

(* ------------------------------------------------------------------------- *)
(** * The search in binary64 and in exact arithmetic *)
(* ------------------------------------------------------------------------- *)

Section RoundedErrors.

Import Binary64.

Variable ratio : string -> string -> float.

Lemma rounded_add_keywords_returns (haystack1 haystack2 keywords : list string)
    (acc : float) :
  haystack1 <> [] -> haystack2 <> [] ->
  exists r, Rounded.add_keywords ratio haystack1 haystack2 keywords acc = Ok r.
Proof.
  intros H1 H2. revert acc; induction keywords as [|keyword keywords IH]; intro acc.
  - now exists acc.
  - simpl. unfold Rounded.subratio.
    destruct haystack1 as [|w1 h1]; [contradiction|].
    destruct haystack2 as [|w2 h2]; [contradiction|]. simpl. apply IH.
Qed.

Lemma rounded_song_ratio_error (keywords : list string) (song : Song.t) :
  match song_error keywords song with
  | Some e => Rounded.song_ratio ratio keywords song = Raise e
  | None => exists r, Rounded.song_ratio ratio keywords song = Ok r
  end.
Proof.
  unfold song_error, Rounded.song_ratio, haystack.
  destruct (Song.title song) as [|t| |]; try reflexivity.
  destruct (Game.title (Song.game song)) as [|g| |]; try reflexivity.
  simpl. destruct keywords as [|k ks]; [reflexivity|].
  destruct (split (lower t)) as [|w1 ws1] eqn:E1.
  - reflexivity.
  - destruct (py_set_cons w1 ws1) as [f1 [r1 P1]]. rewrite P1.
    destruct (split (lower g)) as [|w2 ws2] eqn:E2.
    + reflexivity.
    + destruct (py_set_cons w2 ws2) as [f2 [r2 P2]]. rewrite P2.
      destruct (rounded_add_keywords_returns (f1 :: r1) (f2 :: r2) (k :: ks) zero)
        as [r Er]; try discriminate.
      rewrite Er. simpl. eexists. reflexivity.
Qed.

Lemma rounded_collect_error keywords cutoff all results e :
  Rounded.collect ratio keywords cutoff all results = Raise e <->
  exists before song after,
    all = before ++ song :: after
    /\ (forall s, In s before -> song_error keywords s = None)
    /\ song_error keywords song = Some e.
Proof.
  revert results; induction all as [|song all IH]; intro results.
  - simpl. split; [discriminate|]. intros [[|s before] [s' [after [E _]]]]; discriminate.
  - simpl. pose proof (rounded_song_ratio_error keywords song) as Hs.
    destruct (song_error keywords song) as [e'|] eqn:Ee.
    + rewrite Hs. simpl. split.
      * intro H. inversion H; subst e'. exists [], song, all.
        split; [reflexivity|]. split; [intros s []|exact Ee].
      * intros [[|s before] [s' [after [E [Hb He]]]]].
        -- simpl in E. inversion E; subst s'. congruence.
        -- simpl in E. inversion E; subst s.
           rewrite (Hb song (or_introl eq_refl)) in Ee. discriminate.
    + destruct Hs as [r Er]. rewrite Er. simpl. rewrite IH. split.
      * intros [before [s' [after [E [Hb He]]]]].
        exists (song :: before), s', after. subst all.
        split; [reflexivity|]. split; [|exact He].
        intros s [<-|Hin]; auto.
      * intros [[|s before] [s' [after [E [Hb He]]]]].
        -- simpl in E. inversion E; subst s'. congruence.
        -- simpl in E. inversion E; subst s all.
           exists before, s', after. split; [reflexivity|]. split; [|exact He].
           intros s Hin. apply Hb. now right.
Qed.

Lemma rounded_search_error self keywords cutoff e :
  Rounded.search ratio self keywords cutoff = Raise e <->
  exists before song after,
    dict_values (songs self) = before ++ song :: after
    /\ (forall s, In s before -> song_error keywords s = None)
    /\ song_error keywords song = Some e.
Proof.
  rewrite <- (rounded_collect_error keywords cutoff _ [] e). unfold Rounded.search.
  destruct (Rounded.collect ratio keywords cutoff (dict_values (songs self)) [])
    as [found|e']; simpl; split; intro H; try discriminate; exact H.
Qed.

(** What [collect] adds are songs of the list with their ratio, above the
    cutoff. *)
Lemma rounded_collect_ok keywords cutoff all results out :
  Rounded.collect ratio keywords cutoff all results = Ok out ->
  forall item, In item out ->
    In item results
    \/ (In (fst item) all /\ Rounded.song_ratio ratio keywords (fst item) = Ok (snd item)
        /\ gtb (snd item) cutoff = true).
Proof.
  revert results; induction all as [|song all IH]; intros results H.
  - inversion H; subst. auto.
  - simpl in H.
    destruct (Rounded.song_ratio ratio keywords song) as [r|e] eqn:Er; [|discriminate].
    simpl in H. intros item Hin. destruct (IH _ H item Hin) as [Hres|[Ha [Hr Hc]]].
    + destruct (gtb r cutoff) eqn:Eg; [|auto].
      apply in_app_or in Hres. destruct Hres as [Hres|[E|[]]]; [auto|].
      subst item. right. simpl. auto.
    + right. simpl. auto.
Qed.

Lemma rounded_add_keywords_lower haystack1 haystack2 keywords keywords' acc :
  map lower keywords = map lower keywords' ->
  Rounded.add_keywords ratio haystack1 haystack2 keywords acc
  = Rounded.add_keywords ratio haystack1 haystack2 keywords' acc.
Proof.
  revert keywords' acc; induction keywords as [|k ks IH]; intros [|k' ks'] acc H;
    try discriminate; [reflexivity|].
  simpl in H. injection H as Hk Hks. simpl. unfold Rounded.subratio. rewrite Hk.
  destruct (Rounded.py_max (map (ratio (lower k')) haystack1)) as [s1|e]; [|reflexivity].
  destruct (Rounded.py_max (map (ratio (lower k')) haystack2)) as [s2|e]; [|reflexivity].
  simpl. now apply IH.
Qed.

Lemma rounded_collect_lower keywords keywords' cutoff all results :
  map lower keywords = map lower keywords' ->
  Rounded.collect ratio keywords cutoff all results
  = Rounded.collect ratio keywords' cutoff all results.
Proof.
  intro H. revert results; induction all as [|song all IH]; intro results; [reflexivity|].
  simpl. unfold Rounded.song_ratio.
  destruct (haystack (Song.title song)) as [h1|e]; [|reflexivity].
  destruct (haystack (Game.title (Song.game song))) as [h2|e]; [|reflexivity].
  simpl. rewrite (rounded_add_keywords_lower h1 h2 keywords keywords' zero H).
  assert (length keywords = length keywords') as El
    by (rewrite <- (length_map lower keywords), H; apply length_map).
  rewrite El.
  destruct (Rounded.add_keywords ratio h1 h2 keywords' zero) as [s|e]; [|reflexivity].
  simpl. destruct (Rounded.divide s (length keywords')) as [r|e]; [|reflexivity].
  simpl. apply IH.
Qed.

End RoundedErrors.

Section RoundedOrder.

Import Binary64.

Lemma ltb_asym (x y : float) : ltb x y = true -> ltb y x = false.
Proof.
  intro H. destruct (ltb y x) eqn:E; [|reflexivity].
  pose proof (ltb_trans x y x H E) as Hxx. revert Hxx. clear.
  unfold ltb, SFltb, SFcompare. destruct x as [[|]|[|]| |[|] m e]; simpl; try discriminate;
    rewrite Z.compare_refl;
    change (Pos.compare_cont Eq m m) with (Pos.compare m m);
    rewrite Pos.compare_refl; discriminate.
Qed.

Lemma gtb_not_nan (x c : float) : gtb x c = true -> is_nan x = false.
Proof. unfold gtb, SFltb, SFcompare. destruct c, x; simpl; try discriminate; auto. Qed.

(** Inserting into a list in descending order keeps the order, when no ratio
    is a NaN. *)
Lemma rounded_insert_sorted {A : Type} (x : A * float) (l : list (A * float)) :
  Forall (fun y => is_nan (snd y) = false) l ->
  StronglySorted (fun a b => ltb (snd a) (snd b) = false) l ->
  StronglySorted (fun a b => ltb (snd a) (snd b) = false) (Rounded.insert_desc x l).
Proof.
  intros Hn Hs. induction Hs as [|y l Hs IH Hall]; simpl.
  - constructor; constructor.
  - inversion Hn as [|? ? Hy Hn']; subst.
    destruct (ltb (snd x) (snd y)) eqn:E.
    + constructor; [now apply IH|].
      assert (forall z, In z (Rounded.insert_desc x l) -> z = x \/ In z l) as Hins.
      { clear. induction l as [|w l IHl]; simpl.
        - intros z [Hz|[]]; auto.
        - intro z. destruct (ltb (snd x) (snd w)); simpl.
          + intros [Hz|Hz]; [right; now left|]. destruct (IHl z Hz); auto.
          + intros [Hz|[Hz|Hz]]; auto. }
      apply Forall_forall. intros z Hz. destruct (Hins z Hz) as [->|Hin].
      * now apply ltb_asym.
      * exact (proj1 (Forall_forall _ _) Hall z Hin).
    + constructor; [now constructor|]. constructor; [exact E|].
      apply Forall_forall. intros z Hz.
      apply (ltb_negtrans (snd x) (snd y) (snd z) Hy E).
      exact (proj1 (Forall_forall _ _) Hall z Hz).
Qed.

Lemma rounded_sorted_sorted {A : Type} (l : list (A * float)) :
  Forall (fun y => is_nan (snd y) = false) l ->
  StronglySorted (fun a b => ltb (snd a) (snd b) = false) (Rounded.sorted_desc l).
Proof.
  induction l as [|x l IH]; intro Hn; simpl; [constructor|].
  inversion Hn as [|? ? Hx Hn']; subst.
  apply rounded_insert_sorted; [|now apply IH].
  apply Forall_forall. intros z Hz. apply (proj1 (rounded_sorted_in _ _)) in Hz.
  exact (proj1 (Forall_forall _ _) Hn' z Hz).
Qed.

End RoundedOrder.

(** X19.  Whether the search raises, and what it raises, does not depend on
    the arithmetic: at the same catalog and keywords, the search in exact
    arithmetic and the search in binary64 both return, or both raise the same
    exception, whatever the two similarity functions and the two cutoffs
    are. *)
Theorem searches_raise_alike (ratio : string -> string -> Q)
    (ratio64 : string -> string -> Binary64.float) (self : MusicCat)
    (keywords : list string) (cutoff : Q) (cutoff64 : Binary64.float) :
  match search ratio self keywords cutoff,
        Rounded.search ratio64 self keywords cutoff64 with
  | Ok _, Ok _ => True
  | Raise e, Raise e' => e = e'
  | _, _ => False
  end.
Proof.
  pose proof (proj2 (search_returns_iff ratio self keywords cutoff)) as Hq.
  pose proof (rounded_search_error ratio64 self keywords cutoff64) as Hf.
  destruct (search ratio self keywords cutoff) as [found|e];
    destruct (Rounded.search ratio64 self keywords cutoff64) as [found'|e'].
  - exact I.
  - assert (@Ok (list (Song.t * Q)) found = Raise e') as H
      by (apply Hq; apply Hf; reflexivity).
    discriminate.
  - assert (@Ok (list (Song.t * Binary64.float)) found' = Raise e) as H
      by (apply Hf; apply Hq; reflexivity).
    discriminate.
  - assert (@Raise (list (Song.t * Binary64.float)) e' = Raise e) as H
      by (apply Hf; apply Hq; reflexivity).
    now inversion H.
Qed.

(** X20.  In binary64 as well the search compares keywords without regard to
    case. *)
Theorem rounded_search_ignores_keyword_case
    (ratio : string -> string -> Binary64.float) (self : MusicCat)
    (keywords keywords' : list string) (cutoff : Binary64.float) :
  map lower keywords = map lower keywords' ->
  Rounded.search ratio self keywords cutoff = Rounded.search ratio self keywords' cutoff.
Proof.
  intro H. unfold Rounded.search.
  now rewrite (rounded_collect_lower ratio keywords keywords' cutoff _ [] H).
Qed.

Lemma rounded_search_ignores_keyword_case_witness :
  Rounded.search Levenshtein.ratio64 Sample.edge_catalog ["Pokemons"; "ZZZ"]
    Binary64.three_tenths
  = Rounded.search Levenshtein.ratio64 Sample.edge_catalog ["pokemonS"; "zzz"]
      Binary64.three_tenths.
Proof.
  exact (rounded_search_ignores_keyword_case Levenshtein.ratio64 Sample.edge_catalog
           ["Pokemons"; "ZZZ"] ["pokemonS"; "zzz"] Binary64.three_tenths eq_refl).
Defined.

(** X21.  In binary64, when the search returns, its result lists songs of the
    catalog only, every ratio in it is a number above the cutoff, and the
    result is ordered by ratio, highest first: no item has a ratio below that
    of an item after it. *)
Theorem rounded_search_result_is_sorted (ratio : string -> string -> Binary64.float)
    (self : MusicCat) (keywords : list string) (cutoff : Binary64.float)
    (results : list (Song.t * Binary64.float)) :
  Rounded.search ratio self keywords cutoff = Ok results ->
  StronglySorted (fun a b => Binary64.ltb (snd a) (snd b) = false) results
  /\ forall song r, In (song, r) results ->
       In song (dict_values (songs self))
       /\ Binary64.gtb r cutoff = true /\ Binary64.is_nan r = false.
Proof.
  intro H. unfold Rounded.search in H.
  destruct (Rounded.collect ratio keywords cutoff (dict_values (songs self)) [])
    as [found|e] eqn:Ec; [|discriminate].
  simpl in H. inversion H; subst; clear H.
  pose proof (rounded_collect_ok ratio _ _ _ _ _ Ec) as Hitems.
  assert (forall item, In item found ->
            In (fst item) (dict_values (songs self))
            /\ Binary64.gtb (snd item) cutoff = true
            /\ Binary64.is_nan (snd item) = false) as Hfound.
  { intros item Hin. destruct (Hitems item Hin) as [[]|[Ha [_ Hc]]].
    split; [exact Ha|]. split; [exact Hc|]. exact (gtb_not_nan _ _ Hc). }
  split.
  - apply rounded_sorted_sorted. apply Forall_forall. intros item Hin.
    exact (proj2 (proj2 (Hfound item Hin))).
  - intros song r Hin. apply (proj1 (rounded_sorted_in _ _)) in Hin.
    exact (Hfound (song, r) Hin).
Qed.

(** Three songs of one game; the keyword is the title of the second and
    close to the title of the third. *)
Lemma rounded_search_result_is_sorted_witness :
  Rounded.search Levenshtein.ratio64 Sample.three_catalog ["battles"]
    Binary64.three_tenths
  = Ok [(Sample.second, Binary64.one);
        (Sample.third, S754_finite false 8314337773607070 (-53))]
  /\ StronglySorted (fun a b => Binary64.ltb (snd a) (snd b) = false)
       [(Sample.second, Binary64.one);
        (Sample.third, S754_finite false 8314337773607070 (-53))].
Proof.
  split; [vm_compute; reflexivity|].
  exact (proj1 (rounded_search_result_is_sorted Levenshtein.ratio64 Sample.three_catalog
                  ["battles"] Binary64.three_tenths _ eq_refl)).
Defined.

(* ------------------------------------------------------------------------- *)
(** * Playback *)
(* ------------------------------------------------------------------------- *)

(** X11.  Playing from a catalog that was built with the missing-file
    exception enabled.  An id that is no key raises [NoMatchError] and nothing
    is sent to the player.  For an id that is a key, the player is stopped, its
    playlist cleared and one process started, on the quoted path of the song
    stored under the id, a file that existed when the song was imported; the
    song has that id; and [paused] is left as it was. *)
Theorem play_song_starts_a_cataloged_file (sys : os) (catalog : MusicCat)
    (self : Playback) (song_id : string) :
  reachable sys catalog ->
  disable_nobrstm_exception catalog = false ->
  (dict_get pykey_eqb (songs catalog) (KStr song_id) = None
   /\ play_song catalog self song_id = (self, Some (NoMatchError song_id)))
  \/ exists song,
       dict_get pykey_eqb (songs catalog) (KStr song_id) = Some song
       /\ Song.id song = PStr song_id
       /\ path_isfile sys (Song.fullpath song) = true
       /\ snd (play_song catalog self song_id) = None
       /\ sent (fst (play_song catalog self song_id))
          = sent self ++ [Stop; ClearPlaylist;
                          Popen (quote ++ winamp_path self ++ quote ++ " "
                                 ++ quote ++ Song.fullpath song ++ quote)]
       /\ now_playing (fst (play_song catalog self song_id)) = now_playing self ++ [song]
       /\ paused (fst (play_song catalog self song_id)) = paused self.
Proof.
  intros Hr Hn. unfold play_song, dict_contains.
  destruct (dict_get pykey_eqb (songs catalog) (KStr song_id)) as [song|] eqn:Eg.
  - right. exists song. apply dict_get_in in Eg.
    split; [reflexivity|]. split.
    { symmetry. exact (reachable_keys_are_ids sys catalog Hr _ _ Eg). }
    split; [exact (reachable_files_exist sys catalog Hr Hn _ _ Eg)|].
    simpl. rewrite <- !app_assoc. repeat split.
  - left. auto.
Qed.

Lemma play_song_starts_a_cataloged_file_witness :
  (dict_get pykey_eqb (songs (init Sample.no_town "lib" false true false)) (KStr "battle")
   = None
   /\ play_song (init Sample.no_town "lib" false true false)
        (pause (new_playback "winamp.exe")) "battle"
      = (pause (new_playback "winamp.exe"), Some (NoMatchError "battle")))
  \/ exists song,
       dict_get pykey_eqb (songs (init Sample.no_town "lib" false true false))
         (KStr "battle") = Some song
       /\ Song.id song = PStr "battle"
       /\ path_isfile Sample.no_town (Song.fullpath song) = true
       /\ snd (play_song (init Sample.no_town "lib" false true false)
                 (pause (new_playback "winamp.exe")) "battle") = None
       /\ sent (fst (play_song (init Sample.no_town "lib" false true false)
                       (pause (new_playback "winamp.exe")) "battle"))
          = sent (pause (new_playback "winamp.exe"))
            ++ [Stop; ClearPlaylist;
                Popen (quote ++ winamp_path (pause (new_playback "winamp.exe")) ++ quote
                       ++ " " ++ quote ++ Song.fullpath song ++ quote)]
       /\ now_playing (fst (play_song (init Sample.no_town "lib" false true false)
                              (pause (new_playback "winamp.exe")) "battle"))
          = now_playing (pause (new_playback "winamp.exe")) ++ [song]
       /\ paused (fst (play_song (init Sample.no_town "lib" false true false)
                         (pause (new_playback "winamp.exe")) "battle"))
          = paused (pause (new_playback "winamp.exe")).
Proof.
  exact (play_song_starts_a_cataloged_file Sample.no_town
           (init Sample.no_town "lib" false true false)
           (pause (new_playback "winamp.exe")) "battle"
           (reachable_init Sample.no_town "lib" false true false) eq_refl).
Defined.


Lemma count_command_app (c : command) (l l' : list command) :
  count_command c (l ++ l') = (count_command c l + count_command c l')%nat.
Proof. unfold count_command. now rewrite filter_app, length_app. Qed.

Lemma count_snoc (c c' : command) (l : list command) :
  count_command c (l ++ [c']) = (count_command c l + count_command c [c'])%nat.
Proof. apply count_command_app. Qed.

Lemma calls_snoc (self : Playback) (ts : list transport) (t : transport) :
  calls self (ts ++ [t]) = call (calls self ts) t.
Proof. unfold calls. now rewrite fold_left_app. Qed.

(** X13.  From a new object and through any sequence of [pause] and [unpause]
    calls, [unpause] sends [play()] only when a [pause()] was sent and not yet
    answered: the player never got more [play()] than [pause()], and got fewer
    while [paused] is set.  An [unpause] that follows an [unpause] does
    nothing. *)
Theorem unpause_only_answers_a_pause (path : string) (ts : list transport) :
  let self := calls (new_playback path) ts in
  (count_command Play (sent self) <= count_command Pause (sent self))%nat
  /\ (paused self = true ->
      (count_command Play (sent self) < count_command Pause (sent self))%nat)
  /\ unpause (unpause self) = unpause self
  /\ (paused self = false -> unpause self = self).
Proof.
  assert (count_command Play [Pause] = 0 /\ count_command Pause [Pause] = 1
          /\ count_command Play [Play] = 1 /\ count_command Pause [Play] = 0)%nat
    as [E1 [E2 [E3 E4]]] by (repeat split; reflexivity).
  induction ts as [|t ts IH] using rev_ind.
  - simpl. repeat split; intros; try lia; try discriminate; reflexivity.
  - cbv zeta in *. rewrite calls_snoc.
    destruct IH as [Hle [Hlt _]]. set (p := calls (new_playback path) ts) in *.
    destruct t; simpl.
    + unfold pause, unpause. simpl. rewrite !count_snoc, E1, E2, ?E3, ?E4.
      repeat split; intros; try lia; try discriminate; reflexivity.
    + unfold unpause. destruct (paused p) eqn:Ep; simpl; rewrite ?Ep.
      * rewrite !count_snoc, E3, E4. specialize (Hlt eq_refl).
        repeat split; intros; try lia; try discriminate; reflexivity.
      * repeat split; intros; try lia; try discriminate; try reflexivity.
Qed.

(* ------------------------------------------------------------------------- *)
(** * More about [src/musiccat.py] *)
(* ------------------------------------------------------------------------- *)

Section BestMatch.

Variable ratio : string -> string -> Q.

(** The loop keeps the first key of the largest ratio above its start. *)
Lemma best_of_spec (keys : list string) (songid : string) (r0 : Q) (m0 : option string) :
  (forall k, In k keys ->
     ratio songid k <= fst (Legacy.best_of ratio keys songid r0 m0))
  /\ ((Legacy.best_of ratio keys songid r0 m0 = (r0, m0)
       /\ forall k, In k keys -> ratio songid k <= r0)
      \/ exists before k after,
           keys = before ++ k :: after
           /\ Legacy.best_of ratio keys songid r0 m0 = (ratio songid k, Some k)
           /\ r0 < ratio songid k
           /\ forall k', In k' before -> ratio songid k' < ratio songid k).
Proof.
  revert r0 m0; induction keys as [|s keys IH]; intros r0 m0.
  - simpl. split; [intros k []|]. left. split; [reflexivity|intros k []].
  - simpl. destruct (Qgtb (ratio songid s) r0) eqn:Eg.
    + apply Qgtb_lt in Eg.
      destruct (IH (ratio songid s) (Some s)) as [Hall [[E Hle]|[before [k [after [Ek [E [Hlt Hb]]]]]]]].
      * split.
        -- intros k [<-|Hin]; [rewrite E; apply Qle_refl|now apply Hall].
        -- right. exists [], s, keys. repeat split; auto. intros k' [].
      * split.
        -- intros k' [<-|Hin]; [|now apply Hall].
           rewrite E. simpl. now apply Qlt_le_weak.
        -- right. exists (s :: before), k, after. subst keys. repeat split; auto.
           ++ eapply Qlt_trans; eauto.
           ++ intros k' [<-|Hin]; auto.
    + assert (ratio songid s <= r0) as Hs.
      { apply Qnot_lt_le. intro H. apply Qgtb_lt in H. congruence. }
      destruct (IH r0 m0) as [Hall [[E Hle]|[before [k [after [Ek [E [Hlt Hb]]]]]]]].
      * split.
        -- intros k [<-|Hin]; [now rewrite E|now apply Hall].
        -- left. split; [exact E|]. intros k [<-|Hin]; auto.
      * split.
        -- intros k' [<-|Hin]; [|now apply Hall].
           rewrite E. simpl. eapply Qle_trans; [exact Hs|now apply Qlt_le_weak].
        -- right. exists (s :: before), k, after. subst keys. repeat split; auto.
           intros k' [<-|Hin]; auto. eapply Qle_lt_trans; eauto.
Qed.

End BestMatch.

(** X14.  A song that the id lookup returns is a song of the catalog.  It is
    the song stored under the id itself, or, for an id that is no key, the
    song stored under the first key of the largest similarity to the id; in
    that case both thresholds have been set, and that similarity is above 0
    and below neither threshold. *)
Theorem search_returns_the_most_similar_song {Song : Type}
    (ratio : string -> string -> Q)
    (minimum_autocorrect_ratio minimum_match_ratio : option Q)
    (songs : list (string * Song)) (songid : string) (song : Song) :
  Legacy.search ratio minimum_autocorrect_ratio minimum_match_ratio songs songid = Ok song ->
  dict_get String.eqb songs songid = Some song
  \/ (dict_get String.eqb songs songid = None
      /\ exists before key after autocorrect_ratio match_ratio,
           dict_keys songs = before ++ key :: after
           /\ dict_get String.eqb songs key = Some song
           /\ (forall k, In k (dict_keys songs) -> ratio songid k <= ratio songid key)
           /\ (forall k, In k before -> ratio songid k < ratio songid key)
           /\ 0 < ratio songid key
           /\ minimum_autocorrect_ratio = Some autocorrect_ratio
           /\ minimum_match_ratio = Some match_ratio
           /\ autocorrect_ratio <= ratio songid key
           /\ match_ratio <= ratio songid key).
Proof.
  intro H. destruct (dict_get String.eqb songs songid) as [found|] eqn:Eg.
  - left. unfold Legacy.search in H. rewrite Eg in H. now inversion H.
  - right. split; [reflexivity|].
    rewrite (search_miss ratio _ _ songs songid Eg) in H. cbv zeta in H.
    destruct minimum_autocorrect_ratio as [a|]; [|discriminate].
    destruct minimum_match_ratio as [m|];
      [|simpl in H; destruct (Qltb _ a); discriminate].
    simpl in H.
    destruct (best_of_spec ratio (dict_keys songs) songid 0 None)
      as [Hall [[E Hle]|[before [key [after [Ek [E [Hlt Hb]]]]]]]]; rewrite E in *;
      simpl in H, Hall.
    + destruct (Qltb 0 a); [discriminate|].
      destruct (Qltb 0 m); discriminate.
    + destruct (Qltb (ratio songid key) a) eqn:Ea; [discriminate|].
      destruct (Qltb (ratio songid key) m) eqn:Em; [discriminate|].
      destruct (dict_get String.eqb songs key) as [found|] eqn:Ek'; [|discriminate].
      inversion H; subst found. exists before, key, after, a, m. repeat split; auto.
      * apply Qnot_lt_le. intro Hc. apply Qltb_lt in Hc. congruence.
      * apply Qnot_lt_le. intro Hc. apply Qltb_lt in Hc. congruence.
Qed.

Lemma search_returns_the_most_similar_song_witness :
  dict_get String.eqb Sample.themes "boss_them" = Some 1%nat
  \/ (dict_get String.eqb Sample.themes "boss_them" = None
      /\ exists before key after autocorrect_ratio match_ratio,
           dict_keys Sample.themes = before ++ key :: after
           /\ dict_get String.eqb Sample.themes key = Some 1%nat
           /\ (forall k, In k (dict_keys Sample.themes) ->
                 Levenshtein.ratio "boss_them" k <= Levenshtein.ratio "boss_them" key)
           /\ (forall k, In k before ->
                 Levenshtein.ratio "boss_them" k < Levenshtein.ratio "boss_them" key)
           /\ 0 < Levenshtein.ratio "boss_them" key
           /\ Some (3 # 10) = Some autocorrect_ratio
           /\ Some (8 # 10) = Some match_ratio
           /\ autocorrect_ratio <= Levenshtein.ratio "boss_them" key
           /\ match_ratio <= Levenshtein.ratio "boss_them" key).
Proof.
  exact (search_returns_the_most_similar_song Levenshtein.ratio
           (Some (3 # 10)) (Some (8 # 10)) Sample.themes "boss_them" 1%nat eq_refl).
Defined.

Section InfoFacts.

Import LegacyCatalog.

Lemma find_append (c : ascii) (a b : string) :
  find c a = None -> find c (a ++ String c b) = Some (String.length a).
Proof.
  induction a as [|c' a IH]; simpl.
  - intros _. now rewrite Ascii.eqb_refl.
  - destruct (Ascii.eqb c' c); [discriminate|].
    destruct (find c a); [discriminate|]. intros _. now rewrite IH.
Qed.

Lemma append_assoc (a b c : string) : ((a ++ b) ++ c = a ++ (b ++ c))%string.
Proof. induction a as [|x a IH]; simpl; congruence. Qed.

Lemma append_nil_r (a : string) : (a ++ "" = a)%string.
Proof. induction a as [|x a IH]; simpl; congruence. Qed.

Lemma split_on_plain (c : ascii) (part a : string) :
  find c a = None -> split_on c part a = [(part ++ a)%string].
Proof.
  revert part; induction a as [|c' a IH]; intros part; simpl.
  - intros _. now rewrite append_nil_r.
  - destruct (Ascii.eqb c' c); [discriminate|].
    destruct (find c a) eqn:E; [discriminate|]. intros _.
    rewrite IH by reflexivity. now rewrite append_assoc.
Qed.

Lemma split_on_append (c : ascii) (part a b : string) :
  find c a = None ->
  split_on c part (a ++ String c b) = (part ++ a)%string :: split_on c "" b.
Proof.
  revert part; induction a as [|c' a IH]; intros part; simpl.
  - intros _. now rewrite Ascii.eqb_refl, append_nil_r.
  - destruct (Ascii.eqb c' c); [discriminate|].
    destruct (find c a) eqn:E; [discriminate|]. intros _.
    rewrite IH by reflexivity. now rewrite append_assoc.
Qed.

Lemma split_on_cons (c : ascii) (part s : string) :
  exists x l, split_on c part s = x :: l.
Proof.
  revert part; induction s as [|c' s IH]; intro part; simpl.
  - now exists part, [].
  - destruct (Ascii.eqb c' c); [now eexists; eexists|apply IH].
Qed.

End InfoFacts.

(** X15.  [get_song_info] reads an id with one dash as a game id and a song id
    and looks the song id up alone: the game id in front is dropped and never
    compared with the song's game, so every game id gives the answer of the
    bare song id.  An id with a second dash raises [ValueError], and an id
    that is not stored raises [KeyError]. *)
Theorem get_song_info_drops_the_game_id {Song : Type} (songs : list (string * Song))
    (gameid songid rest : string) :
  gameid <> "" ->
  LegacyCatalog.find "-"%char gameid = None ->
  LegacyCatalog.find "-"%char songid = None ->
  LegacyCatalog.get_song_info songs (gameid ++ "-" ++ songid)
  = LegacyCatalog.get_song_info songs songid
  /\ LegacyCatalog.get_song_info songs songid
     = match dict_get String.eqb songs songid with
       | Some song => Ok song
       | None => Raise (KeyError (PStr songid))
       end
  /\ LegacyCatalog.get_song_info songs (gameid ++ "-" ++ songid ++ "-" ++ rest)
     = Raise ValueError.
Proof.
  intros Hg Hfg Hfs. unfold LegacyCatalog.get_song_info.
  change (gameid ++ "-" ++ songid)%string with (gameid ++ String "-"%char songid)%string.
  change (gameid ++ "-" ++ songid ++ "-" ++ rest)%string
    with (gameid ++ String "-"%char (songid ++ String "-"%char rest))%string.
  rewrite !(find_append _ gameid _ Hfg), Hfs.
  rewrite !(split_on_append _ "" gameid _ Hfg).
  rewrite (split_on_plain _ "" songid Hfs).
  rewrite (split_on_append _ "" songid rest Hfs).
  destruct gameid as [|c g]; [contradiction|]. simpl String.length. cbv iota.
  split; [reflexivity|]. split; [reflexivity|].
  destruct (split_on_cons "-" "" rest) as [x [l E]]. rewrite E. reflexivity.
Qed.

Lemma get_song_info_drops_the_game_id_witness :
  LegacyCatalog.get_song_info Sample.themes ("red" ++ "-" ++ "town_theme")
  = LegacyCatalog.get_song_info Sample.themes "town_theme"
  /\ LegacyCatalog.get_song_info Sample.themes "town_theme"
     = match dict_get String.eqb Sample.themes "town_theme" with
       | Some song => Ok song
       | None => Raise (KeyError (PStr "town_theme"))
       end
  /\ LegacyCatalog.get_song_info Sample.themes
       ("red" ++ "-" ++ "town_theme" ++ "-" ++ "remix")
     = Raise ValueError.
Proof.
  apply (get_song_info_drops_the_game_id Sample.themes "red" "town_theme" "remix").
  - discriminate.
  - reflexivity.
  - reflexivity.
Defined.

(* ------------------------------------------------------------------------- *)
(** * The import of [src/musiccat.py] *)
(* ------------------------------------------------------------------------- *)

Section KeysOfDict.

Context {V : Type}.
Implicit Types (d : list (pykey * V)) (k : pykey) (v : V).

Lemma keys_set d key v k :
  In k (dict_keys (dict_set pykey_eqb d key v)) <-> k = key \/ In k (dict_keys d).
Proof.
  induction d as [|[k' v'] d IH]; simpl.
  - split; intros [H|H]; auto.
  - destruct (pykey_eqb k' key) eqn:E; simpl.
    + apply pykey_eqb_eq in E. subst k'. split; intros [H|H]; auto.
    + rewrite IH. split; [intros [H|[H|H]]|intros [H|[H|H]]]; auto.
Qed.

Lemma get_of_key d k : In k (dict_keys d) -> exists v, dict_get pykey_eqb d k = Some v.
Proof.
  intro H. destruct (dict_get pykey_eqb d k) as [v|] eqn:E; [now exists v|].
  apply dict_get_none in E. contradiction.
Qed.

End KeysOfDict.

Section LegacyImportFacts.

Import LegacyImport.

Variable sys : os.

Lemma update_snoc (d ns : list (pykey * song)) (k : pykey) (s : song) :
  update d (ns ++ [(k, s)]) = dict_set pykey_eqb (update d ns) k s.
Proof. unfold update. now rewrite fold_left_app. Qed.

Lemma update_get_out (d ns : list (pykey * song)) (key : pykey) :
  ~ In key (dict_keys ns) -> dict_get pykey_eqb (update d ns) key = dict_get pykey_eqb d key.
Proof.
  induction ns as [|[k s] ns IH] using rev_ind; intro H; [reflexivity|].
  rewrite update_snoc. unfold dict_keys in H. rewrite map_app, in_app_iff in H. simpl in H.
  rewrite get_set_other by (intro; subst; tauto). apply IH. tauto.
Qed.

Lemma update_get_in (d ns : list (pykey * song)) (key : pykey) :
  In key (dict_keys ns) ->
  exists s, In (key, s) ns /\ dict_get pykey_eqb (update d ns) key = Some s.
Proof.
  induction ns as [|[k s] ns IH] using rev_ind; intro H; [contradiction|].
  rewrite update_snoc. unfold dict_keys in H. rewrite map_app, in_app_iff in H. simpl in H.
  destruct (pykey_eqb k key) eqn:E.
  - apply pykey_eqb_eq in E. subst k. exists s. split.
    + apply in_or_app. right. now left.
    + apply get_set_same.
  - apply pykey_eqb_neq in E. destruct H as [H|[H|[]]]; [|congruence].
    destruct (IH H) as [s' [Hin Hg]]. exists s'. split.
    + apply in_or_app. now left.
    + rewrite get_set_other by congruence. exact Hg.
Qed.

(** What one entry adds to the local dictionary. *)
Lemma add_entry_ok self path gamedata gameid out newsongs entry out' newsongs' :
  add_entry sys self path gamedata gameid (out, newsongs) entry = (out', Ok newsongs') ->
  exists id key s,
    dict_get String.eqb entry "id" = Some id
    /\ hash_key id = Some key
    /\ game s = gamedata
    /\ newsongs' = dict_set pykey_eqb newsongs key s.
Proof.
  unfold add_entry, getitem, hashed. intro H.
  destruct (dict_get String.eqb entry "id") as [id|] eqn:Eid; simpl in H; [|inversion H].
  destruct (hash_key id) as [key|] eqn:Ek; simpl in H; [|inversion H].
  exists id, key.
  destruct (dict_get pykey_eqb (songs self) key) as [old|].
  - destruct (dict_get String.eqb (game old) "id") as [og|]; simpl in H; [|inversion H].
    destruct (dict_get String.eqb entry "path") as [[| p | |]|]; simpl in H;
      try (inversion H; fail).
    injection H as _ H. eexists. split; [reflexivity|]. split; [exact Ek|].
    split; [|symmetry; exact H]. reflexivity.
  - destruct (dict_get String.eqb entry "path") as [[| p | |]|]; simpl in H;
      try (inversion H; fail).
    injection H as _ H. eexists. split; [reflexivity|]. split; [exact Ek|].
    split; [|symmetry; exact H]. reflexivity.
Qed.

Lemma add_entries_cons self path gamedata gameid state entry entries :
  add_entries sys self path gamedata gameid state (entry :: entries)
  = match add_entry sys self path gamedata gameid state entry with
    | (out, Raise e) => (out, Raise e)
    | (out, Ok newsongs) =>
        add_entries sys self path gamedata gameid (out, newsongs) entries
    end.
Proof. reflexivity. Qed.

Lemma add_entries_ok self path gamedata gameid entries out newsongs out' newsongs' :
  add_entries sys self path gamedata gameid (out, newsongs) entries = (out', Ok newsongs') ->
  (forall key s, In (key, s) newsongs -> game s = gamedata) ->
  (forall key s, In (key, s) newsongs' -> game s = gamedata)
  /\ (forall entry, In entry entries ->
        exists id key, dict_get String.eqb entry "id" = Some id
                       /\ hash_key id = Some key
                       /\ In key (dict_keys newsongs'))
  /\ (forall key, In key (dict_keys newsongs) -> In key (dict_keys newsongs'))
  /\ (forall key, In key (dict_keys newsongs') ->
        In key (dict_keys newsongs)
        \/ exists entry id, In entry entries
                            /\ dict_get String.eqb entry "id" = Some id
                            /\ hash_key id = Some key).
Proof.
  revert out newsongs; induction entries as [|entry entries IH]; intros out newsongs H Hg.
  - simpl in H. inversion H; subst. repeat split; auto. intros e [].
  - rewrite add_entries_cons in H.
    destruct (add_entry sys self path gamedata gameid (out, newsongs) entry)
      as [out1 [ns1|e]] eqn:Ea; [|inversion H].
    destruct (add_entry_ok _ _ _ _ _ _ _ _ _ Ea) as [id [key [s [Hid [Hk [Hs Hn]]]]]].
    destruct (IH out1 ns1 H) as [H1 [H2 [H3 H4]]].
    { intros k v Hin. subst ns1. apply in_dict_set in Hin.
      destruct Hin as [E|Hin]; [inversion E; now subst|eauto]. }
    split; [exact H1|]. split; [|split].
    + intros e [<-|Hin]; [|auto]. exists id, key. repeat split; auto.
      apply H3. subst ns1. apply keys_set. now left.
    + intros k Hin. apply H3. subst ns1. apply keys_set. now right.
    + intros k Hin. destruct (H4 k Hin) as [Hin'|[e [i [He [Hi Hh]]]]].
      * subst ns1. apply keys_set in Hin'. destruct Hin' as [->|Hin']; [|now left].
        right. exists entry, id. repeat split; auto. now left.
      * right. exists e, i. repeat split; auto. now right.
Qed.

End LegacyImportFacts.

(** X16.  The import of the older module is all or nothing, and it replaces.
    When it raises, the song map is as it was.  When it returns, every entry of
    the document has an id, and the song map holds under that id a song of
    this document, also where the id was in the map before (the conflict is
    only warned about, nothing is ignored) and whether or not the song's file
    exists; ids that no entry has keep their songs. *)
Theorem legacy_import_is_atomic_and_replaces (sys : os) (self : LegacyImport.MusicCat)
    (metafilename : string) :
  (forall self' e,
      LegacyImport.import_metadata sys self metafilename = (self', Some e) ->
      LegacyImport.songs self' = LegacyImport.songs self)
  /\ (forall self',
        LegacyImport.import_metadata sys self metafilename = (self', None) ->
        exists doc entries,
          yaml_load sys metafilename = Ok doc
          /\ doc_songs doc = Some entries
          /\ (forall entry, In entry entries ->
                exists id key s,
                  dict_get String.eqb entry "id" = Some id
                  /\ hash_key id = Some key
                  /\ dict_get pykey_eqb (LegacyImport.songs self') key = Some s
                  /\ LegacyImport.game s = fields doc)
          /\ (forall key,
                (forall entry id, In entry entries ->
                   dict_get String.eqb entry "id" = Some id ->
                   hash_key id <> Some key) ->
                dict_get pykey_eqb (LegacyImport.songs self') key
                = dict_get pykey_eqb (LegacyImport.songs self) key)).
Proof.
  unfold LegacyImport.import_metadata.
  destruct (yaml_load sys metafilename) as [doc|e0] eqn:Ey.
  2:{ split; intros; [now inversion H|discriminate]. }
  destruct (LegacyImport.getitem (fields doc) "id") as [gameid|e0].
  2:{ split; intros; [now inversion H|discriminate]. }
  destruct (LegacyImport.getitem (fields doc) "platform") as [system|e0].
  2:{ split; intros; [now inversion H|discriminate]. }
  destruct (doc_songs doc) as [entries|] eqn:Ed.
  2:{ split; intros; [now inversion H|discriminate]. }
  destruct (LegacyImport.add_entries sys self (path_dirname sys metafilename)
              (fields doc) gameid (LegacyImport.log self, []) entries)
    as [out [newsongs|e0]] eqn:Ea.
  - split; [intros self' e H; discriminate|].
    intros self' H. inversion H; subst self'; clear H. simpl.
    destruct (add_entries_ok sys _ _ _ _ _ _ _ _ _ Ea) as [H1 [H2 [_ H4]]];
      [intros k s []|].
    exists doc, entries. split; [reflexivity|]. split; [exact Ed|]. split.
    + intros entry Hin. destruct (H2 entry Hin) as [id [key [Hid [Hk Hkeys]]]].
      destruct (update_get_in (LegacyImport.songs self) newsongs key Hkeys)
        as [s [Hs Hg]].
      exists id, key, s. repeat split; auto. exact (H1 key s Hs).
    + intros key Hno. apply update_get_out. intro Hin.
      destruct (H4 key Hin) as [[]|[entry [id [He [Hi Hh]]]]].
      exact (Hno entry id He Hi Hh).
  - split; [|intros self' H; discriminate].
    intros self' e H. now inversion H.
Qed.

Section LegacyRefreshFacts.

Import LegacyImport.

Variable sys : os.

Lemma in_update (d ns : list (pykey * song)) (item : pykey * song) :
  In item (update d ns) -> In item d \/ In item ns.
Proof.
  induction ns as [|[k s] ns IH] using rev_ind; [now left|].
  rewrite update_snoc. intro H. apply in_dict_set in H. destruct H as [E|H].
  - right. apply in_or_app. right. left. now symmetry.
  - destruct (IH H) as [Hd|Hn]; [now left|]. right. apply in_or_app. now left.
Qed.

(** The songs an import adds have the document's mapping as their game. *)
Lemma import_metadata_games (self : MusicCat) (metafilename : string)
    (P : pydict -> Prop) :
  (forall doc, yaml_load sys metafilename = Ok doc -> P (fields doc)) ->
  (forall key s, In (key, s) (songs self) -> P (game s)) ->
  forall key s, In (key, s) (songs (fst (import_metadata sys self metafilename))) ->
    P (game s).
Proof.
  intros Hdoc Hself. unfold import_metadata.
  destruct (yaml_load sys metafilename) as [doc|e0] eqn:Ey; [|exact Hself].
  destruct (getitem (fields doc) "id") as [gameid|e0]; [|exact Hself].
  destruct (getitem (fields doc) "platform") as [system|e0]; [|exact Hself].
  destruct (doc_songs doc) as [entries|]; [|exact Hself].
  destruct (add_entries sys self (path_dirname sys metafilename) (fields doc) gameid
              (log self, []) entries) as [out [newsongs|e0]] eqn:Ea; [|exact Hself].
  simpl. intros key s Hin. apply in_update in Hin. destruct Hin as [Hin|Hin].
  - now apply (Hself key s).
  - destruct (add_entries_ok sys _ _ _ _ _ _ _ _ _ Ea) as [H1 _]; [intros k v []|].
    rewrite (H1 key s Hin). now apply Hdoc.
Qed.

End LegacyRefreshFacts.

(** X17.  The refresh of the older module starts from an empty song map: every
    song of the map it leaves was read from a file of the walk that loads,
    and carries that document's mapping as its game, whatever songs the map
    held before. *)
Theorem legacy_refresh_holds_songs_of_the_walk_only (sys : os)
    (self : LegacyImport.MusicCat) (root_path : string) (key : pykey)
    (s : LegacyImport.song) :
  In (key, s) (LegacyImport.songs (LegacyImport.refresh_song_list sys self root_path)) ->
  exists metafilename doc,
    In metafilename (metafiles sys root_path)
    /\ yaml_load sys metafilename = Ok doc
    /\ LegacyImport.game s = fields doc.
Proof.
  unfold LegacyImport.refresh_song_list.
  set (P := fun g : pydict =>
              exists metafilename doc,
                In metafilename (metafiles sys root_path)
                /\ yaml_load sys metafilename = Ok doc /\ g = fields doc).
  assert (forall files start,
             (forall m, In m files -> In m (metafiles sys root_path)) ->
             (forall k v, In (k, v) (LegacyImport.songs start) -> P (LegacyImport.game v)) ->
             forall k v,
               In (k, v)
                  (LegacyImport.songs
                     (fold_left
                        (fun self metafilename =>
                           match LegacyImport.import_metadata sys self metafilename with
                           | (self', Some e) =>
                               LegacyImport.mkMusicCat (LegacyImport.songs self')
                                 (LegacyImport.log self'
                                  ++ [LegacyImport.Print_exception metafilename e])
                           | (self', None) => self'
                           end) files start)) ->
               P (LegacyImport.game v)) as Hfold.
  { induction files as [|m files IH]; intros start Hfiles Hstart; [exact Hstart|].
    simpl. apply IH; [intros m' Hm'; apply Hfiles; now right|].
    intros k v Hin.
    apply (import_metadata_games sys start m P) with (key := k).
    - intros doc Hd. exists m, doc. split; [apply Hfiles; now left|auto].
    - exact Hstart.
    - destruct (LegacyImport.import_metadata sys start m) as [self' [e|]]; exact Hin. }
  intro H.
  apply (Hfold (metafiles sys root_path)
           (LegacyImport.mkMusicCat [] (LegacyImport.log self)) (fun m Hm => Hm))
    with (k := key).
  - intros k v [].
  - exact H.
Qed.

Lemma legacy_refresh_holds_songs_of_the_walk_only_witness :
  Forall (fun item =>
            exists metafilename doc,
              In metafilename (metafiles Sample.no_town "lib")
              /\ yaml_load Sample.no_town metafilename = Ok doc
              /\ LegacyImport.game (snd item) = fields doc)
    (LegacyImport.songs
       (LegacyImport.refresh_song_list Sample.no_town (LegacyImport.mkMusicCat [] []) "lib")).
Proof.
  apply Forall_forall. intros [key s] Hin.
  exact (legacy_refresh_holds_songs_of_the_walk_only Sample.no_town
           (LegacyImport.mkMusicCat [] []) "lib" key s Hin).
Defined.

(** X18.  What the id lookup raises for an id that is no key, by the largest
    similarity [best] of a key to the id (0 when no key is above 0).  With
    [minimum_autocorrect_ratio] never set it raises [AttributeError]; with
    [best] below it, [NameError], for the class [BadMatchError] that the
    module does not have, so the closest key is never suggested to the
    caller; otherwise, with [minimum_match_ratio] never set,
    [AttributeError]; with [best] below it, [NoMatchError] for the id; and
    otherwise it raises only when no key is above 0, a [KeyError] for the key
    [None]. *)
Theorem search_raises_by_tier {Song : Type}
    (ratio : string -> string -> Q)
    (minimum_autocorrect_ratio minimum_match_ratio : option Q)
    (songs : list (string * Song)) (songid : string) (e : exn) :
  Legacy.search ratio minimum_autocorrect_ratio minimum_match_ratio songs songid = Raise e ->
  let best := fst (Legacy.best_of ratio (dict_keys songs) songid 0 None) in
  dict_get String.eqb songs songid = None
  /\ (forall k, In k (dict_keys songs) -> ratio songid k <= best)
  /\ match minimum_autocorrect_ratio with
     | None => e = AttributeError
     | Some autocorrect_ratio =>
         (best < autocorrect_ratio /\ e = NameError "BadMatchError")
         \/ (autocorrect_ratio <= best
             /\ match minimum_match_ratio with
                | None => e = AttributeError
                | Some match_ratio =>
                    (best < match_ratio /\ e = NoMatchError songid)
                    \/ (match_ratio <= best
                        /\ e = KeyError PNone
                        /\ best == 0
                        /\ forall k, In k (dict_keys songs) -> ratio songid k <= 0)
                end)
     end.
Proof.
  intros H best. destruct (dict_get String.eqb songs songid) as [found|] eqn:Eg.
  - unfold Legacy.search in H. rewrite Eg in H. discriminate.
  - split; [reflexivity|].
    rewrite (search_miss ratio _ _ songs songid Eg) in H. cbv zeta in H.
    fold best in H.
    destruct (best_of_spec ratio (dict_keys songs) songid 0 None)
      as [Hall [[E Hle]|[before [key [after [Ek [E [Hlt Hb]]]]]]]].
    + fold best in Hall. split; [exact Hall|].
      assert (best = 0) as Eb by (unfold best; now rewrite E).
      rewrite E in H. simpl in H.
      destruct minimum_autocorrect_ratio as [a|]; simpl in H; [|now inversion H].
      destruct (Qltb best a) eqn:Ea.
      * left. split; [now apply Qltb_lt|now inversion H].
      * right. split; [apply Qnot_lt_le; intro Hc; apply Qltb_lt in Hc; congruence|].
        destruct minimum_match_ratio as [m|]; simpl in H; [|now inversion H].
        destruct (Qltb best m) eqn:Em.
        -- left. split; [now apply Qltb_lt|now inversion H].
        -- right. split; [apply Qnot_lt_le; intro Hc; apply Qltb_lt in Hc; congruence|].
           split; [now inversion H|]. split; [now rewrite Eb|exact Hle].
    + fold best in Hall. split; [exact Hall|].
      assert (best = ratio songid key) as Eb by (unfold best; now rewrite E).
      rewrite E in H. simpl in H.
      destruct minimum_autocorrect_ratio as [a|]; simpl in H; [|now inversion H].
      destruct (Qltb best a) eqn:Ea.
      * left. split; [now apply Qltb_lt|now inversion H].
      * right. split; [apply Qnot_lt_le; intro Hc; apply Qltb_lt in Hc; congruence|].
        destruct minimum_match_ratio as [m|]; simpl in H; [|now inversion H].
        destruct (Qltb best m) eqn:Em.
        -- left. split; [now apply Qltb_lt|now inversion H].
        -- exfalso.
           assert (In key (dict_keys songs)) as Hin
             by (rewrite Ek; apply in_or_app; right; now left).
           destruct (dict_get_of_key songs key Hin) as [found Ef].
           rewrite Ef in H. discriminate.
Qed.

(** The id ["tow"] is closest to ["town_theme"], with a similarity of 6/13,
    which is below a threshold of 0.6: the lookup raises [NameError]. *)
Lemma search_raises_by_tier_witness :
  dict_get String.eqb Sample.themes "tow" = None
  /\ (forall k, In k (dict_keys Sample.themes) ->
        Levenshtein.ratio "tow" k <= 6 # 13)
  /\ ((6 # 13 < 6 # 10 /\ NameError "BadMatchError" = NameError "BadMatchError")
      \/ (6 # 10 <= 6 # 13
          /\ ((6 # 13 < 8 # 10 /\ NameError "BadMatchError" = NoMatchError "tow")
              \/ (8 # 10 <= 6 # 13
                  /\ NameError "BadMatchError" = KeyError PNone
                  /\ 6 # 13 == 0
                  /\ forall k, In k (dict_keys Sample.themes) ->
                       Levenshtein.ratio "tow" k <= 0)))).
Proof.
  exact (search_raises_by_tier Levenshtein.ratio (Some (6 # 10)) (Some (8 # 10))
           Sample.themes "tow" (NameError "BadMatchError") eq_refl).
Defined.
